(** * liberate-your-ports: PCP client, byte-matrix codec, IP utilities and
      the PortControl orchestrator, embedded from the TypeScript sources
      (src/utils.ts, src/pcp.ts and the PortControl class). *)

From Stdlib Require Import ZArith List String Ascii Lia Bool.
From stdpp Require Import base option list gmap strings pretty.

Local Open Scope Z_scope.
Set Warnings "-clear-no-such-hyp".

(** ** JavaScript results

    A synchronous call either returns or throws; a promise either resolves
    or rejects.  Both are modelled by [Result]. *)

Inductive JsError :=
| TypeError
| RangeError
| Error (msg : string).

Inductive Result (A : Type) :=
| Ok (a : A)
| Throw (e : JsError).
Arguments Ok {A} a.
Arguments Throw {A} e.

#[export] Instance Result_ret : MRet Result := fun A a => Ok a.
#[export] Instance Result_bind : MBind Result := fun A B f r =>
  match r with
  | Ok a => f a
  | Throw e => Throw e
  end.

Module Utils.

(** *** DataView over an ArrayBuffer: a list of bytes, each in 0..255 *)

(** [new ArrayBuffer(length)] for a length that is a natural number: the
    buffer is zero-filled.  For a negative length the constructor throws
    RangeError; a caller that passes a number on makes that check
    ([createArrayBuffer]). *)
Definition new_ArrayBuffer (length : nat) : list Z := replicate length 0.

Definition inRange (buf : list Z) (byteOffset width : Z) : bool :=
  (0 <=? byteOffset) && (byteOffset + width <=? Z.of_nat (length buf)).

(** Overwrite [length bs] bytes starting at [byteOffset]; a DataView
    access outside the buffer throws RangeError. *)
Definition setBytes (buf : list Z) (byteOffset : Z) (bs : list Z) : Result (list Z) :=
  if inRange buf byteOffset (Z.of_nat (length bs)) then
    Ok (take (Z.to_nat byteOffset) buf ++ bs
          ++ drop (Z.to_nat byteOffset + length bs)%nat buf)
  else Throw RangeError.

(** setInt8 / setInt16 / setInt32 (big-endian): the value is reduced
    modulo 2^bits by ToInt8 / ToInt16 / ToInt32 and stored high byte first. *)
Definition setInt8 (buf : list Z) (byteOffset value : Z) : Result (list Z) :=
  setBytes buf byteOffset [value mod 256].

Definition setInt16 (buf : list Z) (byteOffset value : Z) : Result (list Z) :=
  setBytes buf byteOffset [(value / 256) mod 256; value mod 256].

Definition setInt32 (buf : list Z) (byteOffset value : Z) : Result (list Z) :=
  setBytes buf byteOffset
    [(value / 16777216) mod 256; (value / 65536) mod 256;
     (value / 256) mod 256; value mod 256].

Definition byteAt (buf : list Z) (byteOffset : Z) : Z :=
  nth (Z.to_nat byteOffset) buf 0.

Definition getUint8 (buf : list Z) (byteOffset : Z) : Result Z :=
  if inRange buf byteOffset 1 then Ok (byteAt buf byteOffset)
  else Throw RangeError.

Definition getUint16 (buf : list Z) (byteOffset : Z) : Result Z :=
  if inRange buf byteOffset 2 then
    Ok (byteAt buf byteOffset * 256 + byteAt buf (byteOffset + 1))
  else Throw RangeError.

Definition getUint32 (buf : list Z) (byteOffset : Z) : Result Z :=
  if inRange buf byteOffset 4 then
    Ok (byteAt buf byteOffset * 16777216 + byteAt buf (byteOffset + 1) * 65536
        + byteAt buf (byteOffset + 2) * 256 + byteAt buf (byteOffset + 3))
  else Throw RangeError.

(** *** createArrayBuffer

    A row of the matrix is [[bits, byteOffset, value]]. *)
Definition Row : Type := Z * Z * Z.

Definition applyRow (buf : list Z) (row : Row) : Result (list Z) :=
  let '(bits, byteOffset, value) := row in
  if bits =? 8 then setInt8 buf byteOffset value
  else if bits =? 16 then setInt16 buf byteOffset value
  else if bits =? 32 then setInt32 buf byteOffset value
  else Ok buf (* console.error("Invalid parameters to createArrayBuffer") *).

Fixpoint applyRows (buf : list Z) (matrix : list Row) : Result (list Z) :=
  match matrix with
  | [] => Ok buf
  | row :: rest =>
      match applyRow buf row with
      | Ok buf' => applyRows buf' rest
      | Throw e => Throw e
      end
  end.

Definition createArrayBuffer (bytes : Z) (matrix : list Row) : Result (list Z) :=
  if bytes <? 0 then Throw RangeError (* new ArrayBuffer(bytes) *)
  else applyRows (new_ArrayBuffer (Z.to_nat bytes)) matrix.

(** The byte offsets a row writes. *)
Definition rowCovers (row : Row) (off : Z) : Prop :=
  let '(bits, byteOffset, _) := row in
  (bits = 8 \/ bits = 16 \/ bits = 32) /\ byteOffset <= off < byteOffset + bits / 8.

(** *** arrDiff and arrAdd (typed any[] in the source) *)

Section Arrays.
Context {A : Type} `{EqDecision A}.

Definition includes (l : list A) (val : A) : bool := bool_decide (val ∈ l).

(** listA.filter(val => !listB.includes(val)) *)
Definition arrDiff (listA listB : list A) : list A :=
  filter (fun val => includes listB val = false) listA.

(** [...listA, ...listB].forEach(val => { if (!sum.includes(val)) sum.push(val) }) *)
Definition arrAdd (listA listB : list A) : list A :=
  fold_left (fun sum val => if includes sum val then sum else sum ++ [val])
            (listA ++ listB) [].

(** Array.prototype.indexOf: first index holding [val], -1 when absent. *)
Fixpoint indexOf (l : list A) (val : A) : Z :=
  match l with
  | [] => -1
  | x :: rest =>
      if decide (x = val) then 0
      else let i := indexOf rest val in if i =? -1 then -1 else i + 1
  end.

(** arr[i]: undefined outside 0..length-1. *)
Definition arrayGet (l : list A) (i : Z) : option A :=
  if 0 <=? i then l !! Z.to_nat i else None.
End Arrays.

(** *** IPv4 addresses (ipaddr.js) *)

Definition digitValue (c : ascii) : option Z :=
  let n := Z.of_nat (nat_of_ascii c) in
  if (48 <=? n) && (n <=? 57) then Some (n - 48) else None.

Fixpoint decimalValue (acc : Z) (digits : list ascii) : option Z :=
  match digits with
  | [] => Some acc
  | c :: rest =>
      match digitValue c with
      | Some d => decimalValue (acc * 10 + d) rest
      | None => None
      end
  end.

(** One part of a dotted quad: decimal digits without a leading zero,
    value at most 255. *)
Definition parseOctet (part : list ascii) : option Z :=
  match part with
  | [] => None
  | c :: rest =>
      if Ascii.eqb c "0" && negb (bool_decide (rest = [])) then None
      else match decimalValue 0 part with
           | Some v => if v <=? 255 then Some v else None
           | None => None
           end
  end.

Fixpoint splitDots (s : string) (cur : list ascii) : list (list ascii) :=
  match s with
  | EmptyString => [rev cur]
  | String c rest =>
      if Ascii.eqb c "." then rev cur :: splitDots rest []
      else splitDots rest (c :: cur)
  end.

(** Modelled from the spec: ipaddr.js is imported by utils.ts and pcp.ts
    but is not among the sources.  Section 4.C has every entry parsed as
    IPv4; the model accepts exactly the decimal dotted quads (four parts,
    each 0..255 without leading zeros) and yields their octets.
    [IPv4_isValid] says whether parsing succeeds; parsing anything else
    throws. *)
Definition IPv4_octets (s : string) : option (list Z) :=
  match splitDots s [] with
  | [a; b; c; d] =>
      match parseOctet a, parseOctet b, parseOctet c, parseOctet d with
      | Some a', Some b', Some c', Some d' => Some [a'; b'; c'; d']
      | _, _, _, _ => None
      end
  | _ => None
  end.

Definition IPv4_isValid (s : string) : bool :=
  match IPv4_octets s with Some _ => true | None => false end.

Definition IPv4_parse (s : string) : Result (list Z) :=
  match IPv4_octets s with
  | Some octets => Ok octets
  | None => Throw (Error "ipaddr: string is not formatted like an IPv4 Address")
  end.

(** Modelled from the spec: [ip.match(other, bits)] of ipaddr.js is not
    among the sources.  Section 4.C and the glossary take the shared
    high-order prefix of the two addresses: the match holds when the
    leading [cidrBits] bits agree, compared octet by octet. *)
Fixpoint matchCIDR (first second : list Z) (partSize cidrBits : Z) : bool :=
  match first, second with
  | f :: first', s :: second' =>
      if cidrBits <=? 0 then true
      else
        let shift := Z.max 0 (partSize - cidrBits) in
        if Z.shiftr f shift =? Z.shiftr s shift
        then matchCIDR first' second' partSize (cidrBits - partSize)
        else false
  | _, _ => true
  end.

Definition IPv4_match (ip other : list Z) (cidrRange : Z) : bool :=
  matchCIDR ip other 8 cidrRange.

(** *** ROUTER_IPS and the probe ports *)

Definition ROUTER_IPS : list string :=
  ["192.168.1.1"; "192.168.2.1"; "192.168.11.1";
   "192.168.0.1"; "192.168.0.30"; "192.168.0.50"; "192.168.20.1";
   "192.168.30.1"; "192.168.62.1"; "192.168.100.1"; "192.168.102.1";
   "192.168.1.254"; "192.168.10.1"; "192.168.123.254"; "192.168.4.1";
   "10.0.1.1"; "10.1.1.1"; "10.0.0.13"; "10.0.0.2"; "10.0.0.138"]%string.

Definition NAT_PMP_PROBE_PORT : Z := 55555.
Definition PCP_PROBE_PORT : Z := 55556.
Definition UPNP_PROBE_PORT : Z := 55557.

(** *** longestPrefixMatch *)

(** The inner loop for one list entry:
    [for (mask = 1; mask < 32; mask++) if (!ip.match(matchIp, mask))
       { prefixMatches.push(mask - 1); break; }].
    [Some n] is the value pushed; [None] when the loop ends without a push. *)
Definition prefixPush (ip matchIp : list Z) : option Z :=
  match find (fun mask => negb (IPv4_match ip matchIp mask)) (seqZ 1 31) with
  | Some mask => Some (mask - 1)
  | None => None
  end.

(** ipList.forEach(...) accumulating [prefixMatches]. *)
Fixpoint prefixMatchesOf (ipList : list string) (matchIp : list Z)
    (prefixMatches : list Z) : Result (list Z) :=
  match ipList with
  | [] => Ok prefixMatches
  | v :: rest =>
      match IPv4_parse v with
      | Throw e => Throw e
      | Ok ip =>
          prefixMatchesOf rest matchIp
            (match prefixPush ip matchIp with
             | Some n => prefixMatches ++ [n]
             | None => prefixMatches
             end)
      end
  end.

(** Math.max.apply(null, l): [None] stands for -Infinity (empty list). *)
Definition Math_max (l : list Z) : option Z :=
  match l with
  | [] => None
  | x :: rest => Some (fold_left Z.max rest x)
  end.

(** The result is [None] when the source returns undefined. *)
Definition longestPrefixMatch (ipList : list string) (matchIp : string)
    : Result (option string) :=
  matchIp' ← IPv4_parse matchIp;
  prefixMatches ← prefixMatchesOf ipList matchIp' [];
  let maxIndex :=
    match Math_max prefixMatches with
    | Some m => indexOf prefixMatches m
    | None => -1
    end in
  Ok (arrayGet ipList maxIndex).

(** filterRouterIps: one pushed value (possibly undefined) per private IP. *)
Fixpoint filterRouterIps (privateIps : list string) : Result (list (option string)) :=
  match privateIps with
  | [] => Ok []
  | privateIp :: rest =>
      r ← longestPrefixMatch ROUTER_IPS privateIp;
      routerIps ← filterRouterIps rest;
      Ok (r :: routerIps)
  end.

(** *** arrayBufferToString and stringToArrayBuffer

    A JavaScript string is taken as the list of its UTF-16 code units. *)

(** String.fromCharCode(n): the one-unit string of n modulo 2^16. *)
Definition String_fromCharCode (n : Z) : list Z := [n mod 65536].

(** [a.push(String.fromCharCode(bytes[i]))] for every byte, then [a.join('')]. *)
Definition arrayBufferToString (buffer : list Z) : list Z :=
  concat (fold_left (fun a byte => a ++ [String_fromCharCode byte]) buffer []).

(** A buffer of s.length bytes with [bytes[i] = s.charCodeAt(i)] for every
    index; a Uint8Array stores the value modulo 256. *)
Definition stringToArrayBuffer (s : list Z) : list Z :=
  fold_left (fun bytes i => <[i := nth i s 0 mod 256]> bytes)
            (seq 0 (length s)) (new_ArrayBuffer (length s)).

End Utils.

(** ** The world the promises run in *)

Inductive Protocol := natPmp | pcp | upnp.

(** The [routerIpCache] argument of the PCP functions: the orchestrator's
    array, passed by reference, or undefined when the caller leaves it out. *)
Inductive CacheArg := CacheRef | CacheUndefined.

(** [mapping.deleter]: a deleteMapping of one protocol module bound to its
    arguments. *)
Inductive Deleter :=
| PcpDeleter (extPort : Z) (routerIpCache : CacheArg)
| PmpDeleter (extPort : Z)
| UpnpDeleter (extPort : Z).

(** utils.Mapping; [None] is undefined. *)
Module Mapping.
Record t := mk {
    internalIp : option string;
    externalIp : option string;
    internalPort : option Z;
    externalPort : Z;
    lifetime : option Z;
    protocol : option Protocol;
    timeoutId : option nat;
    nonce : option (Z * Z * Z);
    deleter : option Deleter;
    errInfo : option string
  }.
End Mapping.
Export Mapping.
Abbreviation Mapping := Mapping.t.
Abbreviation mkMapping := Mapping.mk.

Definition new_Mapping : Mapping :=
  mkMapping None None None (-1) None None None None None None.

(** What a timer armed by setTimeout runs when it fires. *)
Inductive TimerAction :=
| RefreshPcp (intPort extPort lifetime : Z)
    (* addMapping.bind({}, intPort, extPort, lifetime, activeMappings) *)
| Evict (extPort : Z)
    (* () => { delete activeMappings[extPort]; } *).

Record Timer := mkTimer {
  timerId : nat;
  delayMs : Z;
  action : TimerAction
}.

Record ProtocolCompatibilityTable := mkSupport {
  support_natPmp : option bool;
  support_pcp : option bool;
  support_upnp : option bool;
  upnpControlUrl : option string
}.

(** The PortControl instance together with the timers armed and the
    datagrams handed to socket.sendTo (oldest first). *)
Record World := mkWorld {
  activeMappings : gmap Z Mapping;
  routerIpCache : list string;
  protocolSupportCache : ProtocolCompatibilityTable;
  timers : list Timer;
  nextTimeoutId : nat;
  sent : list (string * Z * list Z);
  randomCalls : nat
}.

Definition newPortControl : World :=
  mkWorld ∅ [] (mkSupport None None None None) [] 0%nat [] 0%nat.

(** What the host and the network supply. *)
Record Env := mkEnv {
  (* cand[4] of the ICE host candidates gathered during the two seconds *)
  hostCandidates : list string;
  (* the first datagram a router sends back within two seconds, if any *)
  routerReply : string -> list Z -> option (list Z);
  (* the k-th value of Math.floor(Math.random() * n) *)
  randomFloor : nat -> Z -> Z
}.

(** A promise run to completion from a world: [Ok] when it resolves,
    [Throw] when it rejects (or the call throws before returning it). *)
Record Promise (A : Type) := mkPromise { run : World -> Result A * World }.
Arguments mkPromise {A} run.
Arguments run {A} p w.

#[export] Instance Promise_ret : MRet Promise := fun A a => mkPromise (fun w => (Ok a, w)).
#[export] Instance Promise_bind : MBind Promise := fun A B f p =>
  mkPromise (fun w =>
    match run p w with
    | (Ok a, w') => run (f a) w'
    | (Throw e, w') => (Throw e, w')
    end).

Definition reject {A} (e : JsError) : Promise A := mkPromise (fun w => (Throw e, w)).

Definition liftResult {A} (r : Result A) : Promise A := mkPromise (fun w => (r, w)).

(** p.catch(handler) *)
Definition catch {A} (p : Promise A) (handler : JsError -> Promise A) : Promise A :=
  mkPromise (fun w =>
    match run p w with
    | (Ok a, w') => (Ok a, w')
    | (Throw e, w') => run (handler e) w'
    end).

(** Promise.all(list.map(f)): the calls are started in list order. *)
Fixpoint promiseAllMap {A B} (f : A -> Promise B) (l : list A) : Promise (list B) :=
  match l with
  | [] => mret []
  | x :: rest =>
      y ← f x;
      ys ← promiseAllMap f rest;
      mret (y :: ys)
  end.

(** arr.forEach(callback) where the callback updates a state and may throw:
    the state at the throw is kept, later elements are not visited. *)
Fixpoint forEach {S A} (callback : A -> S -> S * option JsError) (l : list A) (s : S)
    : S * option JsError :=
  match l with
  | [] => (s, None)
  | v :: rest =>
      match callback v s with
      | (s', None) => forEach callback rest s'
      | (s', Some e) => (s', Some e)
      end
  end.

Definition set_activeMappings (f : gmap Z Mapping -> gmap Z Mapping) (w : World) : World :=
  mkWorld (f (activeMappings w)) (routerIpCache w) (protocolSupportCache w)
          (timers w) (nextTimeoutId w) (sent w) (randomCalls w).

Definition set_routerIpCache (c : list string) (w : World) : World :=
  mkWorld (activeMappings w) c (protocolSupportCache w)
          (timers w) (nextTimeoutId w) (sent w) (randomCalls w).

(** setTimeout(action, delay): a fresh id; the timer is armed. *)
Definition setTimeout (a : TimerAction) (delay : Z) (w : World) : nat * World :=
  let id := nextTimeoutId w in
  (id, mkWorld (activeMappings w) (routerIpCache w) (protocolSupportCache w)
               (timers w ++ [mkTimer id delay a]) (S id) (sent w) (randomCalls w)).

(** clearTimeout(id); clearTimeout(undefined) does nothing. *)
Definition clearTimeout (id : option nat) (w : World) : World :=
  match id with
  | None => w
  | Some i =>
      mkWorld (activeMappings w) (routerIpCache w) (protocolSupportCache w)
              (filter (fun t => timerId t ≠ i) (timers w))
              (nextTimeoutId w) (sent w) (randomCalls w)
  end.

(** socket.sendTo(buffer, ip, port) *)
Definition sendTo (buffer : list Z) (ip : string) (port : Z) (w : World) : World :=
  mkWorld (activeMappings w) (routerIpCache w) (protocolSupportCache w)
          (timers w) (nextTimeoutId w) (sent w ++ [(ip, port, buffer)]) (randomCalls w).

Section Host.
Variable env : Env.

(** utils.randInt(min, max) *)
Definition randInt (min max : Z) : Promise Z := mkPromise (fun w =>
  (Ok (randomFloor env (randomCalls w) (max - min + 1) + min),
   mkWorld (activeMappings w) (routerIpCache w) (protocolSupportCache w)
           (timers w) (nextTimeoutId w) (sent w) (S (randomCalls w)))).

(** The [privateIps] array the onicecandidate handler has filled when
    the two seconds are over: the valid IPv4 host candidates, each once. *)
Definition gatheredIps : list string :=
  fold_left (fun privateIps privateIp =>
               if Utils.IPv4_isValid privateIp then
                 if Utils.indexOf privateIps privateIp =? -1
                 then privateIps ++ [privateIp] else privateIps
               else privateIps)
            (hostCandidates env) [].

(** utils.getPrivateIps: rejects when no address was gathered. *)
Definition getPrivateIps : Promise (list string) :=
  let privateIps := gatheredIps in
  if (0 <? Z.of_nat (length privateIps))
  then mret privateIps
  else reject (Error "getPrivateIps() failed").
End Host.

Module Pcp.
Section Pcp.
Variable env : Env.

(** The matrix handed to createArrayBuffer by sendPcpRequest;
    [ipOctets[k]] of a missing element is undefined, stored as 0. *)
Definition pcpMatrix (ipOctets : list Z) (intPort extPort lifetime : Z)
    (nonce : Z * Z * Z) : list Utils.Row :=
  [(32, 0, 0x2010000);
   (32, 4, lifetime);
   (16, 18, 0xffff);
   (8, 20, nth 0 ipOctets 0);
   (8, 21, nth 1 ipOctets 0);
   (8, 22, nth 2 ipOctets 0);
   (8, 23, nth 3 ipOctets 0);
   (32, 24, nonce.1.1);
   (32, 28, nonce.1.2);
   (32, 32, nonce.2);
   (8, 36, 17);
   (16, 40, intPort);
   (16, 42, extPort);
   (16, 54, 0xffff)].

Definition pcpBuffer (ipOctets : list Z) (intPort extPort lifetime : Z)
    (nonce : Z * Z * Z) : Result (list Z) :=
  Utils.createArrayBuffer 60 (pcpMatrix ipOctets intPort extPort lifetime nonce).

(** sendPcpRequest.  An exception thrown before the promise exists
    (parsing [privateIp]) is [Throw]; the promise itself resolves with the
    reply ([Some data]) or is rejected by the two-second countdown
    ([None]). *)
Definition sendPcpRequest (routerIp : string) (privateIp : option string)
    (intPort extPort lifetime : Z) (nonce : option (Z * Z * Z))
    : Promise (option (list Z)) :=
  nonce' ← match nonce with
           | Some n => mret n
           | None =>
               n0 ← randInt env 0 0xffffffff;
               n1 ← randInt env 0 0xffffffff;
               n2 ← randInt env 0 0xffffffff;
               mret (n0, n1, n2)
           end;
  ipOctets ← match privateIp with
             | Some ip => liftResult (Utils.IPv4_parse ip)
             | None => reject TypeError
             end;
  match pcpBuffer ipOctets intPort extPort lifetime nonce' with
  | Ok buffer =>
      mkPromise (fun w =>
        (Ok (routerReply env routerIp buffer), sendTo buffer routerIp 5351 w))
  | Throw _ => mret None (* thrown in the bind callback: nothing is sent *)
  end.

(** ipOctets.join('.') *)
Definition joinDots (ipOctets : list Z) : string :=
  String.concat "." (pretty <$> ipOctets).

Section AddMapping.
Variables (intPort extPort lifetime : Z) (cacheArg : CacheArg).

(** If lifetime is zero, we want to refresh every 24 hours *)
Definition reqLifetime : Z := if lifetime =? 0 then 24 * 60 * 60 else lifetime.

(** One element of [routerIps.map(...)]: [None] is the null that an
    error result is re-passed as; a reply comes with the router it was
    asked from ([routerIps[i]]) and the private IP chosen. *)
Definition requestFrom (privateIps : list string) (routerIp : option string)
    : Promise (option (string * list Z * option string)) :=
  match routerIp with
  | None => reject TypeError (* IPv4.parse(undefined) in longestPrefixMatch *)
  | Some r =>
      privateIp ← liftResult (Utils.longestPrefixMatch privateIps r);
      pcpResponse ← sendPcpRequest r privateIp intPort extPort reqLifetime None;
      mret (match pcpResponse with
            | Some data => Some (r, data, privateIp)
            | None => None
            end)
  end.

(** The body of [responses.forEach((v, i) => ...)] on the mapping being
    built and the router-IP cache. *)
Definition adoptResponse (v : option (string * list Z * option string))
    (s : Mapping * list string) : (Mapping * list string) * option JsError :=
  let '(mapping, cache) := s in
  match v with
  | None => (s, None)
  | Some (routerIp, pcpResponse, privateIp) =>
      match
        o0 ← Utils.getUint8 pcpResponse 56;
        o1 ← Utils.getUint8 pcpResponse 57;
        o2 ← Utils.getUint8 pcpResponse 58;
        o3 ← Utils.getUint8 pcpResponse 59;
        p ← Utils.getUint16 pcpResponse 42;
        l ← Utils.getUint32 pcpResponse 4;
        n0 ← Utils.getUint32 pcpResponse 24;
        n1 ← Utils.getUint32 pcpResponse 28;
        n2 ← Utils.getUint32 pcpResponse 32;
        Ok (joinDots [o0; o1; o2; o3], p, l, (n0, n1, n2))
      with
      | Throw e => (s, Some e)
      | Ok (extIp, p, l, n) =>
          let mapping' :=
            mkMapping privateIp (Some extIp) (internalPort mapping) p (Some l)
                      (protocol mapping) (timeoutId mapping) (Some n)
                      (deleter mapping) (errInfo mapping) in
          match cacheArg with
          | CacheUndefined => ((mapping', cache), Some TypeError)
          | CacheRef =>
              if Utils.indexOf cache routerIp =? -1
              then ((mapping', cache ++ [routerIp]), None)
              else ((mapping', cache), None)
          end
      end
  end.

(** Send PCP requests to a list of router IPs; [mapping] is the object
    the enclosing addMapping created, updated in place. *)
Definition _sendPcpRequests (routerIps : list (option string)) (mapping : Mapping)
    : Promise Mapping := mkPromise (fun w =>
  match run (privateIps ← getPrivateIps env;
             promiseAllMap (requestFrom privateIps) routerIps) w with
  | (Ok responses, w') =>
      let '((mapping', cache'), _) :=
        forEach adoptResponse responses (mapping, routerIpCache w') in
      (Ok mapping', set_routerIpCache cache' w')
  | (Throw _, w') => (Ok mapping, w') (* .catch((err) => mapping) *)
  end).

(** arrAdd(routerIpCache, filterRouterIps(privateIps)) *)
Definition matchedRouterIps (cache : list string) (privateIps : list string)
    : Result (list (option string)) :=
  filtered ← Utils.filterRouterIps privateIps;
  Ok (Utils.arrAdd (Some <$> cache) filtered).

Definition otherRouterIps (matched : list (option string)) : list (option string) :=
  Utils.arrDiff (Some <$> Utils.ROUTER_IPS) matched.

Definition _sendPcpRequestsInWaves (mapping : Mapping) : Promise Mapping :=
  privateIps ← getPrivateIps env;
  matched ← mkPromise (fun w =>
               match cacheArg with
               | CacheRef => (matchedRouterIps (routerIpCache w) privateIps, w)
               | CacheUndefined =>
                   (_ ← Utils.filterRouterIps privateIps; Throw TypeError, w)
               end);
  let other := otherRouterIps matched in
  mapping' ← _sendPcpRequests matched mapping;
  if bool_decide (externalPort mapping' ≠ -1) then mret mapping'
  else _sendPcpRequests other mapping'.

(** [mapping.lifetime * 1000]; NaN (lifetime undefined) runs as 0. *)
Definition lifetimeMs (mapping : Mapping) : Z :=
  match Mapping.lifetime mapping with Some l => l * 1000 | None => 0 end.

Definition set_timeoutId (id : nat) (m : Mapping) : Mapping :=
  mkMapping (internalIp m) (externalIp m) (internalPort m) (externalPort m)
            (Mapping.lifetime m) (protocol m) (Some id) (nonce m) (deleter m) (errInfo m).

Definition set_deleter (d : Deleter) (m : Mapping) : Mapping :=
  mkMapping (internalIp m) (externalIp m) (internalPort m) (externalPort m)
            (Mapping.lifetime m) (protocol m) (timeoutId m) (nonce m) (Some d) (errInfo m).

(** [dLifetime > 0]; dLifetime is NaN ([None]) when the mapping has no
    lifetime, and NaN > 0 is false. *)
Definition greaterThanZero (dLifetime : option Z) : bool :=
  match dLifetime with Some d => 0 <? d | None => false end.

Definition _saveAndRefreshMapping (mapping : Mapping) : Promise Mapping := mkPromise (fun w =>
  let dLifetime := (fun l => reqLifetime - l) <$> Mapping.lifetime mapping in
  let succeeded := bool_decide (externalPort mapping ≠ -1) in
  let '(mapping1, w1) :=
    (* If the actual lifetime is less than the requested lifetime,
       setTimeout to refresh the mapping when it expires *)
    if succeeded && greaterThanZero dLifetime then
      let '(id, w') := setTimeout (RefreshPcp intPort (externalPort mapping)
                                              (default 0 dLifetime))
                                  (lifetimeMs mapping) w in
      (set_timeoutId id mapping, w')
    (* If the original lifetime is 0, refresh every 24 hrs indefinitely *)
    else if succeeded && (lifetime =? 0) then
      let '(id, w') := setTimeout (RefreshPcp intPort (externalPort mapping) 0)
                                  (24 * 60 * 60 * 1000) w in
      (set_timeoutId id mapping, w')
    (* If we're not refreshing, delete the entry at expiration *)
    else if succeeded then
      (mapping, (setTimeout (Evict (externalPort mapping)) (lifetimeMs mapping) w).2)
    else (mapping, w) in
  (* If mapping succeeded, attach a deleter function and add to activeMappings *)
  if succeeded then
    let mapping2 := set_deleter (PcpDeleter (externalPort mapping1) cacheArg) mapping1 in
    (Ok mapping2, set_activeMappings (insert (externalPort mapping2) mapping2) w1)
  else (Ok mapping1, w1)).

Definition addMapping : Promise Mapping :=
  let mapping :=
    mkMapping None None (Some intPort) (-1) None (Some pcp) None None None None in
  mapping' ← _sendPcpRequestsInWaves mapping;
  _saveAndRefreshMapping mapping'.
End AddMapping.

Definition probeSupport (cacheArg : CacheArg) : Promise bool :=
  let probePort := Utils.PCP_PROBE_PORT in
  mapping ← addMapping probePort probePort 120 cacheArg;
  mret (bool_decide (externalPort mapping ≠ -1)).

Section DeleteMapping.
Variables (extPort : Z) (cacheArg : CacheArg).

(** [responses.externalPort]: Promise.all resolves with an Array, which
    has no such property, so the lookup yields undefined ([None]). *)
Definition Array_externalPort {A} (responses : list A) : option Z := None.

(** [v !== n] for a number or undefined [v]. *)
Definition strictNotEqual (v : option Z) (n : Z) : bool :=
  match v with
  | Some x => bool_decide (x ≠ n)
  | None => true
  end.

(** ToNumber of a port that may be undefined, as setInt16 stores it. *)
Definition toNumber (v : option Z) : Z := default 0 v.

Definition _sendDeletionRequests (routerIps : list (option string))
    : Promise (list (option (list Z))) :=
  privateIps ← getPrivateIps env;
  (* Get the internal port and nonce for this mapping; this may error *)
  m ← mkPromise (fun w =>
         match activeMappings w !! extPort with
         | Some m => (Ok m, w)
         | None => (Throw TypeError, w)
         end);
  let intPort := internalPort m in
  let nonce := nonce m in
  promiseAllMap
    (fun routerIp : option string =>
       match routerIp with
       | None => reject TypeError
       | Some r =>
           privateIp ← liftResult (Utils.longestPrefixMatch privateIps r);
           sendPcpRequest r privateIp (toNumber intPort) 0 0 nonce
       end)
    routerIps.

Definition _sendDeletionRequestsInWaves : Promise (list (option (list Z))) :=
  privateIps ← getPrivateIps env;
  matched ← mkPromise (fun w =>
               match cacheArg with
               | CacheRef => (matchedRouterIps (routerIpCache w) privateIps, w)
               | CacheUndefined =>
                   (_ ← Utils.filterRouterIps privateIps; Throw TypeError, w)
               end);
  let other := otherRouterIps matched in
  mapping ← _sendDeletionRequests matched;
  if strictNotEqual (Array_externalPort mapping) (-1) then mret mapping
  else _sendDeletionRequests other.

(** The body of [responses.forEach((v, i) => ...)]; the value the
    callback returns is dropped by forEach. *)
Definition deleteOnSuccess (v : option (list Z)) (w : World) : World * option JsError :=
  match v with
  | None => (w, None)
  | Some data =>
      match Utils.getUint8 data 3 with
      | Throw e => (w, Some e)
      | Ok successCode =>
          if (successCode =? 0) || (successCode =? 8) then
            match activeMappings w !! extPort with
            | None => (w, Some TypeError)
            | Some m =>
                (set_activeMappings (delete extPort) (clearTimeout (timeoutId m) w),
                 None)
            end
          else (w, None)
      end
  end.

Definition _deleteFromActiveMappings (responses : list (option (list Z)))
    : Promise bool :=
  mkPromise (fun w =>
    match forEach deleteOnSuccess responses w with
    | (w', None) => (Ok false, w')
    | (w', Some e) => (Throw e, w')
    end).

Definition deleteMapping : Promise bool :=
  catch (responses ← _sendDeletionRequestsInWaves;
         _deleteFromActiveMappings responses)
        (fun err => mret false).
End DeleteMapping.

(** What a timer armed by _saveAndRefreshMapping does when it fires: the
    bound addMapping is called with the four arguments it was bound to, so
    its [routerIpCache] is undefined. *)
Definition fire (t : Timer) : Promise unit :=
  match action t with
  | RefreshPcp intPort extPort lifetime =>
      _ ← addMapping intPort extPort lifetime CacheUndefined; mret tt
  | Evict extPort =>
      mkPromise (fun w => (Ok tt, set_activeMappings (delete extPort) w))
  end.
End Pcp.
End Pcp.

(** ** The PortControl class *)

#[export] Instance Protocol_eq_dec : EqDecision Protocol.
Proof. solve_decision. Defined.

Module PortControl.
Section PortControl.
Variable env : Env.

(** nat-pmp.ts and upnp.ts are not among the sources: their addMapping
    and deleteMapping are taken as they come.  Both work on the
    instance's [activeMappings] (and, for NAT-PMP, [routerIpCache]). *)
Variable natPmp_addMapping : Z -> Z -> Z -> Promise Mapping.
Variable natPmp_deleteMapping : Z -> Promise bool.
Variable upnp_addMapping : Z -> Z -> Z -> option string -> Promise Mapping.
Variable upnp_deleteMapping : Z -> Promise bool.

Definition addMappingPmp (intPort extPort lifetime : Z) : Promise Mapping :=
  natPmp_addMapping intPort extPort lifetime.

Definition addMappingPcp (intPort extPort lifetime : Z) : Promise Mapping :=
  Pcp.addMapping env intPort extPort lifetime CacheRef.

Definition addMappingUpnp (intPort extPort lifetime : Z) (controlUrl : option string)
    : Promise Mapping :=
  upnp_addMapping intPort extPort lifetime controlUrl.

(** A boolean or undefined used as a condition. *)
Definition truthy (b : option bool) : bool := default false b.

Definition addMapping (intPort extPort lifetime : Z) : Promise Mapping :=
  mkPromise (fun w =>
    let cache := protocolSupportCache w in
    match support_natPmp cache with
    | None =>
        (* try opening a port with NAT-PMP, then PCP, then UPnP *)
        run (mapping ← addMappingPmp intPort extPort lifetime;
             mapping' ← (if bool_decide (externalPort mapping ≠ -1) then mret mapping
                         else addMappingPcp intPort extPort lifetime);
             if bool_decide (externalPort mapping' ≠ -1) then mret mapping'
             else addMappingUpnp intPort extPort lifetime None) w
    | Some _ =>
        if truthy (support_natPmp cache) then
          run (addMappingPmp intPort extPort lifetime) w
        else if truthy (support_pcp cache) then
          run (addMappingPcp intPort extPort lifetime) w
        else if truthy (support_upnp cache) then
          run (addMappingUpnp intPort extPort lifetime (upnpControlUrl cache)) w
        else
          let failureMapping :=
            mkMapping None None None (-1) None None None None None
                      (Some "No protocols are supported from last probe"%string) in
          (Ok failureMapping, w)
    end).

(** mapping.deleter() *)
Definition callDeleter (d : option Deleter) : Promise bool :=
  match d with
  | None => reject TypeError
  | Some (PcpDeleter extPort cacheArg) => Pcp.deleteMapping env extPort cacheArg
  | Some (PmpDeleter extPort) => natPmp_deleteMapping extPort
  | Some (UpnpDeleter extPort) => upnp_deleteMapping extPort
  end.

Definition deleteMapping (extPort : Z) : Promise bool :=
  mkPromise (fun w =>
    match activeMappings w !! extPort with
    | None => (Ok false, w)
    | Some mapping => run (callDeleter (deleter mapping)) w
    end).

(** deleteMappingPmp, deleteMappingPcp and deleteMappingUpnp: as
    deleteMapping, for a mapping of the one protocol only. *)
Definition deleteMappingOf (p : Protocol) (extPort : Z) : Promise bool :=
  mkPromise (fun w =>
    match activeMappings w !! extPort with
    | None => (Ok false, w)
    | Some mapping =>
        if bool_decide (protocol mapping ≠ Some p) then (Ok false, w)
        else run (callDeleter (deleter mapping)) w
    end).

Definition deleteMappingPmp (extPort : Z) : Promise bool := deleteMappingOf natPmp extPort.
Definition deleteMappingPcp (extPort : Z) : Promise bool := deleteMappingOf pcp extPort.
Definition deleteMappingUpnp (extPort : Z) : Promise bool := deleteMappingOf upnp extPort.

Definition probePcpSupport : Promise bool := Pcp.probeSupport env CacheRef.

(** The continuation of probeProtocolSupport, run once the three probes
    and getUpnpControlUrl have resolved with [support]: the outcomes are
    stored in protocolSupportCache and the three flags returned. *)
Definition recordSupport (support : bool * bool * bool * string)
    : Promise (bool * bool * bool) :=
  mkPromise (fun w =>
    let '(natPmp', pcp', upnp', controlUrl) := support in
    (Ok (natPmp', pcp', upnp'),
     mkWorld (activeMappings w) (routerIpCache w)
             (mkSupport (Some natPmp') (Some pcp') (Some upnp') (Some controlUrl))
             (timers w) (nextTimeoutId w) (sent w) (randomCalls w))).

(** The properties of Object.prototype, which is all a plain object
    inherits: a member of [activeMappings] is one of its own keys (the
    external ports) or one of these. *)
Definition Object_prototype : list string :=
  ["constructor"; "hasOwnProperty"; "isPrototypeOf"; "propertyIsEnumerable";
   "toLocaleString"; "toString"; "valueOf";
   "__defineGetter__"; "__defineSetter__"; "__lookupGetter__";
   "__lookupSetter__"; "__proto__"]%string.

(** [activeMappings.name(callback)] on the plain object, giving the
    [extPorts] array the callback has filled.  Calling a member that is
    undefined throws TypeError; no function of Object.prototype runs a
    callback, so none would push a key. *)
Definition callMember (name : string) (callback : Z -> list Z -> list Z)
    : Result (list Z) :=
  if Utils.includes Object_prototype name then Ok []
  else Throw TypeError.

Definition close : Promise unit :=
  (* new Promise((F, R) => ...): an executor that throws rejects it *)
  mkPromise (fun w =>
    (* Get all the keys (extPorts) of activeMappings *)
    match callMember "forEach"
            (fun extPort extPorts =>
               if bool_decide (is_Some (activeMappings w !! extPort))
               then extPorts ++ [extPort] else extPorts) with
    | Throw e => (Throw e, w)
    | Ok extPorts =>
        (* Delete them all *)
        run (_ ← promiseAllMap deleteMapping extPorts; mret tt) w
    end).

End PortControl.
End PortControl.

(** ** Reference definitions and scenarios used by the properties *)

(** Duplicates removed, the first occurrence of each element kept in place:
    what section 4.D asks of the first wave ("duplicates removed, order:
    cache first"). *)
Fixpoint firstOccurrences {A} `{EqDecision A} (l : list A) : list A :=
  match l with
  | [] => []
  | x :: rest => x :: filter (fun y => y ≠ x) (firstOccurrences rest)
  end.

(** Section 4.C in the words of the specification: the length in bits,
    0..31, of the shared high-order prefix of two addresses. *)
Definition spec_prefixLength (a b : list Z) : Z :=
  match find (fun bits => negb (Utils.IPv4_match a b bits)) (seqZ 1 31) with
  | Some bits => bits - 1
  | None => 31
  end.

(** Section 4.C in the words of the specification: the list entry with the
    largest prefix length, ties broken by list order (first wins). *)
Definition spec_longestPrefixMatch (ipList : list string) (target : string)
    : option string :=
  match Utils.IPv4_octets target with
  | None => None
  | Some t =>
      fst <$>
        fold_left (fun best entry =>
                     match Utils.IPv4_octets entry with
                     | None => best
                     | Some e =>
                         let n := spec_prefixLength e t in
                         match best with
                         | Some (_, m) => if m <? n then Some (entry, n) else best
                         | None => Some (entry, n)
                         end
                     end)
                  ipList None
  end.

(** *** A home network for the scenarios *)

Module Scenario.
Definition be16 (v : Z) : list Z := [(v / 256) mod 256; v mod 256].

Definition be32 (v : Z) : list Z :=
  [(v / 16777216) mod 256; (v / 65536) mod 256; (v / 256) mod 256; v mod 256].

(** A router's 60-byte answer to a MAP request: version 2, opcode 0x81,
    the result code, the granted lifetime, the assigned external port
    and address; nonce, protocol and internal port are echoed. *)
Definition mapResponse (resultCode granted extPort : Z) (extIp request : list Z)
    : list Z :=
  [2; 129; 0; resultCode] ++ be32 granted ++ take 34 (drop 8 request)
    ++ be16 extPort ++ take 12 (drop 44 request) ++ extIp.

(** The requested lifetime of a MAP request; 0 asks for deletion. *)
Definition requestedLifetime (request : list Z) : Z :=
  match Utils.getUint32 request 4 with Ok l => l | Throw _ => 0 end.

(** A router that answers an add with [addCode], lifetime [granted] and
    port [extPort], and a deletion with [deleteCode]. *)
Definition routerAnswer (addCode deleteCode granted extPort : Z) (request : list Z)
    : list Z :=
  if requestedLifetime request =? 0
  then mapResponse deleteCode 0 0 [0; 0; 0; 0] request
  else mapResponse addCode granted extPort [203; 0; 113; 5] request.

(** The host 192.168.1.42 behind a single router at 192.168.1.1. *)
Definition homeNetwork (addCode deleteCode granted extPort : Z) : Env :=
  mkEnv ["192.168.1.42"%string]
        (fun routerIp request =>
           if String.eqb routerIp "192.168.1.1"
           then Some (routerAnswer addCode deleteCode granted extPort request)
           else None)
        (fun k n => Z.of_nat k + 7).

(** A host with the addresses 192.168.0.7 and 192.168.1.42 and a router
    on each network: 192.168.0.1 grants port 5000 and 192.168.1.1 grants
    port 6000, both with result code 0. *)
Definition twoRouters : Env :=
  mkEnv ["192.168.0.7"%string; "192.168.1.42"%string]
        (fun routerIp request =>
           if String.eqb routerIp "192.168.0.1"
           then Some (mapResponse 0 120 5000 [203; 0; 113; 5] request)
           else if String.eqb routerIp "192.168.1.1"
           then Some (mapResponse 0 120 6000 [198; 51; 100; 9] request)
           else None)
        (fun k n => Z.of_nat k + 7).

(** The reply a datagram handed to sendTo gets, and fields read from it. *)
Definition replyTo (env : Env) (d : string * Z * list Z) : option (list Z) :=
  routerReply env d.1.1 d.2.

Definition resultCodeOf (reply : option (list Z)) : option Z :=
  match reply with
  | Some data => match Utils.getUint8 data 3 with Ok c => Some c | Throw _ => None end
  | None => None
  end.

Definition externalPortOf (reply : option (list Z)) : option Z :=
  match reply with
  | Some data => match Utils.getUint16 data 42 with Ok c => Some c | Throw _ => None end
  | None => None
  end.

(** A host on which no IPv4 host candidate is gathered; routers are silent. *)
Definition noLocalIp : Env :=
  mkEnv [] (fun _ _ => None) (fun k n => Z.of_nat k + 7).

(** The mapping object pcp.addMapping starts from. *)
Definition freshPcpMapping (intPort : Z) : Mapping :=
  mkMapping None None (Some intPort) (-1) None (Some pcp) None None None None.

(** The mapping a first wave hands over when the router granted 120
    seconds for external port 4001. *)
Definition granted120 : Mapping :=
  mkMapping (Some "192.168.1.42"%string) (Some "203.0.113.5"%string) (Some 4000) 4001
            (Some 120) (Some pcp) None (Some (7, 8, 9)) None None.

(** The PortControl after [addMapping(4000, 4001, 300)] went through PCP
    on the home network (add answered with code 0, 120 seconds). *)
Definition afterAdd (deleteCode : Z) : World :=
  (run (Pcp.addMapping (homeNetwork 0 deleteCode 120 4001) 4000 4001 300 CacheRef)
       newPortControl).2.

(** UPnP finding no gateway. *)
Definition upnpNoGateway : Z -> Z -> Z -> option string -> Promise Mapping :=
  fun intPort _ _ _ =>
    mret (mkMapping None None (Some intPort) (-1) None (Some upnp)
                    None None None None).

Definition noDeleter : Z -> Promise bool := fun _ => mret false.

(** A router's reply to an add of port 4001, result code at offset 3 left 0. *)
Definition sampleReply : list Z :=
  mapResponse 0 30 4001 [203; 0; 113; 5] (replicate 60 0).

(** The registry entry [afterAdd] holds under port 4001. *)
Definition registered4001 : Mapping :=
  mkMapping (Some "192.168.1.42"%string) (Some "203.0.113.5"%string) (Some 4000) 4001
            (Some 120) (Some pcp) (Some 0%nat) (Some (7, 8, 9))
            (Some (PcpDeleter 4001 CacheRef)) None.

(** The Mapping and the PortControl after port 4001 was asked for 7200
    seconds on the home network and granted for as long. *)
Definition grantedInFull : Mapping * World :=
  match run (Pcp.addMapping (homeNetwork 0 8 7200 4001) 4000 4001 7200 CacheRef)
            newPortControl with
  | (Ok m, w) => (m, w)
  | (Throw _, w) => (new_Mapping, w)
  end.

(** The host 10.0.0.3 behind a router at 10.0.0.2. *)
Definition tenNetwork : Env :=
  mkEnv ["10.0.0.3"%string]
        (fun routerIp request =>
           if String.eqb routerIp "10.0.0.2"
           then Some (routerAnswer 0 0 7200 4001 request)
           else None)
        (fun k n => Z.of_nat k + 7).

(** The host 192.168.1.42 on a network where no router answers. *)
Definition silentNetwork : Env :=
  mkEnv ["192.168.1.42"%string] (fun _ _ => None) (fun k n => Z.of_nat k + 7).

(** NAT-PMP finding no router: its promise resolves with a failure Mapping. *)
Definition pmpNoRouter : Z -> Z -> Z -> Promise Mapping :=
  fun intPort _ _ =>
    mret (mkMapping None None (Some intPort) (-1) None (Some natPmp)
                    None None None None).
End Scenario.

(** Every datagram handed to sendTo between [w] and [w'] went to a router
    of [routerIps]. *)
Definition sentOnlyTo (w w' : World) (routerIps : list (option string)) : Prop :=
  exists extra,
    sent w' = sent w ++ extra /\
    forall d, d ∈ extra -> Some d.1.1 ∈ routerIps.

(** Every datagram handed to sendTo between [w] and [w'] satisfies [P]. *)
Definition sentAll (P : string * Z * list Z -> Prop) (w w' : World) : Prop :=
  exists extra, sent w' = sent w ++ extra /\ Forall P extra.

(** A datagram is a 60-byte PCP MAP request for UDP to port 5351 with the
    given internal port, suggested external port and requested lifetime. *)
Definition isMapRequest (intPort extPort lifetime : Z) (d : string * Z * list Z) : Prop :=
  d.1.2 = 5351 /\
  length d.2 = 60%nat /\
  Utils.getUint32 d.2 0 = Ok 0x2010000 /\
  Utils.getUint32 d.2 4 = Ok lifetime /\
  Utils.getUint8 d.2 36 = Ok 17 /\
  Utils.getUint16 d.2 40 = Ok intPort /\
  Utils.getUint16 d.2 42 = Ok extPort.

(** A datagram carries the mapping nonce [n] at offsets 24..35. *)
Definition carriesNonce (n : Z * Z * Z) (d : string * Z * list Z) : Prop :=
  Utils.getUint32 d.2 24 = Ok n.1.1 /\
  Utils.getUint32 d.2 28 = Ok n.1.2 /\
  Utils.getUint32 d.2 32 = Ok n.2.

(** The datagram [d] was handed to sendTo between [w] and [w']. *)
Definition sentSince (w w' : World) (d : string * Z * list Z) : Prop :=
  exists extra, sent w' = sent w ++ extra /\ d ∈ extra.

(** The fields of [m] that a reply fills in are those read from [data],
    and its internal IP is the private IP the request was made from. *)
Definition readFrom (data : list Z) (privateIp : option string) (m : Mapping) : Prop :=
  Utils.getUint16 data 42 = Ok (externalPort m) /\
  (exists granted,
     Utils.getUint32 data 4 = Ok granted /\ Mapping.lifetime m = Some granted) /\
  (exists n0 n1 n2,
     (Utils.getUint32 data 24, Utils.getUint32 data 28, Utils.getUint32 data 32)
       = (Ok n0, Ok n1, Ok n2) /\
     nonce m = Some (n0, n1, n2)) /\
  (exists o0 o1 o2 o3,
     (Utils.getUint8 data 56, Utils.getUint8 data 57,
      Utils.getUint8 data 58, Utils.getUint8 data 59) = (Ok o0, Ok o1, Ok o2, Ok o3) /\
     externalIp m = Some (Pcp.joinDots [o0; o1; o2; o3])) /\
  internalIp m = privateIp.

(** [m] carries the fields of the reply a router gave to a request that was
    sent between [w] and [w']. *)
Definition carriesReply (env : Env) (w w' : World) (m : Mapping) : Prop :=
  exists routerIp request data privateIp,
    sentSince w w' (routerIp, 5351, request) /\
    routerReply env routerIp request = Some data /\
    readFrom data privateIp m.



(** Between [w] and [w'] only the network was used: the registry, both
    caches and the timers are as before. *)
Definition onlyNetwork (w w' : World) : Prop :=
  activeMappings w' = activeMappings w /\
  routerIpCache w' = routerIpCache w /\
  protocolSupportCache w' = protocolSupportCache w /\
  timers w' = timers w /\
  nextTimeoutId w' = nextTimeoutId w.

(** As [onlyNetwork], except that the router-IP cache may have changed. *)
Definition keepsRegistry (w w' : World) : Prop :=
  activeMappings w' = activeMappings w /\
  protocolSupportCache w' = protocolSupportCache w /\
  timers w' = timers w /\
  nextTimeoutId w' = nextTimeoutId w.

(** The value a row of the byte matrix reads back as. *)
Definition readBack (bits : Z) (buf : list Z) (byteOffset : Z) : Result Z :=
  if bits =? 8 then Utils.getUint8 buf byteOffset
  else if bits =? 16 then Utils.getUint16 buf byteOffset
  else Utils.getUint32 buf byteOffset.

Definition isByte (b : Z) : Prop := 0 <= b < 256.

(** The fields that adopting a reply fills in. *)
Definition adoptedFields (m : Mapping) : Prop :=
  is_Some (nonce m) /\ is_Some (externalIp m) /\ is_Some (Mapping.lifetime m).

(** [m] is [m0] after none or some replies were adopted: the fields a reply
    does not carry are those of [m0]. *)
Definition evolves (m0 m : Mapping) : Prop :=
  internalPort m = internalPort m0 /\ protocol m = protocol m0 /\
  timeoutId m = timeoutId m0 /\ deleter m = deleter m0 /\ errInfo m = errInfo m0 /\
  (m = m0 \/ adoptedFields m).

(** * Properties *)

Lemma run_bind {A B} (p : Promise A) (f : A -> Promise B) w :
  run (p ≫= f) w =
  match run p w with
  | (Ok a, w') => run (f a) w'
  | (Throw e, w') => (Throw e, w')
  end.
Proof. reflexivity. Qed.

Lemma run_getPrivateIps env w :
  run (getPrivateIps env) w =
  (if 0 <? Z.of_nat (length (gatheredIps env))
   then Ok (gatheredIps env) else Throw (Error "getPrivateIps() failed"), w).
Proof. unfold getPrivateIps. simpl. by destruct (0 <? _). Qed.

(** ** The byte-matrix codec *)

Module UtilsFacts.
Import Utils.

Lemma setBytes_length buf off bs buf' :
  setBytes buf off bs = Ok buf' -> length buf' = length buf.
Proof.
  unfold setBytes, inRange. intros H.
  destruct (_ && _) eqn:E; [|discriminate].
  injection H as <-. apply andb_true_iff in E as [E1%Z.leb_le E2%Z.leb_le].
  rewrite !length_app, length_take, length_drop. lia.
Qed.

Lemma setBytes_outside buf off bs buf' i :
  setBytes buf off bs = Ok buf' ->
  0 <= i -> (i < off \/ off + Z.of_nat (length bs) <= i) ->
  byteAt buf' i = byteAt buf i.
Proof.
  unfold setBytes, inRange, byteAt. intros H Hi Hout.
  destruct (_ && _) eqn:E; [|discriminate].
  injection H as <-. apply andb_true_iff in E as [E1%Z.leb_le E2%Z.leb_le].
  rewrite !nth_lookup. f_equal.
  destruct Hout as [Hlt | Hge].
  - rewrite lookup_app_l by (rewrite length_take; lia).
    apply lookup_take_lt. lia.
  - rewrite lookup_app_r by (rewrite length_take; lia).
    rewrite lookup_app_r by (rewrite length_take; lia).
    rewrite lookup_drop. f_equal. rewrite length_take. lia.
Qed.

Lemma applyRow_length buf row buf' :
  applyRow buf row = Ok buf' -> length buf' = length buf.
Proof.
  destruct row as [[bits off] v]. unfold applyRow, setInt8, setInt16, setInt32.
  repeat case_match; eauto using setBytes_length.
  by intros [= <-].
Qed.

Lemma applyRow_outside buf row buf' i :
  applyRow buf row = Ok buf' -> 0 <= i -> ~ rowCovers row i ->
  byteAt buf' i = byteAt buf i.
Proof.
  destruct row as [[bits off] v]. unfold applyRow, setInt8, setInt16, setInt32, rowCovers.
  intros H Hi Hnc.
  destruct (bits =? 8) eqn:E8; [apply Z.eqb_eq in E8; subst bits|].
  { eapply setBytes_outside; [eassumption | assumption |]. simpl length.
    change (8 / 8) with 1 in Hnc. lia. }
  destruct (bits =? 16) eqn:E16; [apply Z.eqb_eq in E16; subst bits|].
  { eapply setBytes_outside; [eassumption | assumption |]. simpl length.
    change (16 / 8) with 2 in Hnc. lia. }
  destruct (bits =? 32) eqn:E32; [apply Z.eqb_eq in E32; subst bits|].
  { eapply setBytes_outside; [eassumption | assumption |]. simpl length.
    change (32 / 8) with 4 in Hnc. lia. }
  by injection H as <-.
Qed.

Lemma applyRows_length matrix : forall buf buf',
  applyRows buf matrix = Ok buf' -> length buf' = length buf.
Proof.
  induction matrix as [|row rest IH]; simpl; intros buf buf' H.
  - by injection H as <-.
  - destruct (applyRow buf row) as [b|] eqn:E; [|discriminate].
    rewrite (IH _ _ H). eauto using applyRow_length.
Qed.

Lemma applyRows_outside matrix : forall buf buf' i,
  applyRows buf matrix = Ok buf' -> 0 <= i ->
  (forall row, row ∈ matrix -> ~ rowCovers row i) ->
  byteAt buf' i = byteAt buf i.
Proof.
  induction matrix as [|row rest IH]; simpl; intros buf buf' i H Hi Hnc.
  - by injection H as <-.
  - destruct (applyRow buf row) as [b|] eqn:E; [|discriminate].
    rewrite (IH _ _ _ H Hi).
    + eapply applyRow_outside; eauto. apply Hnc. left.
    + intros r Hr. apply Hnc. by right.
Qed.

Lemma byteAt_new_ArrayBuffer bytes i : byteAt (new_ArrayBuffer bytes) i = 0.
Proof.
  unfold byteAt, new_ArrayBuffer. rewrite nth_lookup.
  destruct (replicate _ _ !! _) eqn:E; [|done].
  by apply lookup_replicate in E as [-> _].
Qed.

(** buildBuffer(n, rows): the length is n and the bytes no row mentions are 0. *)
Lemma createArrayBuffer_untouched bytes matrix buf :
  createArrayBuffer bytes matrix = Ok buf ->
  length buf = Z.to_nat bytes /\
  forall off, 0 <= off ->
    (forall row, row ∈ matrix -> ~ rowCovers row off) -> byteAt buf off = 0.
Proof.
  unfold createArrayBuffer. destruct (bytes <? 0); [discriminate|]. intros H. split.
  - rewrite (applyRows_length _ _ _ H). apply length_replicate.
  - intros off Hoff Hnc. rewrite (applyRows_outside _ _ _ _ H Hoff Hnc).
    apply byteAt_new_ArrayBuffer.
Qed.

Lemma be16_roundtrip v : 0 <= v < 65536 -> (v / 256) mod 256 * 256 + v mod 256 = v.
Proof. intros. Z.div_mod_to_equations. lia. Qed.

Lemma be32_roundtrip v : 0 <= v < 4294967296 ->
  (v / 16777216) mod 256 * 16777216 + (v / 65536) mod 256 * 65536
  + (v / 256) mod 256 * 256 + v mod 256 = v.
Proof. intros. Z.div_mod_to_equations. lia. Qed.

End UtilsFacts.

Module PcpCodec.
Import Utils UtilsFacts.

(** The 60 bytes sendPcpRequest builds, read off the matrix. *)
Lemma pcpBuffer_bytes ipOctets intPort extPort lifetime n0 n1 n2 :
  Pcp.pcpBuffer ipOctets intPort extPort lifetime (n0, n1, n2) =
  Ok [2; 1; 0; 0;
      (lifetime / 16777216) mod 256; (lifetime / 65536) mod 256;
      (lifetime / 256) mod 256; lifetime mod 256;
      0; 0; 0; 0; 0; 0; 0; 0; 0; 0; 255; 255;
      nth 0 ipOctets 0 mod 256; nth 1 ipOctets 0 mod 256;
      nth 2 ipOctets 0 mod 256; nth 3 ipOctets 0 mod 256;
      (n0 / 16777216) mod 256; (n0 / 65536) mod 256; (n0 / 256) mod 256; n0 mod 256;
      (n1 / 16777216) mod 256; (n1 / 65536) mod 256; (n1 / 256) mod 256; n1 mod 256;
      (n2 / 16777216) mod 256; (n2 / 65536) mod 256; (n2 / 256) mod 256; n2 mod 256;
      17; 0; 0; 0;
      (intPort / 256) mod 256; intPort mod 256;
      (extPort / 256) mod 256; extPort mod 256;
      0; 0; 0; 0; 0; 0; 0; 0; 0; 0; 255; 255; 0; 0; 0; 0].
Proof. reflexivity. Qed.

(** The datagram sendPcpRequest hands to sendTo is that buffer, addressed
    to port 5351 of the router. *)
Lemma sendPcpRequest_datagram env routerIp privateIp octets intPort extPort lifetime
    nonce buf w :
  IPv4_parse privateIp = Ok octets ->
  Pcp.pcpBuffer octets intPort extPort lifetime nonce = Ok buf ->
  sent (run (Pcp.sendPcpRequest env routerIp (Some privateIp) intPort extPort lifetime
                                (Some nonce)) w).2
  = sent w ++ [(routerIp, 5351, buf)].
Proof.
  intros Hp Hb. unfold Pcp.sendPcpRequest.
  rewrite run_bind. cbn [run mret Promise_ret].
  rewrite run_bind. cbn [run liftResult]. rewrite Hp, Hb. reflexivity.
Qed.

(** C9. For intPort and extPort in 0..65535, a lifetime in 0..2^32-1 and a
    nonce of three 32-bit words, the encoded PCP MAP request has 60 bytes;
    the big-endian u16 at offset 40 is intPort, at 42 extPort, the u32 at
    offset 4 is the lifetime, the u32 at 24, 28 and 32 are the nonce
    words, and every byte at an offset no row of the matrix writes is 0. *)
Theorem pcp_request_roundtrip ipOctets intPort extPort lifetime n0 n1 n2 :
  0 <= intPort < 65536 -> 0 <= extPort < 65536 ->
  0 <= lifetime < 4294967296 ->
  0 <= n0 < 4294967296 -> 0 <= n1 < 4294967296 -> 0 <= n2 < 4294967296 ->
  exists buf,
    Pcp.pcpBuffer ipOctets intPort extPort lifetime (n0, n1, n2) = Ok buf /\
    length buf = 60%nat /\
    getUint16 buf 40 = Ok intPort /\
    getUint16 buf 42 = Ok extPort /\
    getUint32 buf 4 = Ok lifetime /\
    getUint32 buf 24 = Ok n0 /\
    getUint32 buf 28 = Ok n1 /\
    getUint32 buf 32 = Ok n2 /\
    forall off, 0 <= off < 60 ->
      (forall row,
         row ∈ Pcp.pcpMatrix ipOctets intPort extPort lifetime (n0, n1, n2) ->
         ~ rowCovers row off) ->
      byteAt buf off = 0.
Proof.
  intros Hi He Hl H0 H1 H2.
  destruct (Pcp.pcpBuffer ipOctets intPort extPort lifetime (n0, n1, n2))
    as [buf|e] eqn:Hbuf; [|by rewrite pcpBuffer_bytes in Hbuf].
  exists buf. split; [reflexivity|].
  destruct (createArrayBuffer_untouched _ _ _ Hbuf) as [Hlen Hzero].
  split; [exact Hlen|].
  rewrite pcpBuffer_bytes in Hbuf. injection Hbuf as <-.
  unfold getUint16, getUint32, inRange, byteAt. simpl.
  rewrite !be16_roundtrip, !be32_roundtrip by assumption.
  repeat (split; [reflexivity|]).
  intros off Hoff Hnc. apply (Hzero off); [lia | exact Hnc].
Qed.

(** An instance: intPort 4000, extPort 4001, lifetime 300, nonce (7, 8, 9). *)
Lemma pcp_request_roundtrip_witness :
  exists buf,
    Pcp.pcpBuffer [192; 168; 1; 42] 4000 4001 300 (7, 8, 9) = Ok buf /\
    length buf = 60%nat /\
    getUint16 buf 40 = Ok 4000 /\
    getUint16 buf 42 = Ok 4001 /\
    getUint32 buf 4 = Ok 300 /\
    getUint32 buf 24 = Ok 7 /\
    getUint32 buf 28 = Ok 8 /\
    getUint32 buf 32 = Ok 9 /\
    forall off, 0 <= off < 60 ->
      (forall row,
         row ∈ Pcp.pcpMatrix [192; 168; 1; 42] 4000 4001 300 (7, 8, 9) ->
         ~ rowCovers row off) ->
      byteAt buf off = 0.
Proof. apply (pcp_request_roundtrip [192; 168; 1; 42] 4000 4001 300 7 8 9); lia. Defined.

End PcpCodec.

(** ** arrAdd, arrDiff and the candidate waves *)

Module Waves.
Import Utils.

Section ArrayFacts.
Context {A : Type} `{EqDecision A}.
Implicit Types l acc : list A.

Lemma includes_true l x : includes l x = true <-> x ∈ l.
  Proof. unfold includes. by rewrite bool_decide_eq_true. Qed.

Lemma includes_false l x : includes l x = false <-> x ∉ l.
  Proof. unfold includes. by rewrite bool_decide_eq_false. Qed.

Lemma filter_id (P : A -> Prop) `{!forall x, Decision (P x)} l :
    (forall x, x ∈ l -> P x) -> filter P l = l.
  Proof.
    induction l as [|y l IH]; intros HP; [done|].
    rewrite filter_cons_True by (apply HP; left).
    f_equal. apply IH. intros x Hx. apply HP. by right.
  Qed.

Lemma elem_of_firstOccurrences l x : x ∈ firstOccurrences l <-> x ∈ l.
  Proof.
    induction l as [|y l IH]; simpl; [done|].
    rewrite !elem_of_cons, list_elem_of_filter, IH.
    destruct (decide (x = y)); naive_solver.
  Qed.

Lemma NoDup_firstOccurrences l : NoDup (firstOccurrences l).
  Proof.
    induction l as [|y l IH]; simpl; [constructor|].
    constructor.
    - rewrite list_elem_of_filter. naive_solver.
    - by apply NoDup_filter.
  Qed.

(** The accumulating loop of arrAdd. *)
Lemma arrAdd_loop l : forall acc,
    fold_left (fun sum val => if includes sum val then sum else sum ++ [val]) l acc
    = acc ++ filter (fun y => y ∉ acc) (firstOccurrences l).
  Proof.
    induction l as [|x l IH]; intros acc; simpl.
    - by rewrite app_nil_r.
    - rewrite IH. destruct (includes acc x) eqn:E.
      + apply includes_true in E.
        rewrite filter_cons_False by naive_solver.
        rewrite list_filter_filter. f_equal.
        apply list_filter_iff. intros y. naive_solver.
      + apply includes_false in E.
        rewrite filter_cons_True by done.
        rewrite <- app_assoc. simpl. do 2 f_equal.
        rewrite list_filter_filter.
        apply list_filter_iff. intros y.
        rewrite not_elem_of_app, list_elem_of_singleton. naive_solver.
  Qed.

Lemma arrAdd_firstOccurrences (listA listB : list A) :
    arrAdd listA listB = firstOccurrences (listA ++ listB).
  Proof.
    unfold arrAdd. rewrite arrAdd_loop. simpl.
    apply filter_id. intros y _. apply not_elem_of_nil.
  Qed.

Lemma arrDiff_filter (listA listB : list A) :
    arrDiff listA listB = filter (fun val => val ∉ listB) listA.
  Proof.
    unfold arrDiff. apply list_filter_iff. intros y. apply includes_false.
  Qed.

Lemma firstOccurrences_app l1 l2 :
    firstOccurrences (l1 ++ l2)
    = firstOccurrences l1 ++ filter (fun y => y ∉ l1) (firstOccurrences l2).
  Proof.
    induction l1 as [|x l1 IH]; simpl.
    - symmetry. apply filter_id. intros y _. apply not_elem_of_nil.
    - f_equal. rewrite IH, filter_app, list_filter_filter. f_equal.
      apply list_filter_iff. intros y. rewrite not_elem_of_cons. naive_solver.
  Qed.

Lemma firstOccurrences_NoDup l : NoDup l -> firstOccurrences l = l.
  Proof.
    induction 1 as [|x l Hx Hl IH]; simpl; [done|].
    rewrite IH. f_equal. apply filter_id. intros y Hy ->. done.
  Qed.
End ArrayFacts.

(** *** Parsing never fails on the addresses the host gathered *)

Lemma IPv4_parse_valid s :
  IPv4_isValid s = true -> exists octets, IPv4_parse s = Ok octets.
Proof.
  unfold IPv4_isValid, IPv4_parse. destruct (IPv4_octets s); [eauto | discriminate].
Qed.

Lemma prefixMatchesOf_ok ipList : forall matchIp acc,
  Forall (fun s => IPv4_isValid s = true) ipList ->
  exists prefixMatches, prefixMatchesOf ipList matchIp acc = Ok prefixMatches.
Proof.
  induction ipList as [|v rest IH]; intros matchIp acc Hall; simpl; [eauto|].
  inversion Hall as [|? ? Hv Hrest]; subst.
  destruct (IPv4_parse_valid v Hv) as [ip ->]. by apply IH.
Qed.

Lemma longestPrefixMatch_ok ipList matchIp :
  Forall (fun s => IPv4_isValid s = true) ipList ->
  IPv4_isValid matchIp = true ->
  exists r, longestPrefixMatch ipList matchIp = Ok r.
Proof.
  intros Hall Hm. unfold longestPrefixMatch.
  destruct (IPv4_parse_valid matchIp Hm) as [t ->]. simpl.
  destruct (prefixMatchesOf_ok ipList t [] Hall) as [pm ->]. simpl. eauto.
Qed.

Lemma ROUTER_IPS_valid : Forall (fun s => IPv4_isValid s = true) ROUTER_IPS.
Proof. repeat constructor. Qed.

Lemma filterRouterIps_ok privateIps :
  Forall (fun s => IPv4_isValid s = true) privateIps ->
  exists lpms,
    filterRouterIps privateIps = Ok lpms /\
    Forall2 (fun ip r => longestPrefixMatch ROUTER_IPS ip = Ok r) privateIps lpms.
Proof.
  induction 1 as [|ip rest Hip Hrest IH]; simpl.
  - exists []. split; [done | constructor].
  - destruct (longestPrefixMatch_ok ROUTER_IPS ip ROUTER_IPS_valid Hip) as [r Hr].
    destruct IH as (lpms & -> & Hall). rewrite Hr. simpl.
    exists (r :: lpms). split; [done | by constructor].
Qed.

Lemma gatheredIps_valid env :
  Forall (fun s => IPv4_isValid s = true) (gatheredIps env).
Proof.
  unfold gatheredIps.
  assert (forall l acc, Forall (fun s => IPv4_isValid s = true) acc ->
            Forall (fun s => IPv4_isValid s = true)
              (fold_left (fun privateIps privateIp =>
                 if IPv4_isValid privateIp then
                   if indexOf privateIps privateIp =? -1
                   then privateIps ++ [privateIp] else privateIps
                 else privateIps) l acc)) as Hgen.
  { induction l as [|c l IH]; intros acc Hacc; simpl; [done|].
    apply IH. destruct (IPv4_isValid c) eqn:Ec; [|done].
    destruct (_ =? _); [|done].
    apply Forall_app. split; [done | by constructor]. }
  apply Hgen. constructor.
Qed.

End Waves.

(** ** longestPrefixMatch *)

Module PrefixMatch.
Import Utils.

Lemma matchCIDR_refl octets : forall partSize cidrBits,
  matchCIDR octets octets partSize cidrBits = true.
Proof.
  induction octets as [|o rest IH]; intros partSize cidrBits; simpl; [done|].
  destruct (cidrBits <=? 0); [done|]. by rewrite Z.eqb_refl.
Qed.

Lemma find_all_false {A} (f : A -> bool) l :
  (forall x, f x = false) -> find f l = None.
Proof. intros Hf. induction l as [|x l IH]; simpl; [done|]. by rewrite Hf. Qed.

(** For the target's own address the loop runs through all 31 masks and
    pushes nothing. *)
Lemma prefixPush_self octets : prefixPush octets octets = None.
Proof.
  unfold prefixPush. rewrite find_all_false; [done|].
  intros mask. unfold IPv4_match. by rewrite matchCIDR_refl.
Qed.

(** A list holding only the target yields undefined. *)
Lemma longestPrefixMatch_singleton_self ip :
  IPv4_isValid ip = true -> longestPrefixMatch [ip] ip = Ok None.
Proof.
  intros Hv. unfold longestPrefixMatch.
  destruct (Waves.IPv4_parse_valid ip Hv) as [octets Hp].
  rewrite Hp. cbn. rewrite Hp, prefixPush_self. reflexivity.
Qed.

Lemma prefixMatchesOf_length ipList : forall matchIp acc prefixMatches,
  prefixMatchesOf ipList matchIp acc = Ok prefixMatches ->
  (length acc <= length prefixMatches <= length acc + length ipList)%nat.
Proof.
  induction ipList as [|v rest IH]; intros matchIp acc pm H; simpl in H.
  - injection H as <-. simpl. lia.
  - destruct (IPv4_parse v) as [ip|e]; [|discriminate].
    apply IH in H. destruct (prefixPush ip matchIp);
      rewrite ?length_app in H; simpl in *; lia.
Qed.

(** An entry for which the loop pushes makes [prefixMatches] grow. *)
Lemma prefixMatchesOf_grows ipList : forall matchIp acc prefixMatches v ip n,
  prefixMatchesOf ipList matchIp acc = Ok prefixMatches ->
  v ∈ ipList -> IPv4_parse v = Ok ip -> prefixPush ip matchIp = Some n ->
  (length acc < length prefixMatches)%nat.
Proof.
  induction ipList as [|x rest IH]; intros matchIp acc pm v ip n H Hin Hp Hn.
  - by apply elem_of_nil in Hin.
  - simpl in H. apply elem_of_cons in Hin as [<-|Hin].
    + rewrite Hp, Hn in H. apply prefixMatchesOf_length in H.
      rewrite length_app in H. simpl in H. lia.
    + destruct (IPv4_parse x) as [ipx|e]; [|discriminate].
      pose proof (IH _ _ _ _ _ _ H Hin Hp Hn) as Hlt.
      destruct (prefixPush ipx matchIp); rewrite ?length_app in Hlt; simpl in *; lia.
Qed.

Lemma fold_max_elem rest : forall x, fold_left Z.max rest x ∈ x :: rest.
Proof.
  induction rest as [|y rest IH]; intros x; simpl; [left|].
  specialize (IH (Z.max x y)). apply elem_of_cons in IH as [->|IH].
  - destruct (Z.max_spec x y) as [[_ ->]|[_ ->]]; [right; left | left].
  - right. by right.
Qed.

Lemma Math_max_elem l m : Math_max l = Some m -> m ∈ l.
Proof.
  destruct l as [|x rest]; simpl; [discriminate|].
  intros [= <-]. apply fold_max_elem.
Qed.

Lemma indexOf_elem (l : list Z) x : x ∈ l -> 0 <= indexOf l x < Z.of_nat (length l).
Proof.
  induction l as [|y l IH]; intros Hin; [by apply elem_of_nil in Hin|].
  simpl indexOf. destruct (decide (y = x)); [simpl; lia|].
  apply elem_of_cons in Hin as [->|Hin]; [done|].
  specialize (IH Hin). destruct (indexOf l x =? -1) eqn:E.
  - apply Z.eqb_eq in E. lia.
  - simpl length. lia.
Qed.

(** Whenever the loop pushes for at least one entry, the result is a
    member of the list. *)
Lemma longestPrefixMatch_member ipList matchIp matchIp' v ip n :
  IPv4_parse matchIp = Ok matchIp' ->
  Forall (fun s => IPv4_isValid s = true) ipList ->
  v ∈ ipList -> IPv4_parse v = Ok ip -> prefixPush ip matchIp' = Some n ->
  exists s, longestPrefixMatch ipList matchIp = Ok (Some s) /\ s ∈ ipList.
Proof.
  intros Hm Hall Hin Hp Hn. unfold longestPrefixMatch. rewrite Hm. cbn [mbind Result_bind].
  destruct (Waves.prefixMatchesOf_ok ipList matchIp' [] Hall) as [pm Hpm].
  rewrite Hpm. cbn [mbind Result_bind].
  pose proof (prefixMatchesOf_grows _ _ _ _ _ _ _ Hpm Hin Hp Hn) as Hgrow.
  pose proof (prefixMatchesOf_length _ _ _ _ Hpm) as Hlen. simpl in Hgrow, Hlen.
  destruct (Math_max pm) as [m|] eqn:Emax;
    [|destruct pm; [simpl in Hgrow; lia | discriminate]].
  pose proof (indexOf_elem pm m (Math_max_elem _ _ Emax)) as Hidx.
  unfold arrayGet. destruct (0 <=? indexOf pm m) eqn:E0;
    [|apply Z.leb_gt in E0; lia].
  destruct (ipList !! Z.to_nat (indexOf pm m)) as [s|] eqn:Es.
  - exists s. split; [done|]. by eapply list_elem_of_lookup_2.
  - apply lookup_ge_None in Es. lia.
Qed.

Lemma IPv4_octets_shape s octets :
  IPv4_octets s = Some octets -> exists a b c d, octets = [a; b; c; d].
Proof.
  unfold IPv4_octets.
  destruct (splitDots s []) as [|p1 [|p2 [|p3 [|p4 [|]]]]]; try discriminate.
  destruct (parseOctet p1), (parseOctet p2), (parseOctet p3), (parseOctet p4);
    try discriminate.
  intros [= <-]. eauto.
Qed.

(** Two addresses that differ in their first bit fail the match at mask 1:
    the loop pushes 0. *)
Lemma prefixPush_first_bit o0 orest a rest :
  Z.shiftr o0 7 ≠ Z.shiftr a 7 -> prefixPush (o0 :: orest) (a :: rest) = Some 0.
Proof.
  intros Hne. unfold prefixPush.
  change (seqZ 1 31) with (1 :: seqZ 2 30). cbn [find].
  unfold IPv4_match. cbn [matchCIDR].
  change (1 <=? 0) with false. change (Z.max 0 (8 - 1)) with 7. cbv iota.
  destruct (Z.eqb_spec (Z.shiftr o0 7) (Z.shiftr a 7)); [done|]. reflexivity.
Qed.

(** ROUTER_IPS holds addresses on both sides of the first bit, so for
    every valid address the match is one of its entries. *)
Lemma longestPrefixMatch_ROUTER_IPS ip :
  IPv4_isValid ip = true ->
  exists s, longestPrefixMatch ROUTER_IPS ip = Ok (Some s) /\ s ∈ ROUTER_IPS.
Proof.
  intros Hv. unfold IPv4_isValid in Hv.
  destruct (IPv4_octets ip) as [octets|] eqn:Eo; [|discriminate].
  destruct (IPv4_octets_shape _ _ Eo) as (a & b & c & d & ->).
  assert (IPv4_parse ip = Ok [a; b; c; d]) as Hp by (unfold IPv4_parse; by rewrite Eo).
  destruct (decide (Z.shiftr a 7 = 1)) as [Ha|Ha].
  - apply (longestPrefixMatch_member ROUTER_IPS ip [a; b; c; d]
             "10.0.1.1"%string [10; 0; 1; 1] 0 Hp Waves.ROUTER_IPS_valid).
    + apply list_elem_of_In. vm_compute. tauto.
    + vm_compute. reflexivity.
    + apply prefixPush_first_bit. rewrite Ha. vm_compute. discriminate.
  - apply (longestPrefixMatch_member ROUTER_IPS ip [a; b; c; d]
             "192.168.1.1"%string [192; 168; 1; 1] 0 Hp Waves.ROUTER_IPS_valid).
    + apply list_elem_of_In. vm_compute. tauto.
    + vm_compute. reflexivity.
    + apply prefixPush_first_bit. change (Z.shiftr 192 7) with 1. congruence.
Qed.

(** C3 fails on the code.  With the list ["10.0.0.1", "192.168.1.1"] and
    the target "192.168.1.1", which is an element of the list,
    longestPrefixMatch returns "10.0.0.1"; with the one-element list
    ["192.168.1.1"] it returns undefined, which is no member of the list;
    and from ROUTER_IPS the target "10.0.0.2" gets "10.0.0.13". *)
Theorem longestPrefixMatch_misses_target :
  longestPrefixMatch ["10.0.0.1"; "192.168.1.1"]%string "192.168.1.1" = Ok (Some "10.0.0.1"%string) /\
  longestPrefixMatch ["192.168.1.1"]%string "192.168.1.1" = Ok None /\
  "10.0.0.2"%string ∈ ROUTER_IPS /\
  longestPrefixMatch ROUTER_IPS "10.0.0.2" = Ok (Some "10.0.0.13"%string).
Proof.
  split; [vm_compute; reflexivity|]. split; [vm_compute; reflexivity|].
  split; [|vm_compute; reflexivity].
  apply list_elem_of_In. vm_compute. tauto.
Qed.

End PrefixMatch.

(** ** What the PCP client sends *)

Module Traffic.
Import Utils.

Lemma sentOnlyTo_refl w routerIps : sentOnlyTo w w routerIps.
Proof. exists []. split; [by rewrite app_nil_r | by intros d Hd%elem_of_nil]. Qed.

Lemma sentOnlyTo_same w w' routerIps :
  sent w' = sent w -> sentOnlyTo w w' routerIps.
Proof. intros H. exists []. split; [by rewrite app_nil_r | by intros d Hd%elem_of_nil]. Qed.

Lemma sentOnlyTo_trans w1 w2 w3 l1 l2 l :
  sentOnlyTo w1 w2 l1 -> sentOnlyTo w2 w3 l2 ->
  (forall x, x ∈ l1 -> x ∈ l) -> (forall x, x ∈ l2 -> x ∈ l) ->
  sentOnlyTo w1 w3 l.
Proof.
  intros (e1 & H1 & F1) (e2 & H2 & F2) S1 S2. exists (e1 ++ e2). split.
  - by rewrite H2, H1, app_assoc.
  - intros d [Hd|Hd]%elem_of_app; eauto.
Qed.

Lemma randInt_sent env a b w : sent (run (randInt env a b) w).2 = sent w.
Proof. reflexivity. Qed.

Lemma sendPcpRequest_sent env r privateIp intPort extPort lifetime nonce w :
  sentOnlyTo w (run (Pcp.sendPcpRequest env r privateIp intPort extPort lifetime nonce) w).2
             [Some r].
Proof.
  unfold Pcp.sendPcpRequest. rewrite run_bind.
  set (p := match nonce with Some n => mret n | None => _ end).
  assert (exists n w1, run p w = (Ok n, w1) /\ sent w1 = sent w) as (n & w1 & -> & Hs1).
  { subst p. destruct nonce as [n|]; [by exists n, w|]. simpl. eauto. }
  rewrite run_bind.
  destruct privateIp as [ip|]; cbn [run reject liftResult];
    [|by apply sentOnlyTo_same].
  destruct (IPv4_parse ip) as [octets|e]; cbn [run]; [|by apply sentOnlyTo_same].
  destruct (Pcp.pcpBuffer octets intPort extPort lifetime n) as [buffer|e];
    cbn [run mret Promise_ret snd]; [|by apply sentOnlyTo_same].
  exists [(r, 5351, buffer)]. split; [by cbn; rewrite Hs1|].
  intros d ->%list_elem_of_singleton. simpl. apply list_elem_of_singleton. done.
Qed.

Lemma requestFrom_sent env intPort extPort lifetime privateIps routerIp w :
  sentOnlyTo w (run (Pcp.requestFrom env intPort extPort lifetime privateIps routerIp) w).2
             [routerIp].
Proof.
  unfold Pcp.requestFrom. destruct routerIp as [r|]; [|apply sentOnlyTo_refl].
  rewrite run_bind. cbn [run liftResult].
  destruct (longestPrefixMatch privateIps r) as [privateIp|e]; [|apply sentOnlyTo_refl].
  rewrite run_bind.
  pose proof (sendPcpRequest_sent env r privateIp intPort extPort
                (Pcp.reqLifetime lifetime) None w) as Hs.
  destruct (run (Pcp.sendPcpRequest _ _ _ _ _ _ _) w) as [[resp|e] w1]; exact Hs.
Qed.

Lemma promiseAllMap_sent {B} (f : option string -> Promise B) :
  (forall x w, sentOnlyTo w (run (f x) w).2 [x]) ->
  forall l w, sentOnlyTo w (run (promiseAllMap f l) w).2 l.
Proof.
  intros Hf. induction l as [|x l IH]; intros w; simpl promiseAllMap.
  - apply sentOnlyTo_refl.
  - rewrite run_bind. specialize (Hf x w).
    destruct (run (f x) w) as [[y|e] w1]; simpl in Hf.
    + rewrite run_bind. specialize (IH w1).
      destruct (run (promiseAllMap f l) w1) as [[ys|e] w2]; simpl in IH |- *;
        (eapply sentOnlyTo_trans; [exact Hf | exact IH | |]);
        intros z Hz; [apply list_elem_of_singleton in Hz as ->; left | by right
                     |apply list_elem_of_singleton in Hz as ->; left | by right].
    + simpl. eapply sentOnlyTo_trans; [exact Hf | apply sentOnlyTo_refl | |];
        intros z Hz; [apply list_elem_of_singleton in Hz as ->; left | exact Hz].
Qed.

Lemma _sendPcpRequests_sent env intPort extPort lifetime cacheArg routerIps mapping w :
  sentOnlyTo w
    (run (Pcp._sendPcpRequests env intPort extPort lifetime cacheArg routerIps mapping) w).2
    routerIps.
Proof.
  unfold Pcp._sendPcpRequests. cbn [run]. rewrite run_bind, run_getPrivateIps.
  destruct (0 <? _); [|apply sentOnlyTo_refl].
  pose proof (promiseAllMap_sent _
    (requestFrom_sent env intPort extPort lifetime (gatheredIps env)) routerIps w) as Hs.
  destruct (run (promiseAllMap _ routerIps) w) as [[responses|e] w1]; [|exact Hs].
  destruct (forEach _ responses _) as [[m c] err]. exact Hs.
Qed.

End Traffic.

Module WaveStrategy.
Import Utils Waves Traffic.

(** The routers filterRouterIps picks are entries of ROUTER_IPS. *)
Lemma filterRouterIps_members privateIps lpms :
  Forall (fun s => IPv4_isValid s = true) privateIps ->
  Forall2 (fun ip r => longestPrefixMatch ROUTER_IPS ip = Ok r) privateIps lpms ->
  Forall (fun r => exists s, r = Some s /\ s ∈ ROUTER_IPS) lpms.
Proof.
  intros Hvalid Hall. induction Hall as [|ip r ips rs Hr Hrest IH]; [constructor|].
  inversion Hvalid as [|? ? Hip Hips]; subst. constructor; [|by apply IH].
  destruct (PrefixMatch.longestPrefixMatch_ROUTER_IPS ip Hip) as (s & Hs & Hin).
  exists s. split; [congruence | done].
Qed.

Lemma _sendPcpRequests_resolves env intPort extPort lifetime cacheArg routerIps mapping w :
  exists m w',
    run (Pcp._sendPcpRequests env intPort extPort lifetime cacheArg routerIps mapping) w
    = (Ok m, w').
Proof.
  unfold Pcp._sendPcpRequests. cbn [run].
  destruct (run _ w) as [[responses|e] w1]; [|eauto].
  destruct (forEach _ responses _) as [[m c] err]. eauto.
Qed.

(** From the router-IP cache and the local IPs the host gathered, the
    PCP client takes as first wave the cache entries followed by
    longestPrefixMatch(ROUTER_IPS, ip) for each local IP (each an entry of
    ROUTER_IPS), duplicates removed with the first occurrence kept (so the
    cache entries come first); the second wave is ROUTER_IPS without the members of the first
    wave; the first wave's requests go to first-wave routers only, and the
    second wave is run exactly when the first wave left externalPort at -1. *)
Lemma candidate_waves env intPort extPort lifetime mapping w :
  gatheredIps env ≠ [] ->
  exists lpms matched m1 w1,
    Forall2 (fun ip r => longestPrefixMatch ROUTER_IPS ip = Ok r) (gatheredIps env) lpms /\
    Forall (fun r => exists s, r = Some s /\ s ∈ ROUTER_IPS) lpms /\
    Pcp.matchedRouterIps (routerIpCache w) (gatheredIps env) = Ok matched /\
    matched = firstOccurrences ((Some <$> routerIpCache w) ++ lpms) /\
    NoDup matched /\
    (exists rest, matched = firstOccurrences (Some <$> routerIpCache w) ++ rest) /\
    Pcp.otherRouterIps matched = filter (fun r => r ∉ matched) (Some <$> ROUTER_IPS) /\
    run (Pcp._sendPcpRequests env intPort extPort lifetime CacheRef matched mapping) w
      = (Ok m1, w1) /\
    sentOnlyTo w w1 matched /\
    run (Pcp._sendPcpRequestsInWaves env intPort extPort lifetime CacheRef mapping) w
      = (if bool_decide (externalPort m1 ≠ -1) then (Ok m1, w1)
         else run (Pcp._sendPcpRequests env intPort extPort lifetime CacheRef
                     (Pcp.otherRouterIps matched) m1) w1).
Proof.
  intros Hne.
  destruct (filterRouterIps_ok _ (gatheredIps_valid env)) as (lpms & Hf & Hall).
  set (matched := firstOccurrences ((Some <$> routerIpCache w) ++ lpms)).
  assert (Pcp.matchedRouterIps (routerIpCache w) (gatheredIps env) = Ok matched) as Hm.
  { unfold Pcp.matchedRouterIps. rewrite Hf. cbn. by rewrite arrAdd_firstOccurrences. }
  destruct (_sendPcpRequests_resolves env intPort extPort lifetime CacheRef
              matched mapping w) as (m1 & w1 & Hrun).
  exists lpms, matched, m1, w1.
  split; [exact Hall|].
  split; [exact (filterRouterIps_members _ _ (gatheredIps_valid env) Hall)|].
  split; [exact Hm|]. split; [reflexivity|].
  split; [apply NoDup_firstOccurrences|].
  split; [subst matched; rewrite firstOccurrences_app; eauto|].
  split; [apply arrDiff_filter|].
  split; [exact Hrun|].
  split.
  { pose proof (_sendPcpRequests_sent env intPort extPort lifetime CacheRef
                  matched mapping w) as Hs.
    by rewrite Hrun in Hs. }
  unfold Pcp._sendPcpRequestsInWaves.
  rewrite run_bind, run_getPrivateIps.
  assert ((0 <? Z.of_nat (length (gatheredIps env))) = true) as ->.
  { apply Z.ltb_lt. destruct (gatheredIps env); [done | simpl; lia]. }
  rewrite run_bind. cbn [run]. rewrite Hm.
  rewrite run_bind, Hrun.
  by destruct (bool_decide (externalPort m1 ≠ -1)).
Qed.

(** The host 192.168.1.42 with an empty cache: the first wave is
    [192.168.1.1] and the router there answers, so no second wave runs. *)
Lemma candidate_waves_witness :
  let env := Scenario.homeNetwork 0 8 120 4001 in
  let mapping := Scenario.freshPcpMapping 4000 in
  let w := newPortControl in
  exists lpms matched m1 w1,
    Forall2 (fun ip r => longestPrefixMatch ROUTER_IPS ip = Ok r) (gatheredIps env) lpms /\
    Forall (fun r => exists s, r = Some s /\ s ∈ ROUTER_IPS) lpms /\
    Pcp.matchedRouterIps (routerIpCache w) (gatheredIps env) = Ok matched /\
    matched = firstOccurrences ((Some <$> routerIpCache w) ++ lpms) /\
    NoDup matched /\
    (exists rest, matched = firstOccurrences (Some <$> routerIpCache w) ++ rest) /\
    Pcp.otherRouterIps matched = filter (fun r => r ∉ matched) (Some <$> ROUTER_IPS) /\
    run (Pcp._sendPcpRequests env 4000 4001 300 CacheRef matched mapping) w
      = (Ok m1, w1) /\
    sentOnlyTo w w1 matched /\
    run (Pcp._sendPcpRequestsInWaves env 4000 4001 300 CacheRef mapping) w
      = (if bool_decide (externalPort m1 ≠ -1) then (Ok m1, w1)
         else run (Pcp._sendPcpRequests env 4000 4001 300 CacheRef
                     (Pcp.otherRouterIps matched) m1) w1).
Proof.
  apply (candidate_waves (Scenario.homeNetwork 0 8 120 4001) 4000 4001 300
           (Scenario.freshPcpMapping 4000) newPortControl).
  vm_compute. discriminate.
Defined.

(** C8 fails on the code.  The host has the one local IP 10.0.0.3 and an
    empty router-IP cache.  Of ROUTER_IPS the entry 10.0.0.2 shares the
    longest prefix with it (31 bits, against 28 for 10.0.0.13), so the
    first wave of the claim is [10.0.0.2].  The code's first wave is
    [10.0.0.13], and 10.0.0.2 is left to the second wave. *)
Theorem first_wave_misses_longest_match :
  gatheredIps Scenario.tenNetwork = ["10.0.0.3"%string] /\
  "10.0.0.2"%string ∈ ROUTER_IPS /\
  spec_prefixLength [10; 0; 0; 2] [10; 0; 0; 3] = 31 /\
  spec_prefixLength [10; 0; 0; 13] [10; 0; 0; 3] = 28 /\
  spec_longestPrefixMatch ROUTER_IPS "10.0.0.3" = Some "10.0.0.2"%string /\
  firstOccurrences ((Some <$> []) ++ [spec_longestPrefixMatch ROUTER_IPS "10.0.0.3"])
    = [Some "10.0.0.2"%string] /\
  Pcp.matchedRouterIps [] (gatheredIps Scenario.tenNetwork)
    = Ok [Some "10.0.0.13"%string] /\
  Some "10.0.0.2"%string ∈ Pcp.otherRouterIps [Some "10.0.0.13"%string].
Proof.
  split; [vm_compute; reflexivity|].
  split; [apply list_elem_of_In; vm_compute; tauto|].
  split; [vm_compute; reflexivity|]. split; [vm_compute; reflexivity|].
  split; [vm_compute; reflexivity|]. split; [vm_compute; reflexivity|].
  split; [vm_compute; reflexivity|].
  apply list_elem_of_In. vm_compute. tauto.
Qed.

End WaveStrategy.

(** ** Timers armed by a successful add *)

Module Refresh.

(** The re-invocation a refresh timer makes leaves [routerIpCache] out:
    it rejects before any request is sent and changes nothing. *)
Lemma refresh_rejects env intPort extPort lifetime w :
  exists e, run (Pcp.addMapping env intPort extPort lifetime CacheUndefined) w = (Throw e, w).
Proof.
  unfold Pcp.addMapping, Pcp._sendPcpRequestsInWaves.
  rewrite !run_bind, run_getPrivateIps.
  destruct (0 <? _); [|eauto].
  rewrite run_bind. cbn [run].
  destruct (Utils.filterRouterIps (gatheredIps env)); cbn; eauto.
Qed.

(** After a successful add in which the router granted less than the
    requested lifetime, exactly one timer is armed; it fires after
    [granted] seconds and re-invokes addMapping for the granted external
    port with lifetime [requested - granted]. *)
Lemma short_lifetime_refresh intPort lifetime cacheArg mapping granted w :
  externalPort mapping ≠ -1 ->
  Mapping.lifetime mapping = Some granted ->
  0 <= granted < lifetime ->
  exists m2 w2,
    run (Pcp._saveAndRefreshMapping intPort lifetime cacheArg mapping) w = (Ok m2, w2) /\
    timers w2 = timers w ++ [mkTimer (nextTimeoutId w) (granted * 1000)
                               (RefreshPcp intPort (externalPort mapping)
                                           (lifetime - granted))] /\
    timeoutId m2 = Some (nextTimeoutId w) /\
    activeMappings w2 !! externalPort mapping = Some m2 /\
    forall env t, t ∈ timers w2 -> t ∉ timers w ->
      delayMs t = granted * 1000 /\
      Pcp.fire env t =
        (Pcp.addMapping env intPort (externalPort mapping) (lifetime - granted)
                        CacheUndefined ≫= fun _ => mret tt).
Proof.
  intros Hext Hl [Hg0 Hg].
  unfold Pcp._saveAndRefreshMapping. cbn [run].
  rewrite Hl. cbn [fmap option_fmap option_map Pcp.greaterThanZero default].
  rewrite bool_decide_eq_true_2 by exact Hext.
  assert (Pcp.reqLifetime lifetime = lifetime) as ->.
  { unfold Pcp.reqLifetime. destruct (lifetime =? 0) eqn:E; [|done].
    apply Z.eqb_eq in E. lia. }
  assert ((0 <? lifetime - granted) = true) as -> by (apply Z.ltb_lt; lia).
  cbn [andb setTimeout]. unfold Pcp.lifetimeMs. rewrite Hl.
  eexists _, _. split; [reflexivity|].
  cbn. split; [reflexivity|]. split; [reflexivity|].
  split; [apply lookup_insert_eq|].
  intros env t [Ht|Ht]%elem_of_app Hnew; [done|].
  apply list_elem_of_singleton in Ht as ->. split; reflexivity.
Qed.

(** Requested 300, granted 120: one timer at 120 s re-adding with lifetime 180. *)
Lemma short_lifetime_refresh_witness :
  exists m2 w2,
    run (Pcp._saveAndRefreshMapping 4000 300 CacheRef Scenario.granted120) newPortControl
      = (Ok m2, w2) /\
    timers w2 = [mkTimer 0 120000 (RefreshPcp 4000 4001 180)] /\
    timeoutId m2 = Some 0%nat /\
    activeMappings w2 !! 4001 = Some m2 /\
    forall env t, t ∈ timers w2 -> t ∉ timers newPortControl ->
      delayMs t = 120000 /\
      Pcp.fire env t =
        (Pcp.addMapping env 4000 4001 180 CacheUndefined ≫= fun _ => mret tt).
Proof.
  apply (short_lifetime_refresh 4000 300 CacheRef Scenario.granted120 120 newPortControl);
    [vm_compute; discriminate | reflexivity | lia].
Defined.

(** Scenario 3 of the specification from the add onwards: the caller asks
    for 300 seconds, the router at 192.168.1.1 grants 120; one timer is
    armed, at 120 s, re-adding port 4001 with lifetime 180. *)
Lemma short_lifetime_scenario :
  timers (run (Pcp.addMapping (Scenario.homeNetwork 0 8 120 4001) 4000 4001 300 CacheRef)
              newPortControl).2
  = [mkTimer 0 120000 (RefreshPcp 4000 4001 180)].
Proof. vm_compute. reflexivity. Qed.

(** C7 fails on the code.  The caller asks for 300 seconds on the home
    network and the router at 192.168.1.1 grants 120 for port 4001.  One
    timer is armed, for 120 s, bound to addMapping(4000, 4001, 180,
    activeMappings): the router-IP cache is missing from the bind.  When
    the timer fires, the call rejects with TypeError before a request is
    built: no datagram is sent, no timer is armed, and the PortControl is
    exactly as before, the entry still with its 120 seconds.  The same
    call with the router-IP cache passed does send the request for 180
    seconds to 192.168.1.1. *)
Theorem refresh_reissue_never_sent :
  let env := Scenario.homeNetwork 0 8 120 4001 in
  let r := run (Pcp.addMapping env 4000 4001 300 CacheRef) newPortControl in
  let t := mkTimer 0 120000 (RefreshPcp 4000 4001 180) in
  r.1 = Ok (mkMapping (Some "192.168.1.42"%string) (Some "203.0.113.5"%string)
                      (Some 4000) 4001 (Some 120) (Some pcp) (Some 0%nat)
                      (Some (7, 8, 9)) (Some (PcpDeleter 4001 CacheRef)) None) /\
  timers r.2 = [t] /\
  length (sent r.2) = 1%nat /\
  run (Pcp.fire env t) r.2 = (Throw TypeError, r.2) /\
  (exists request,
     sent (run (Pcp.addMapping env 4000 4001 180 CacheRef) r.2).2
       = sent r.2 ++ [("192.168.1.1"%string, 5351, request)] /\
     Utils.getUint32 request 4 = Ok 180 /\
     Utils.getUint16 request 42 = Ok 4001).
Proof.
  cbv zeta. split; [vm_compute; reflexivity|]. split; [vm_compute; reflexivity|].
  split; [vm_compute; reflexivity|]. split; [vm_compute; reflexivity|].
  exists [2; 1; 0; 0; 0; 0; 0; 180; 0; 0; 0; 0; 0; 0; 0; 0; 0; 0; 255; 255;
          192; 168; 1; 42; 0; 0; 0; 10; 0; 0; 0; 11; 0; 0; 0; 12; 17; 0; 0; 0;
          15; 160; 15; 161; 0; 0; 0; 0; 0; 0; 0; 0; 0; 0; 255; 255; 0; 0; 0; 0].
  split; [vm_compute; reflexivity|]. split; vm_compute; reflexivity.
Qed.

End Refresh.

(** ** The orchestrator *)

Module Orchestrator.

(** C10. deleteMapping on an external port without a registry entry
    resolves to false and leaves the whole PortControl as it was: no
    datagram is sent, and activeMappings, routerIpCache and
    protocolSupportCache are unchanged. *)
Theorem deleteMapping_absent env pmpDelete upnpDelete extPort w :
  activeMappings w !! extPort = None ->
  run (PortControl.deleteMapping env pmpDelete upnpDelete extPort) w = (Ok false, w).
Proof. intros H. unfold PortControl.deleteMapping. cbn [run]. by rewrite H. Qed.

Lemma deleteMapping_absent_witness :
  run (PortControl.deleteMapping (Scenario.homeNetwork 0 8 120 4001)
         Scenario.noDeleter Scenario.noDeleter 4000) newPortControl
  = (Ok false, newPortControl).
Proof.
  apply (deleteMapping_absent (Scenario.homeNetwork 0 8 120 4001)
           Scenario.noDeleter Scenario.noDeleter 4000 newPortControl).
  reflexivity.
Defined.

(** C2. close() calls [forEach] on the plain object [activeMappings]; the
    member is undefined, the call throws, and the promise rejects with
    TypeError before any deleteMapping is called: the PortControl is left
    exactly as it was, whatever the registry holds. *)
Theorem close_rejects env pmpDelete upnpDelete w :
  run (PortControl.close env pmpDelete upnpDelete) w = (Throw TypeError, w).
Proof.
  unfold PortControl.close. cbn [run].
  assert (PortControl.callMember "forEach"
            (fun extPort extPorts =>
               if bool_decide (is_Some (activeMappings w !! extPort))
               then extPorts ++ [extPort] else extPorts) = Throw TypeError) as ->
    by (vm_compute; reflexivity).
  reflexivity.
Qed.

(** With a mapping on port 4001 registered, close() deletes nothing. *)
Lemma close_keeps_registered_mapping :
  let w := Scenario.afterAdd 8 in
  is_Some (activeMappings w !! 4001) /\
  run (PortControl.close (Scenario.homeNetwork 0 8 120 4001)
         Scenario.noDeleter Scenario.noDeleter) w = (Throw TypeError, w).
Proof. split; [vm_compute; eauto | reflexivity]. Qed.

(** With the protocol-support cache unknown the protocols are tried in the
    order NAT-PMP, PCP, UPnP, each only after the one before has resolved
    with externalPort -1; a rejection ends the chain. *)
Lemma addMapping_fallback_order env pmpAdd upnpAdd intPort extPort lifetime w :
  support_natPmp (protocolSupportCache w) = None ->
  run (PortControl.addMapping env pmpAdd upnpAdd intPort extPort lifetime) w =
  match run (pmpAdd intPort extPort lifetime) w with
  | (Throw e, w1) => (Throw e, w1)
  | (Ok m1, w1) =>
      if bool_decide (externalPort m1 ≠ -1) then (Ok m1, w1)
      else match run (Pcp.addMapping env intPort extPort lifetime CacheRef) w1 with
           | (Throw e, w2) => (Throw e, w2)
           | (Ok m2, w2) =>
               if bool_decide (externalPort m2 ≠ -1) then (Ok m2, w2)
               else run (upnpAdd intPort extPort lifetime None) w2
           end
  end.
Proof.
  intros Hs. unfold PortControl.addMapping. cbn [run]. rewrite Hs.
  unfold PortControl.addMappingPmp, PortControl.addMappingPcp,
    PortControl.addMappingUpnp.
  rewrite run_bind. destruct (run (pmpAdd intPort extPort lifetime) w) as [[m1|e] w1];
    [|reflexivity].
  rewrite run_bind. destruct (bool_decide (externalPort m1 ≠ -1)) eqn:E1.
  - cbn [run mret Promise_ret]. by rewrite E1.
  - destruct (run (Pcp.addMapping env intPort extPort lifetime CacheRef) w1)
      as [[m2|e] w2]; [|reflexivity].
    by destruct (bool_decide (externalPort m2 ≠ -1)).
Qed.

(** C5. With the protocol-support cache unknown, NAT-PMP resolving with a
    failure Mapping and no local IPv4 address gathered, pcp.addMapping
    rejects, so addMapping rejects with it: UPnP is not tried and the
    caller gets no Mapping. *)
Theorem addMapping_rejects_without_local_ip
    env pmpAdd upnpAdd intPort extPort lifetime w m w' :
  support_natPmp (protocolSupportCache w) = None ->
  run (pmpAdd intPort extPort lifetime) w = (Ok m, w') ->
  externalPort m = -1 ->
  gatheredIps env = [] ->
  run (PortControl.addMapping env pmpAdd upnpAdd intPort extPort lifetime) w
  = (Throw (Error "getPrivateIps() failed"), w').
Proof.
  intros Hs Hp Hm Hg.
  unfold PortControl.addMapping. cbn [run]. rewrite Hs.
  unfold PortControl.addMappingPmp. rewrite run_bind, Hp, run_bind.
  rewrite bool_decide_eq_false_2 by (rewrite Hm; intros H; by apply H).
  unfold PortControl.addMappingPcp, Pcp.addMapping, Pcp._sendPcpRequestsInWaves.
  rewrite !run_bind, run_getPrivateIps, Hg. reflexivity.
Qed.

Lemma addMapping_rejects_without_local_ip_witness :
  run (PortControl.addMapping Scenario.noLocalIp Scenario.pmpNoRouter
         Scenario.upnpNoGateway 4000 4000 7200) newPortControl
  = (Throw (Error "getPrivateIps() failed"), newPortControl).
Proof.
  apply (addMapping_rejects_without_local_ip Scenario.noLocalIp Scenario.pmpNoRouter
           Scenario.upnpNoGateway 4000 4000 7200 newPortControl
           (mkMapping None None (Some 4000) (-1) None (Some natPmp) None None None None)
           newPortControl); reflexivity.
Defined.

End Orchestrator.

(** ** PCP add and delete against replying routers *)

Module PcpReplies.
Import Utils.

(** pcp.deleteMapping never resolves to true: the [return true] sits in
    the forEach callback, and the function itself returns false. *)
Lemma pcp_deleteMapping_false env extPort cacheArg w :
  (run (Pcp.deleteMapping env extPort cacheArg) w).1 = Ok false.
Proof.
  unfold Pcp.deleteMapping, catch. cbn [run]. rewrite run_bind.
  destruct (run (Pcp._sendDeletionRequestsInWaves env extPort cacheArg) w)
    as [[responses|e] w1]; [|reflexivity].
  unfold Pcp._deleteFromActiveMappings. cbn [run].
  by destruct (forEach _ responses w1) as [w2 [e|]].
Qed.

(** The test after the first deletion wave reads [externalPort] off the
    array of responses, which is undefined and so never equal to -1: the
    second wave is not sent, whatever the first wave brought. *)
Lemma deletion_asks_first_wave_only env extPort w privateIps matched :
  run (getPrivateIps env) w = (Ok privateIps, w) ->
  Pcp.matchedRouterIps (routerIpCache w) privateIps = Ok matched ->
  run (Pcp._sendDeletionRequestsInWaves env extPort CacheRef) w
  = run (Pcp._sendDeletionRequests env extPort matched) w.
Proof.
  intros Hg Hm. unfold Pcp._sendDeletionRequestsInWaves.
  rewrite run_bind, Hg, run_bind. cbn [run]. rewrite Hm, run_bind.
  by destruct (run (Pcp._sendDeletionRequests env extPort matched) w) as [[r|e] w1].
Qed.

(** C1 fails on the code.  A PCP mapping is registered under external
    port 4001 with nonce (7, 8, 9) and an armed refresh timer.
    deleteMapping(4001) sends the lifetime-0 MAP request with that nonce
    to 192.168.1.1; the router answers with result code 0 (first case) or
    8 (second case).  The entry is removed and the timer cancelled, yet
    the promise resolves to false. *)
Theorem pcp_delete_acknowledged_resolves_false pmpDelete upnpDelete :
  Forall (fun code =>
    let env := Scenario.homeNetwork 0 code 120 4001 in
    let w := Scenario.afterAdd code in
    let r := run (PortControl.deleteMapping env pmpDelete upnpDelete 4001) w in
    activeMappings w !! 4001
      = Some (mkMapping (Some "192.168.1.42"%string) (Some "203.0.113.5"%string)
                        (Some 4000) 4001 (Some 120) (Some pcp) (Some 0%nat)
                        (Some (7, 8, 9)) (Some (PcpDeleter 4001 CacheRef)) None) /\
    timers w = [mkTimer 0 120000 (RefreshPcp 4000 4001 180)] /\
    (exists request,
       last (sent r.2) = Some ("192.168.1.1"%string, 5351, request) /\
       getUint32 request 4 = Ok 0 /\
       (getUint32 request 24, getUint32 request 28, getUint32 request 32)
         = (Ok 7, Ok 8, Ok 9) /\
       Scenario.resultCodeOf (routerReply env "192.168.1.1" request) = Some code) /\
    r.1 = Ok false /\
    activeMappings r.2 !! 4001 = None /\
    timers r.2 = [])
  [0; 8].
Proof.
  constructor; [|constructor; [|constructor]].
  all: cbv zeta.
  all: split; [vm_compute; reflexivity|].
  all: split; [vm_compute; reflexivity|].
  all: split;
    [exists [2; 1; 0; 0; 0; 0; 0; 0; 0; 0; 0; 0; 0; 0; 0; 0; 0; 0; 255; 255;
             192; 168; 1; 42; 0; 0; 0; 7; 0; 0; 0; 8; 0; 0; 0; 9; 17; 0; 0; 0;
             15; 160; 0; 0; 0; 0; 0; 0; 0; 0; 0; 0; 0; 0; 255; 255; 0; 0; 0; 0];
     repeat split; vm_compute; reflexivity|].
  all: repeat split; vm_compute; reflexivity.
Qed.

(** C4 fails on the code.  The first wave is [192.168.0.1; 192.168.1.1];
    both routers answer with result code 0, the first granting port 5000
    and the second port 6000.  The Mapping returned carries the second
    (last) reply's external port, external IP, nonce and internal IP, and
    both routers are appended to the router-IP cache. *)
Theorem last_reply_in_wave_wins :
  let env := Scenario.twoRouters in
  let r := run (Pcp.addMapping env 4000 4000 120 CacheRef) newPortControl in
  Pcp.matchedRouterIps (routerIpCache newPortControl) (gatheredIps env)
    = Ok [Some "192.168.0.1"%string; Some "192.168.1.1"%string] /\
  (fun d => d.1.1) <$> sent r.2 = ["192.168.0.1"%string; "192.168.1.1"%string] /\
  Scenario.resultCodeOf ∘ Scenario.replyTo env <$> sent r.2 = [Some 0; Some 0] /\
  Scenario.externalPortOf ∘ Scenario.replyTo env <$> sent r.2 = [Some 5000; Some 6000] /\
  r.1 = Ok (mkMapping (Some "192.168.1.42"%string) (Some "198.51.100.9"%string)
                      (Some 4000) 6000 (Some 120) (Some pcp) None
                      (Some (10, 11, 12)) (Some (PcpDeleter 6000 CacheRef)) None) /\
  routerIpCache r.2 = ["192.168.0.1"%string; "192.168.1.1"%string] /\
  activeMappings r.2 !! 5000 = None.
Proof. repeat split; vm_compute; reflexivity. Qed.

End PcpReplies.

(** ** The result code of a reply *)

Module ResultCode.
Import Utils.

Lemma inRange_insert (data : list Z) i v off width :
  inRange (<[i:=v]> data) off width = inRange data off width.
Proof. unfold inRange. by rewrite length_insert. Qed.

Lemma byteAt_insert_ne (data : list Z) i v off :
  0 <= off -> Z.to_nat off ≠ i -> byteAt (<[i:=v]> data) off = byteAt data off.
Proof.
  intros Hoff Hne. unfold byteAt. rewrite !nth_lookup.
  by rewrite list_lookup_insert_ne.
Qed.

Lemma byteAt_insert_eq (data : list Z) i v :
  (i < length data)%nat -> byteAt (<[i:=v]> data) (Z.of_nat i) = v.
Proof.
  intros Hi. unfold byteAt. rewrite nth_lookup, Nat2Z.id.
  by rewrite list_lookup_insert_eq.
Qed.

Lemma byteAt_range (data : list Z) off :
  Forall (fun b => 0 <= b < 256) data -> 0 <= byteAt data off < 256.
Proof.
  intros Hall. unfold byteAt. rewrite nth_lookup.
  destruct (data !! Z.to_nat off) as [b|] eqn:E; simpl; [|lia].
  by eapply Forall_lookup_1 in Hall.
Qed.

Lemma inRange_true (data : list Z) off width :
  0 <= off -> off + width <= Z.of_nat (length data) -> inRange data off width = true.
Proof. intros. unfold inRange. apply andb_true_iff. split; by apply Z.leb_le. Qed.

(** pcp.addMapping reads offsets 4..7, 24..35, 42..43 and 56..59 of a
    reply and never offset 3: changing the result code changes nothing. *)
Lemma adoptResponse_ignores_result_code cacheArg routerIp data privateIp s code :
  Pcp.adoptResponse cacheArg (Some (routerIp, <[3%nat:=code]> data, privateIp)) s
  = Pcp.adoptResponse cacheArg (Some (routerIp, data, privateIp)) s.
Proof.
  unfold Pcp.adoptResponse. destruct s as [mapping cache].
  unfold getUint8, getUint16, getUint32.
  rewrite !inRange_insert, !byteAt_insert_ne by (simpl; lia).
  reflexivity.
Qed.

(** Without a reply the mapping and the cache stay as they are, and a
    mapping whose externalPort is -1 is neither given a timer nor
    registered. *)
Lemma add_without_reply intPort lifetime cacheArg mapping cache w :
  Pcp.adoptResponse cacheArg None (mapping, cache) = ((mapping, cache), None) /\
  (externalPort mapping = -1 ->
   run (Pcp._saveAndRefreshMapping intPort lifetime cacheArg mapping) w = (Ok mapping, w)).
Proof.
  split; [reflexivity|]. intros H.
  unfold Pcp._saveAndRefreshMapping. cbn [run].
  rewrite bool_decide_eq_false_2 by (rewrite H; intros Hn; by apply Hn).
  reflexivity.
Qed.

Lemma saveAndRefresh_registers intPort lifetime cacheArg mapping w :
  externalPort mapping ≠ -1 ->
  exists m2 w2,
    run (Pcp._saveAndRefreshMapping intPort lifetime cacheArg mapping) w = (Ok m2, w2) /\
    externalPort m2 = externalPort mapping /\
    activeMappings w2 !! externalPort mapping = Some m2.
Proof.
  intros H. unfold Pcp._saveAndRefreshMapping. cbn [run].
  rewrite bool_decide_eq_true_2 by exact H. cbn [andb].
  destruct (Pcp.greaterThanZero _); [|destruct (lifetime =? 0)];
    cbn; eexists _, _; (split; [reflexivity|]); (split; [reflexivity|]);
    apply lookup_insert_eq.
Qed.

(** C6 fails on the code.  The router at 192.168.1.1 refuses the add of
    port 4001 with result code 3.  pcp.addMapping adopts the reply all the
    same: the promise resolves with a Mapping whose externalPort is 4001,
    the Mapping is registered under 4001 and a refresh timer is armed.
    The delete path does read the result code: answered with code 3,
    deleteMapping(4001) leaves the entry and its timer in place. *)
Theorem refused_add_is_registered :
  let env := Scenario.homeNetwork 3 3 30 4001 in
  let r := run (Pcp.addMapping env 4000 4001 300 CacheRef) newPortControl in
  let d := run (Pcp.deleteMapping env 4001 CacheRef) r.2 in
  let m := mkMapping (Some "192.168.1.42"%string) (Some "203.0.113.5"%string)
                     (Some 4000) 4001 (Some 30) (Some pcp) (Some 0%nat)
                     (Some (7, 8, 9)) (Some (PcpDeleter 4001 CacheRef)) None in
  Scenario.resultCodeOf ∘ Scenario.replyTo env <$> sent r.2 = [Some 3] /\
  r.1 = Ok m /\
  activeMappings r.2 !! 4001 = Some m /\
  timers r.2 = [mkTimer 0 30000 (RefreshPcp 4000 4001 270)] /\
  Scenario.resultCodeOf ∘ Scenario.replyTo env <$> sent d.2 = [Some 3; Some 3] /\
  d.1 = Ok false /\
  activeMappings d.2 !! 4001 = Some m /\
  timers d.2 = timers r.2.
Proof. cbv zeta. repeat split; vm_compute; reflexivity. Qed.

(** Step by step: adoptResponse adopts a reply of at least 60 bytes
    whatever its byte 3 holds, and _saveAndRefreshMapping registers the
    Mapping under the external port read from offset 42; deleteOnSuccess
    removes the registry entry for a reply with code 0 or 8 and leaves it
    for any other code. *)
Lemma result_code_read_on_delete_only
    intPort lifetime routerIp data privateIp mapping cache w code extPort entry wd :
  (60 <= length data)%nat ->
  Forall (fun b => 0 <= b < 256) data ->
  activeMappings wd !! extPort = Some entry ->
  let reply := <[3%nat:=code]> data in
  (exists m1 cache1 m2 w2,
     Pcp.adoptResponse CacheRef (Some (routerIp, reply, privateIp)) (mapping, cache)
       = ((m1, cache1), None) /\
     getUint16 data 42 = Ok (externalPort m1) /\
     externalPort m1 ≠ -1 /\
     routerIp ∈ cache1 /\
     run (Pcp._saveAndRefreshMapping intPort lifetime CacheRef m1) w = (Ok m2, w2) /\
     externalPort m2 = externalPort m1 /\
     activeMappings w2 !! externalPort m1 = Some m2) /\
  activeMappings (Pcp.deleteOnSuccess extPort (Some reply) wd).1 !! extPort
    = if (code =? 0) || (code =? 8) then None else Some entry.
Proof.
  intros Hlen Hbytes Hentry reply. split.
  - subst reply. rewrite adoptResponse_ignores_result_code.
    unfold Pcp.adoptResponse, getUint8, getUint16, getUint32.
    rewrite !inRange_true by lia. cbn [mbind Result_bind].
    set (p := byteAt data 42 * 256 + byteAt data (42 + 1)).
    assert (p ≠ -1) as Hp.
    { subst p. pose proof (byteAt_range data 42 Hbytes).
      pose proof (byteAt_range data (42 + 1) Hbytes). lia. }
    match goal with
    | |- context [mkMapping ?a ?b ?c p ?d ?e ?f ?g ?h ?i] =>
        set (m1 := mkMapping a b c p d e f g h i)
    end.
    destruct (saveAndRefresh_registers intPort lifetime CacheRef m1 w Hp)
      as (m2 & w2 & Hrun & Hext & Hreg).
    destruct (indexOf cache routerIp =? -1) eqn:Ei.
    + exists m1, (cache ++ [routerIp]), m2, w2.
      repeat split; try done. apply elem_of_app. right. by apply list_elem_of_singleton.
    + exists m1, cache, m2, w2. repeat split; try done.
      clear -Ei. induction cache as [|x cache IH]; simpl in Ei; [done|].
      destruct (decide (x = routerIp)) as [->|Hne]; [left|right].
      apply IH. destruct (indexOf cache routerIp =? -1) eqn:E; [|done].
      discriminate.
  - unfold Pcp.deleteOnSuccess, getUint8. subst reply.
    rewrite inRange_true by (rewrite ?length_insert; lia).
    change 3 with (Z.of_nat 3). rewrite byteAt_insert_eq by lia.
    change (Z.of_nat 0) with 0.
    destruct ((code =? 0) || (code =? 8)); [|exact Hentry].
    rewrite Hentry. cbn. apply lookup_delete_eq.
Qed.

(** A reply with result code 3 to an add of port 4001 is adopted and
    registered; sent in answer to a deletion it leaves the entry. *)
Lemma result_code_read_on_delete_only_witness :
  let reply := <[3%nat:=3]> Scenario.sampleReply in
  (exists m1 cache1 m2 w2,
     Pcp.adoptResponse CacheRef
       (Some ("192.168.1.1"%string, reply, Some "192.168.1.42"%string))
       (Scenario.freshPcpMapping 4000, [])
       = ((m1, cache1), None) /\
     getUint16 Scenario.sampleReply 42 = Ok (externalPort m1) /\
     externalPort m1 ≠ -1 /\
     "192.168.1.1"%string ∈ cache1 /\
     run (Pcp._saveAndRefreshMapping 4000 300 CacheRef m1) newPortControl = (Ok m2, w2) /\
     externalPort m2 = externalPort m1 /\
     activeMappings w2 !! externalPort m1 = Some m2) /\
  activeMappings (Pcp.deleteOnSuccess 4001 (Some reply) (Scenario.afterAdd 8)).1 !! 4001
    = if (3 =? 0) || (3 =? 8) then None else Some Scenario.registered4001.
Proof.
  apply (result_code_read_on_delete_only 4000 300 "192.168.1.1"%string
           Scenario.sampleReply (Some "192.168.1.42"%string)
           (Scenario.freshPcpMapping 4000) [] newPortControl 3 4001
           Scenario.registered4001 (Scenario.afterAdd 8)).
  - vm_compute. lia.
  - apply (bool_decide_unpack _). vm_compute. exact I.
  - vm_compute. reflexivity.
Defined.

End ResultCode.

(** ** More on the byte-matrix codec and the string conversions *)

Module CodecMore.
Import Utils UtilsFacts.

Lemma isByte_mod v : isByte (v mod 256).
Proof. unfold isByte. apply Z.mod_pos_bound. lia. Qed.

Lemma setBytes_isByte buf off bs buf' :
  Forall isByte buf -> Forall isByte bs -> setBytes buf off bs = Ok buf' ->
  Forall isByte buf'.
Proof.
  unfold setBytes. intros Hbuf Hbs H. destruct (inRange _ _ _); [|discriminate].
  injection H as <-. rewrite !Forall_app. repeat split; [|done|].
  - by apply Forall_take.
  - by apply Forall_drop.
Qed.

Lemma applyRow_isByte buf row buf' :
  Forall isByte buf -> applyRow buf row = Ok buf' -> Forall isByte buf'.
Proof.
  destruct row as [[bits off] v]. unfold applyRow, setInt8, setInt16, setInt32.
  intros Hbuf H.
  repeat case_match; try (by injection H as <-);
    (eapply setBytes_isByte; [exact Hbuf | | exact H]);
    repeat constructor; apply isByte_mod.
Qed.

Lemma applyRows_isByte matrix : forall buf buf',
  Forall isByte buf -> applyRows buf matrix = Ok buf' -> Forall isByte buf'.
Proof.
  induction matrix as [|row rest IH]; simpl; intros buf buf' Hbuf H.
  - by injection H as <-.
  - destruct (applyRow buf row) as [b|] eqn:E; [|discriminate].
    eapply IH; [|exact H]. eauto using applyRow_isByte.
Qed.

Lemma applyRows_app pre : forall buf post,
  applyRows buf (pre ++ post) =
  match applyRows buf pre with
  | Ok buf1 => applyRows buf1 post
  | Throw e => Throw e
  end.
Proof.
  induction pre as [|row pre IH]; intros buf post; simpl; [done|].
  destruct (applyRow buf row); [apply IH | done].
Qed.

(** The bytes setBytes has written. *)
Lemma setBytes_inside buf off bs buf' i :
  setBytes buf off bs = Ok buf' -> (i < length bs)%nat ->
  byteAt buf' (off + Z.of_nat i) = nth i bs 0.
Proof.
  unfold setBytes, inRange, byteAt. intros H Hi.
  destruct (_ && _) eqn:E; [|discriminate].
  injection H as <-. apply andb_true_iff in E as [E1%Z.leb_le E2%Z.leb_le].
  rewrite !nth_lookup. f_equal.
  rewrite lookup_app_r by (rewrite length_take; lia).
  rewrite length_take.
  replace (Z.to_nat (off + Z.of_nat i) - Z.to_nat off `min` length buf)%nat with i by lia.
  by rewrite lookup_app_l.
Qed.

Lemma inRange_intro (data : list Z) off width :
  0 <= off -> off + width <= Z.of_nat (length data) -> inRange data off width = true.
Proof. intros. unfold inRange. apply andb_true_iff. split; by apply Z.leb_le. Qed.

Lemma be16_mod v : (v / 256) mod 256 * 256 + v mod 256 = v mod 65536.
Proof. Z.div_mod_to_equations. lia. Qed.

Lemma be32_mod v :
  (v / 16777216) mod 256 * 16777216 + (v / 65536) mod 256 * 65536
  + (v / 256) mod 256 * 256 + v mod 256 = v mod 4294967296.
Proof. Z.div_mod_to_equations. lia. Qed.

(** X1. createArrayBuffer(bytes, matrix), when it returns, gives a buffer
    of exactly [bytes] elements, each a byte, in which every offset that no
    row of width 8, 16 or 32 covers holds 0 (rows of another width write
    nothing). *)
Theorem createArrayBuffer_shape bytes matrix buf :
  0 <= bytes ->
  createArrayBuffer bytes matrix = Ok buf ->
  Z.of_nat (length buf) = bytes /\
  Forall isByte buf /\
  forall off, 0 <= off < bytes ->
    (forall row, row ∈ matrix -> ~ rowCovers row off) -> byteAt buf off = 0.
Proof.
  intros Hb H. destruct (createArrayBuffer_untouched _ _ _ H) as [Hlen Hzero].
  split; [lia|]. split.
  - unfold createArrayBuffer in H. destruct (bytes <? 0); [discriminate|].
    eapply applyRows_isByte; [|exact H].
    unfold new_ArrayBuffer. apply Forall_replicate. unfold isByte. lia.
  - intros off Hoff Hnc. apply Hzero; [lia | exact Hnc].
Qed.

Lemma createArrayBuffer_shape_witness :
  Z.of_nat (length [17; 0; 255; 255; 0; 0; 1; 44]) = 8 /\
  Forall isByte [17; 0; 255; 255; 0; 0; 1; 44] /\
  forall off, 0 <= off < 8 ->
    (forall row, row ∈ [(16, 2, 0xffff); (8, 0, 17); (24, 1, 5); (32, 4, 300)] ->
                 ~ rowCovers row off) ->
    byteAt [17; 0; 255; 255; 0; 0; 1; 44] off = 0.
Proof.
  apply (createArrayBuffer_shape 8 [(16, 2, 0xffff); (8, 0, 17); (24, 1, 5); (32, 4, 300)]
           [17; 0; 255; 255; 0; 0; 1; 44]); [lia | vm_compute; reflexivity].
Defined.

(** X2. A row [bits, byteOffset, value] of width 8, 16 or 32 that no
    later row overlaps reads back, big-endian and unsigned, as the value
    modulo 2^bits: values wrap around instead of being rejected. *)
Theorem createArrayBuffer_readback bytes pre post bits off v buf :
  createArrayBuffer bytes (pre ++ (bits, off, v) :: post) = Ok buf ->
  bits = 8 \/ bits = 16 \/ bits = 32 ->
  (forall row k, row ∈ post -> rowCovers (bits, off, v) k -> ~ rowCovers row k) ->
  readBack bits buf off = Ok (v mod 2 ^ bits).
Proof.
  unfold createArrayBuffer. destruct (bytes <? 0); [discriminate|].
  rewrite applyRows_app. intros H Hbits Hlater.
  destruct (applyRows (new_ArrayBuffer (Z.to_nat bytes)) pre) as [buf1|e]; [|discriminate].
  cbn [applyRows] in H.
  destruct (applyRow buf1 (bits, off, v)) as [buf2|e] eqn:Erow; [|discriminate].
  pose proof (applyRows_length _ _ _ H) as Hlen.
  assert (forall k, rowCovers (bits, off, v) k -> 0 <= k -> byteAt buf k = byteAt buf2 k)
    as Hkeep.
  { intros k Hk Hk0. eapply applyRows_outside; [exact H | exact Hk0 |].
    intros row Hrow. by apply Hlater. }
  unfold applyRow, setInt8, setInt16, setInt32 in Erow. unfold readBack.
  destruct Hbits as [->|[->| ->]]; simpl in Erow |- *.
  - pose proof (setBytes_inside _ _ _ _ 0 Erow ltac:(simpl; lia)) as B0.
    pose proof (setBytes_length _ _ _ _ Erow) as Hl2.
    unfold setBytes in Erow. destruct (inRange buf1 off _) eqn:Er; [|discriminate].
    apply andb_true_iff in Er as [E1%Z.leb_le E2%Z.leb_le]. simpl in E2.
    unfold getUint8. rewrite inRange_intro by lia.
    rewrite Hkeep by (unfold rowCovers; change (8 / 8) with 1; lia).
    rewrite Z.add_0_r in B0. rewrite B0. simpl.
    change (2 ^ 8) with 256. reflexivity.
  - pose proof (setBytes_inside _ _ _ _ 0 Erow ltac:(simpl; lia)) as B0.
    pose proof (setBytes_inside _ _ _ _ 1 Erow ltac:(simpl; lia)) as B1.
    pose proof (setBytes_length _ _ _ _ Erow) as Hl2.
    unfold setBytes in Erow. destruct (inRange buf1 off _) eqn:Er; [|discriminate].
    apply andb_true_iff in Er as [E1%Z.leb_le E2%Z.leb_le]. simpl in E2.
    unfold getUint16. rewrite inRange_intro by lia.
    rewrite !Hkeep by (unfold rowCovers; change (16 / 8) with 2; lia).
    rewrite Z.add_0_r in B0. change (Z.of_nat 1) with 1 in B1. rewrite B0, B1. simpl.
    rewrite be16_mod. reflexivity.
  - pose proof (setBytes_inside _ _ _ _ 0 Erow ltac:(simpl; lia)) as B0.
    pose proof (setBytes_inside _ _ _ _ 1 Erow ltac:(simpl; lia)) as B1.
    pose proof (setBytes_inside _ _ _ _ 2 Erow ltac:(simpl; lia)) as B2.
    pose proof (setBytes_inside _ _ _ _ 3 Erow ltac:(simpl; lia)) as B3.
    pose proof (setBytes_length _ _ _ _ Erow) as Hl2.
    unfold setBytes in Erow. destruct (inRange buf1 off _) eqn:Er; [|discriminate].
    apply andb_true_iff in Er as [E1%Z.leb_le E2%Z.leb_le]. simpl in E2.
    unfold getUint32. rewrite inRange_intro by lia.
    rewrite !Hkeep by (unfold rowCovers; change (32 / 8) with 4; lia).
    rewrite Z.add_0_r in B0. change (Z.of_nat 1) with 1 in B1.
    change (Z.of_nat 2) with 2 in B2. change (Z.of_nat 3) with 3 in B3.
    rewrite B0, B1, B2, B3. simpl.
    rewrite be32_mod. reflexivity.
Qed.

(** The value -1 written in 16 bits at offset 2 reads back as 65535. *)
Lemma createArrayBuffer_readback_witness :
  readBack 16 [17; 0; 255; 255; 0; 0; 1; 44] 2 = Ok ((-1) mod 2 ^ 16).
Proof.
  apply (createArrayBuffer_readback 8 [(8, 0, 17)] [(32, 4, 300)] 16 2 (-1)).
  - vm_compute. reflexivity.
  - right. left. reflexivity.
  - intros row k ->%list_elem_of_singleton. unfold rowCovers.
    change (16 / 8) with 2. change (32 / 8) with 4. lia.
Defined.

(** A negative size makes createArrayBuffer throw RangeError. *)
Lemma createArrayBuffer_negative_size bytes matrix :
  bytes < 0 -> createArrayBuffer bytes matrix = Throw RangeError.
Proof. intros Hb. unfold createArrayBuffer. by rewrite (proj2 (Z.ltb_lt bytes 0) Hb). Qed.

(** X3. A row of width 8, 16 or 32 that starts before the buffer or ends
    behind it makes createArrayBuffer throw RangeError, whatever follows;
    the rows before it have to be in range themselves (createArrayBuffer
    returns for them alone). *)
Theorem createArrayBuffer_out_of_range bytes pre bits off v post buf1 :
  createArrayBuffer bytes pre = Ok buf1 ->
  bits = 8 \/ bits = 16 \/ bits = 32 ->
  off < 0 \/ bytes < off + bits / 8 ->
  createArrayBuffer bytes (pre ++ (bits, off, v) :: post) = Throw RangeError.
Proof.
  unfold createArrayBuffer. destruct (bytes <? 0) eqn:Hb; [discriminate|].
  apply Z.ltb_ge in Hb. intros Hpre Hbits Hout.
  rewrite applyRows_app, Hpre. cbn [applyRows].
  pose proof (applyRows_length _ _ _ Hpre) as Hlen.
  unfold new_ArrayBuffer in Hlen. rewrite length_replicate in Hlen.
  assert (forall bs, Z.of_nat (length bs) = bits / 8 ->
            setBytes buf1 off bs = Throw RangeError) as Hset.
  { intros bs Hbs. unfold setBytes, inRange.
    destruct (0 <=? off) eqn:E0; [|reflexivity].
    apply Z.leb_le in E0.
    destruct (off + Z.of_nat (length bs) <=? Z.of_nat (length buf1)) eqn:E1;
      [|reflexivity].
    apply Z.leb_le in E1. lia. }
  unfold applyRow, setInt8, setInt16, setInt32.
  destruct Hbits as [->|[->| ->]]; simpl; rewrite Hset; reflexivity.
Qed.

(** A 32-bit row at offset 6 of an 8-byte buffer. *)
Lemma createArrayBuffer_out_of_range_witness :
  createArrayBuffer 8 ([(8, 0, 17)] ++ (32, 6, 300) :: [(8, 1, 1)]) = Throw RangeError.
Proof.
  apply (createArrayBuffer_out_of_range 8 [(8, 0, 17)] 32 6 300 [(8, 1, 1)]
           [17; 0; 0; 0; 0; 0; 0; 0]).
  - vm_compute. reflexivity.
  - right. right. reflexivity.
  - right. vm_compute. reflexivity.
Defined.

(** *** Strings and buffers *)

Lemma arrayBufferToString_map buffer :
  arrayBufferToString buffer = (fun b => b mod 65536) <$> buffer.
Proof.
  unfold arrayBufferToString.
  assert (forall l acc,
            concat (fold_left (fun a byte => a ++ [String_fromCharCode byte]) l acc)
            = concat acc ++ ((fun b => b mod 65536) <$> l)) as Hgen.
  { induction l as [|b l IH]; intros acc; simpl; [by rewrite app_nil_r|].
    rewrite IH, concat_app. simpl. by rewrite <- app_assoc. }
  by rewrite Hgen.
Qed.

Lemma stringToArrayBuffer_loop s : forall k bytes,
  (k <= length s)%nat -> length bytes = length s ->
  (forall j, (j < length s - k)%nat -> bytes !! j = Some (nth j s 0 mod 256)) ->
  fold_left (fun bytes i => <[i := nth i s 0 mod 256]> bytes)
            (seq (length s - k) k) bytes
  = (fun c => c mod 256) <$> s.
Proof.
  induction k as [|k IH]; intros bytes Hk Hlen Hdone; simpl.
  - apply list_eq. intros j. rewrite list_lookup_fmap.
    destruct (s !! j) as [x|] eqn:E.
    + pose proof (lookup_lt_Some _ _ _ E) as Hj.
      rewrite Hdone by lia. by rewrite nth_lookup, E.
    + apply lookup_ge_None in E. apply lookup_ge_None. lia.
  - replace (S (length s - S k)) with (length s - k)%nat by lia.
    apply IH; [lia | by rewrite length_insert |].
    intros j Hj. destruct (decide (j = length s - S k)%nat) as [->|Hne].
    + apply list_lookup_insert_eq. lia.
    + rewrite list_lookup_insert_ne by done. apply Hdone. lia.
Qed.

Lemma stringToArrayBuffer_map s :
  stringToArrayBuffer s = (fun c => c mod 256) <$> s.
Proof.
  unfold stringToArrayBuffer.
  pose proof (stringToArrayBuffer_loop s (length s)
                (new_ArrayBuffer (length s))) as H.
  rewrite Nat.sub_diag in H. apply H; [lia | |intros j Hj; lia].
  unfold new_ArrayBuffer. rewrite length_replicate. lia.
Qed.

(** X4. stringToArrayBuffer keeps the low eight bits of every code unit:
    a buffer converted to a string and back is the same buffer, and a
    string comes back unchanged exactly when every code unit is below 256
    (otherwise each unit comes back modulo 256). *)
Theorem string_buffer_roundtrip buffer s :
  Forall isByte buffer ->
  Forall (fun c => 0 <= c < 65536) s ->
  stringToArrayBuffer (arrayBufferToString buffer) = buffer /\
  arrayBufferToString (stringToArrayBuffer s) = (fun c => c mod 256) <$> s /\
  (arrayBufferToString (stringToArrayBuffer s) = s <-> Forall (fun c => c < 256) s).
Proof.
  intros Hb Hs.
  rewrite !stringToArrayBuffer_map, !arrayBufferToString_map.
  rewrite <- !list_fmap_compose.
  assert (forall l : list Z, Forall isByte l ->
            ((fun c => c mod 256) ∘ (fun b => b mod 65536)) <$> l = l) as Hid.
  { intros l Hl. induction Hl as [|x l Hx Hl IH]; [done|].
    rewrite fmap_cons, IH. f_equal. unfold isByte in Hx. cbn.
    rewrite (Z.mod_small x 65536) by lia. apply Z.mod_small. lia. }
  assert (((fun b => b mod 65536) ∘ (fun c => c mod 256)) <$> s
          = (fun c => c mod 256) <$> s) as Hlow.
  { apply list_fmap_ext. intros i x _. simpl. apply Z.mod_small.
    pose proof (Z.mod_pos_bound x 256). lia. }
  split; [by apply Hid|]. split; [exact Hlow|].
  rewrite Hlow. split.
  - intros Heq. clear Hlow. induction Hs as [|x l Hx Hl IH]; [constructor|].
    rewrite fmap_cons in Heq. injection Heq as Hx' Hl'. constructor; [|by apply IH].
    pose proof (Z.mod_pos_bound x 256). lia.
  - intros Hsmall. clear Hlow. induction Hs as [|x l Hx Hl IH]; [done|].
    inversion Hsmall; subst. rewrite fmap_cons, IH by done. f_equal.
    apply Z.mod_small. lia.
Qed.

(** "Hi" goes through unchanged; the unit 0x263A comes back as 0x3A. *)
Lemma string_buffer_roundtrip_witness :
  stringToArrayBuffer (arrayBufferToString [72; 105]) = [72; 105] /\
  arrayBufferToString (stringToArrayBuffer [72; 9786]) = (fun c => c mod 256) <$> [72; 9786] /\
  (arrayBufferToString (stringToArrayBuffer [72; 9786]) = [72; 9786]
   <-> Forall (fun c => c < 256) [72; 9786]).
Proof.
  apply (string_buffer_roundtrip [72; 105] [72; 9786]).
  - repeat constructor; unfold isByte; lia.
  - repeat constructor; lia.
Defined.

End CodecMore.

(** ** More on the IP utilities *)

Module IpMore.
Import Utils.

Lemma find_first {A} (f : A -> bool) l x :
  find f l = Some x ->
  exists i, l !! i = Some x /\ f x = true /\
            forall j y, (j < i)%nat -> l !! j = Some y -> f y = false.
Proof.
  induction l as [|a l IH]; simpl; [discriminate|].
  destruct (f a) eqn:Ea.
  - intros [= <-]. exists 0%nat. split; [done|]. split; [done|].
    intros j y Hj. lia.
  - intros H. destruct (IH H) as (i & Hi & Hx & Hbefore).
    exists (S i). split; [done|]. split; [done|].
    intros [|j] y Hj Hy; simpl in Hy; [by injection Hy as <-|].
    eapply Hbefore; [|exact Hy]. lia.
Qed.

Lemma find_none {A} (f : A -> bool) l :
  find f l = None -> forall x, x ∈ l -> f x = false.
Proof.
  induction l as [|a l IH]; simpl; intros H x Hx; [by apply elem_of_nil in Hx|].
  destruct (f a) eqn:Ea; [discriminate|].
  apply elem_of_cons in Hx as [->|Hx]; [done | by apply IH].
Qed.

(** X5. The value the inner loop of longestPrefixMatch pushes for an entry
    is the number n of leading mask lengths under which the entry matches
    the target: 0 <= n <= 30, every mask 1..n matches and mask n+1 does
    not.  Nothing is pushed exactly when all the masks 1..31 match. *)
Theorem prefixPush_shared_prefix ip matchIp :
  match prefixPush ip matchIp with
  | Some n =>
      0 <= n <= 30 /\
      (forall mask, 1 <= mask <= n -> IPv4_match ip matchIp mask = true) /\
      IPv4_match ip matchIp (n + 1) = false
  | None => forall mask, 1 <= mask <= 31 -> IPv4_match ip matchIp mask = true
  end.
Proof.
  unfold prefixPush.
  destruct (find _ (seqZ 1 31)) as [m|] eqn:E.
  - apply find_first in E as (i & Hi & Hm & Hbefore).
    apply lookup_seqZ in Hi as [-> Hi].
    apply negb_true_iff in Hm.
    split; [lia|]. split.
    + intros mask Hmask.
      specialize (Hbefore (Z.to_nat (mask - 1)) mask ltac:(lia)).
      rewrite negb_false_iff in Hbefore. apply Hbefore.
      apply lookup_seqZ. split; lia.
    + by replace (1 + Z.of_nat i - 1 + 1) with (1 + Z.of_nat i) by lia.
  - intros mask Hmask.
    pose proof (find_none _ _ E mask) as H. rewrite negb_false_iff in H.
    apply H. apply elem_of_seqZ. lia.
Qed.

Lemma prefixMatchesOf_all ipList matchIp : forall ns acc,
  Forall2 (fun v n => exists ip, IPv4_parse v = Ok ip /\ prefixPush ip matchIp = Some n)
          ipList ns ->
  prefixMatchesOf ipList matchIp acc = Ok (acc ++ ns).
Proof.
  induction ipList as [|v rest IH]; intros ns acc H; inversion H; subst; simpl.
  - by rewrite app_nil_r.
  - destruct H2 as (ip & -> & ->). rewrite (IH _ _ H4).
    by rewrite <- app_assoc.
Qed.

Lemma fold_max_ge rest : forall x y, y ∈ x :: rest -> y <= fold_left Z.max rest x.
Proof.
  induction rest as [|z rest IH]; intros x y Hy; simpl.
  - apply list_elem_of_singleton in Hy as ->. lia.
  - apply elem_of_cons in Hy as [->|Hy].
    + etrans; [|apply (IH (Z.max x z)); left]. lia.
    + apply elem_of_cons in Hy as [->|Hy].
      * etrans; [|apply (IH (Z.max x z)); left]. lia.
      * apply IH. by right.
Qed.

Lemma indexOf_first (l : list Z) x :
  x ∈ l ->
  exists i, indexOf l x = Z.of_nat i /\ l !! i = Some x /\
            forall j y, (j < i)%nat -> l !! j = Some y -> y ≠ x.
Proof.
  induction l as [|a l IH]; intros Hx; [by apply elem_of_nil in Hx|].
  simpl indexOf. destruct (decide (a = x)) as [->|Hne].
  - exists 0%nat. split; [done|]. split; [done|]. intros j y Hj. lia.
  - apply elem_of_cons in Hx as [->|Hx]; [done|].
    destruct (IH Hx) as (i & Hi & Hl & Hbefore). rewrite Hi.
    destruct (Z.of_nat i =? -1) eqn:E; [apply Z.eqb_eq in E; lia|].
    exists (S i). split; [lia|]. split; [done|].
    intros [|j] y Hj Hy; simpl in Hy; [by injection Hy as <-|].
    eapply Hbefore; [|exact Hy]. lia.
Qed.

(** X6. When the loop pushes for every entry (no entry agrees with the
    target under all of the masks 1..31), longestPrefixMatch returns the
    entry whose pushed prefix length is largest, and among several with
    that length the one that comes first in the list. *)
Theorem longestPrefixMatch_first_longest ipList matchIp matchIp' ns :
  ipList ≠ [] ->
  IPv4_parse matchIp = Ok matchIp' ->
  Forall2 (fun v n => exists ip, IPv4_parse v = Ok ip /\ prefixPush ip matchIp' = Some n)
          ipList ns ->
  exists i s n,
    longestPrefixMatch ipList matchIp = Ok (Some s) /\
    ipList !! i = Some s /\ ns !! i = Some n /\
    (forall j m, ns !! j = Some m -> m <= n) /\
    (forall j m, (j < i)%nat -> ns !! j = Some m -> m < n).
Proof.
  intros Hne Hm Hall. unfold longestPrefixMatch. rewrite Hm. cbn [mbind Result_bind].
  rewrite (prefixMatchesOf_all _ _ _ [] Hall). cbn [mbind Result_bind app].
  pose proof (Forall2_length _ _ _ Hall) as Hlen.
  destruct ns as [|n0 ns']; [destruct ipList; [done | discriminate]|].
  cbn [Math_max]. set (m := fold_left Z.max ns' n0).
  assert (m ∈ n0 :: ns') as Hin by apply PrefixMatch.fold_max_elem.
  destruct (indexOf_first _ _ Hin) as (i & Hidx & Hi & Hbefore).
  rewrite Hidx. unfold arrayGet.
  rewrite (proj2 (Z.leb_le 0 (Z.of_nat i))) by lia. rewrite Nat2Z.id.
  pose proof (lookup_lt_Some _ _ _ Hi) as Hilt.
  destruct (ipList !! i) as [s|] eqn:Es;
    [|apply lookup_ge_None in Es; lia].
  exists i, s, m. split; [done|]. split; [done|]. split; [done|]. split.
  - intros j y Hy. apply fold_max_ge. by eapply list_elem_of_lookup_2.
  - intros j y Hj Hy.
    assert (y <= m) by (apply fold_max_ge; by eapply list_elem_of_lookup_2).
    pose proof (Hbefore j y Hj Hy). lia.
Qed.

(** Among 192.168.2.1, 192.168.1.1 and 192.168.1.2 the address
    192.168.1.42 gets 192.168.1.1: it and 192.168.1.2 both share 26 bits
    with the target, and it comes first. *)
Lemma longestPrefixMatch_first_longest_witness :
  exists i s n,
    longestPrefixMatch ["192.168.2.1"; "192.168.1.1"; "192.168.1.2"]%string
                       "192.168.1.42" = Ok (Some s) /\
    ["192.168.2.1"; "192.168.1.1"; "192.168.1.2"]%string !! i = Some s /\
    [22; 26; 26] !! i = Some n /\
    (forall j m, [22; 26; 26] !! j = Some m -> m <= n) /\
    (forall j m, (j < i)%nat -> [22; 26; 26] !! j = Some m -> m < n).
Proof.
  apply (longestPrefixMatch_first_longest
           ["192.168.2.1"; "192.168.1.1"; "192.168.1.2"]%string
           "192.168.1.42" [192; 168; 1; 42] [22; 26; 26]).
  - discriminate.
  - vm_compute. reflexivity.
  - repeat constructor; eexists; split; vm_compute; reflexivity.
Defined.

Lemma IPv4_parse_Ok_valid s octets : IPv4_parse s = Ok octets -> IPv4_isValid s = true.
Proof.
  unfold IPv4_parse, IPv4_isValid. destruct (IPv4_octets s); [done | discriminate].
Qed.

Lemma IPv4_parse_invalid s : IPv4_isValid s = false -> exists e, IPv4_parse s = Throw e.
Proof.
  unfold IPv4_parse, IPv4_isValid. destruct (IPv4_octets s); [discriminate | eauto].
Qed.

Lemma prefixMatchesOf_valid ipList : forall matchIp acc prefixMatches,
  prefixMatchesOf ipList matchIp acc = Ok prefixMatches ->
  Forall (fun s => IPv4_isValid s = true) ipList.
Proof.
  induction ipList as [|v rest IH]; intros matchIp acc pm H; [constructor|].
  simpl in H. destruct (IPv4_parse v) as [ip|e] eqn:E; [|discriminate].
  constructor; [by eapply IPv4_parse_Ok_valid | by eapply IH].
Qed.

(** X7. longestPrefixMatch returns (rather than throws) exactly when the
    target and every list entry are valid IPv4 strings; for an empty list
    and a valid target it returns undefined. *)
Theorem longestPrefixMatch_returns_iff_valid ipList matchIp :
  ((exists r, longestPrefixMatch ipList matchIp = Ok r) <->
   IPv4_isValid matchIp = true /\ Forall (fun s => IPv4_isValid s = true) ipList) /\
  (IPv4_isValid matchIp = true -> longestPrefixMatch [] matchIp = Ok None).
Proof.
  split; [split|].
  - intros [r H]. unfold longestPrefixMatch in H.
    destruct (IPv4_parse matchIp) as [t|e] eqn:Em; [|discriminate].
    cbn [mbind Result_bind] in H.
    destruct (prefixMatchesOf ipList t []) as [pm|e] eqn:Ep; [|discriminate].
    split; [by eapply IPv4_parse_Ok_valid | by eapply prefixMatchesOf_valid].
  - intros [Hm Hall]. by apply Waves.longestPrefixMatch_ok.
  - intros Hm. unfold longestPrefixMatch.
    destruct (Waves.IPv4_parse_valid _ Hm) as [t ->]. reflexivity.
Qed.

Lemma filterRouterIps_inv privateIps : forall lpms,
  filterRouterIps privateIps = Ok lpms ->
  Forall2 (fun ip r => longestPrefixMatch ROUTER_IPS ip = Ok r) privateIps lpms.
Proof.
  induction privateIps as [|ip rest IH]; intros lpms H; simpl in H.
  - injection H as <-. constructor.
  - destruct (longestPrefixMatch ROUTER_IPS ip) as [r|e] eqn:Er; [|discriminate].
    cbn [mbind Result_bind] in H.
    destruct (filterRouterIps rest) as [rs|e] eqn:Ers; [|discriminate].
    cbn [mbind Result_bind] in H. injection H as <-.
    constructor; [done | by apply IH].
Qed.

Lemma longestPrefixMatch_returns_valid ipList matchIp r :
  longestPrefixMatch ipList matchIp = Ok r ->
  IPv4_isValid matchIp = true /\ Forall (fun s => IPv4_isValid s = true) ipList.
Proof.
  intros H. unfold longestPrefixMatch in H.
  destruct (IPv4_parse matchIp) as [t|e] eqn:Em; [|discriminate].
  cbn [mbind Result_bind] in H.
  destruct (prefixMatchesOf ipList t []) as [pm|e] eqn:Ep; [|discriminate].
  split; [by eapply IPv4_parse_Ok_valid | by eapply prefixMatchesOf_valid].
Qed.

Lemma filterRouterIps_one_router_each' privateIps lpms :
  filterRouterIps privateIps = Ok lpms ->
  length lpms = length privateIps /\
  Forall (fun s => IPv4_isValid s = true) privateIps /\
  Forall2 (fun ip r => longestPrefixMatch ROUTER_IPS ip = Ok r) privateIps lpms /\
  Forall (fun r => exists s, r = Some s /\ s ∈ ROUTER_IPS) lpms.
Proof.
  intros H. pose proof (filterRouterIps_inv _ _ H) as Hall.
  assert (Forall (fun s => IPv4_isValid s = true) privateIps) as Hvalid.
  { clear H. induction Hall as [|ip r ips rs Hr Hrest IH]; constructor; [|done].
    destruct (longestPrefixMatch_returns_valid ROUTER_IPS ip r Hr) as [Hv _]. done. }
  split; [symmetry; by eapply Forall2_length|].
  split; [done|]. split; [done|].
  clear H. induction Hall as [|ip r ips rs Hr Hrest IH]; [constructor|].
  inversion Hvalid; subst. constructor; [|by apply IH].
  destruct (PrefixMatch.longestPrefixMatch_ROUTER_IPS ip) as (s & Hs & Hin); [done|].
  exists s. split; [congruence | done].
Qed.

(** X8. When filterRouterIps returns, it has picked exactly one router per
    private IP, in order, and every pick is an entry of ROUTER_IPS (never
    undefined); it returns only if every private IP is a valid IPv4
    string. *)
Theorem filterRouterIps_one_router_each privateIps lpms :
  filterRouterIps privateIps = Ok lpms ->
  length lpms = length privateIps /\
  Forall (fun s => IPv4_isValid s = true) privateIps /\
  Forall2 (fun ip r => longestPrefixMatch ROUTER_IPS ip = Ok r) privateIps lpms /\
  Forall (fun r => exists s, r = Some s /\ s ∈ ROUTER_IPS) lpms.
Proof.
  intros H. pose proof (filterRouterIps_inv _ _ H) as Hall.
  destruct (filterRouterIps_one_router_each' _ _ H) as (Hlen & Hvalid & _ & Hmem).
  split; [exact Hlen|]. split; [exact Hvalid|]. split; [exact Hall | exact Hmem].
Qed.

Lemma filterRouterIps_one_router_each_witness :
  length [Some "192.168.1.1"%string; Some "10.0.0.13"%string]
    = length ["192.168.1.42"%string; "10.0.0.3"%string] /\
  Forall (fun s => IPv4_isValid s = true) ["192.168.1.42"%string; "10.0.0.3"%string] /\
  Forall2 (fun ip r => longestPrefixMatch ROUTER_IPS ip = Ok r)
          ["192.168.1.42"%string; "10.0.0.3"%string]
          [Some "192.168.1.1"%string; Some "10.0.0.13"%string] /\
  Forall (fun r => exists s, r = Some s /\ s ∈ ROUTER_IPS)
         [Some "192.168.1.1"%string; Some "10.0.0.13"%string].
Proof.
  apply (filterRouterIps_one_router_each ["192.168.1.42"%string; "10.0.0.3"%string]).
  vm_compute. reflexivity.
Defined.

Lemma indexOf_ge {A} `{EqDecision A} (l : list A) x : -1 <= indexOf l x.
Proof.
  induction l as [|a l IH]; simpl; [lia|].
  destruct (decide (a = x)); [lia|]. destruct (indexOf l x =? -1); lia.
Qed.

Lemma indexOf_absent {A} `{EqDecision A} (l : list A) x : indexOf l x = -1 <-> x ∉ l.
Proof.
  induction l as [|a l IH]; simpl.
  - split; [intros _; apply not_elem_of_nil | done].
  - destruct (decide (a = x)) as [->|Hne].
    + split; [discriminate | intros Hx; exfalso; apply Hx; left].
    + rewrite not_elem_of_cons. destruct (indexOf l x =? -1) eqn:E.
      * apply Z.eqb_eq in E. split; [intros _; split; [done | by apply IH] | done].
      * apply Z.eqb_neq in E. pose proof (indexOf_ge l x).
        split; [lia | intros [_ Hx]; by apply IH in Hx].
Qed.

Lemma gather_loop candidates : forall acc,
  NoDup acc ->
  let result :=
    fold_left (fun privateIps privateIp =>
                 if IPv4_isValid privateIp then
                   if indexOf privateIps privateIp =? -1
                   then privateIps ++ [privateIp] else privateIps
                 else privateIps) candidates acc in
  NoDup result /\
  forall ip, ip ∈ result <-> ip ∈ acc \/ (ip ∈ candidates /\ IPv4_isValid ip = true).
Proof.
  induction candidates as [|c rest IH]; intros acc Hnd; simpl.
  - split; [done|]. intros ip. rewrite elem_of_nil. tauto.
  - destruct (IPv4_isValid c) eqn:Ec.
    + destruct (indexOf acc c =? -1) eqn:Ei.
      * apply Z.eqb_eq, indexOf_absent in Ei.
        destruct (IH (acc ++ [c])) as [Hnd' Hmem].
        { apply NoDup_app. split; [done|]. split; [|apply NoDup_singleton].
          intros x Hx ->%list_elem_of_singleton. done. }
        split; [done|]. intros ip. rewrite Hmem, elem_of_app, list_elem_of_singleton,
          elem_of_cons. naive_solver.
      * apply Z.eqb_neq in Ei.
        assert (c ∈ acc) as Hc.
        { destruct (decide (c ∈ acc)); [done|]. by apply indexOf_absent in n. }
        destruct (IH acc Hnd) as [Hnd' Hmem]. split; [done|].
        intros ip. rewrite Hmem, elem_of_cons. naive_solver.
    + destruct (IH acc Hnd) as [Hnd' Hmem]. split; [done|].
      intros ip. rewrite Hmem, elem_of_cons. naive_solver congruence.
Qed.

(** X9. getPrivateIps touches nothing of the PortControl.  When it
    resolves, its list is non-empty, has no repeats, and holds exactly the
    host candidates that are valid IPv4 strings; it rejects with
    "getPrivateIps() failed" exactly when no candidate is one. *)
Theorem getPrivateIps_outcome env w :
  match run (getPrivateIps env) w with
  | (Ok privateIps, w') =>
      w' = w /\ privateIps ≠ [] /\ NoDup privateIps /\
      forall ip, ip ∈ privateIps <-> ip ∈ hostCandidates env /\ IPv4_isValid ip = true
  | (Throw e, w') =>
      w' = w /\ e = Error "getPrivateIps() failed" /\
      forall ip, ip ∈ hostCandidates env -> IPv4_isValid ip = false
  end.
Proof.
  rewrite run_getPrivateIps.
  destruct (gather_loop (hostCandidates env) [] (NoDup_nil_2)) as [Hnd Hmem].
  fold (gatheredIps env) in Hnd, Hmem.
  assert (forall ip, ip ∈ gatheredIps env
                     <-> ip ∈ hostCandidates env /\ IPv4_isValid ip = true) as Hmem'.
  { intros ip. rewrite Hmem, elem_of_nil. tauto. }
  destruct (0 <? Z.of_nat (length (gatheredIps env))) eqn:E.
  - apply Z.ltb_lt in E. split; [done|]. split; [|done].
    intros Hnil. rewrite Hnil in E. simpl in E. lia.
  - apply Z.ltb_ge in E. split; [done|]. split; [done|].
    intros ip Hip. destruct (IPv4_isValid ip) eqn:Ev; [|done].
    assert (ip ∈ gatheredIps env) as Hin by (apply Hmem'; done).
    destruct (gatheredIps env); [by apply elem_of_nil in Hin | simpl in E; lia].
Qed.

End IpMore.

(** ** Frames and traffic of the PCP client *)

Module PcpFrames.
Import Utils.

Lemma onlyNetwork_refl w : onlyNetwork w w.
Proof. by repeat split. Qed.

Lemma onlyNetwork_trans w1 w2 w3 :
  onlyNetwork w1 w2 -> onlyNetwork w2 w3 -> onlyNetwork w1 w3.
Proof.
  intros (A1 & B1 & C1 & D1 & E1) (A2 & B2 & C2 & D2 & E2).
  repeat split; congruence.
Qed.

Lemma onlyNetwork_keepsRegistry w w' : onlyNetwork w w' -> keepsRegistry w w'.
Proof. intros (A & B & C & D & E). by repeat split. Qed.

Lemma keepsRegistry_trans w1 w2 w3 :
  keepsRegistry w1 w2 -> keepsRegistry w2 w3 -> keepsRegistry w1 w3.
Proof.
  intros (A1 & C1 & D1 & E1) (A2 & C2 & D2 & E2). repeat split; congruence.
Qed.

Lemma sentAll_refl P w : sentAll P w w.
Proof. exists []. split; [by rewrite app_nil_r | constructor]. Qed.

Lemma sentAll_same P w w' : sent w' = sent w -> sentAll P w w'.
Proof. intros H. exists []. split; [by rewrite app_nil_r | constructor]. Qed.

Lemma sentAll_trans P w1 w2 w3 : sentAll P w1 w2 -> sentAll P w2 w3 -> sentAll P w1 w3.
Proof.
  intros (e1 & H1 & F1) (e2 & H2 & F2). exists (e1 ++ e2). split.
  - by rewrite H2, H1, app_assoc.
  - by apply Forall_app.
Qed.

(** Promise.all over a map keeps every reflexive and transitive relation
    between worlds that each call keeps. *)
Lemma promiseAllMap_preorder {A B} (R : World -> World -> Prop) (f : A -> Promise B) :
  (forall w, R w w) ->
  (forall w1 w2 w3, R w1 w2 -> R w2 w3 -> R w1 w3) ->
  (forall x w, R w (run (f x) w).2) ->
  forall l w, R w (run (promiseAllMap f l) w).2.
Proof.
  intros Hrefl Htrans Hf. induction l as [|x l IH]; intros w; simpl promiseAllMap.
  - apply Hrefl.
  - rewrite run_bind. specialize (Hf x w).
    destruct (run (f x) w) as [[y|e] w1]; simpl in Hf; [|exact Hf].
    rewrite run_bind. specialize (IH w1).
    destruct (run (promiseAllMap f l) w1) as [[ys|e] w2]; simpl in IH |- *;
      by eapply Htrans.
Qed.

(** What each call contributed to the results of a resolved Promise.all. *)
Lemma promiseAllMap_results {A B} (Q : A -> B -> Prop) (f : A -> Promise B) :
  (forall x w y w', run (f x) w = (Ok y, w') -> Q x y) ->
  forall l w ys w', run (promiseAllMap f l) w = (Ok ys, w') -> Forall2 Q l ys.
Proof.
  intros Hf. induction l as [|x l IH]; intros w ys w' H; simpl promiseAllMap in H.
  - cbn in H. injection H as <- _. constructor.
  - rewrite run_bind in H. destruct (run (f x) w) as [[y|e] w1] eqn:Ex; [|discriminate].
    rewrite run_bind in H.
    destruct (run (promiseAllMap f l) w1) as [[ys'|e] w2] eqn:El; [|discriminate].
    cbn in H. injection H as <- _. constructor; eauto.
Qed.

(** The nonce sendPcpRequest works with: the one passed, or three draws. *)
Lemma nonce_choice env (nonce : option (Z * Z * Z)) w :
  exists n w1,
    run (match nonce with
         | Some n => mret n
         | None =>
             n0 ← randInt env 0 0xffffffff;
             n1 ← randInt env 0 0xffffffff;
             n2 ← randInt env 0 0xffffffff;
             mret (n0, n1, n2)
         end) w = (Ok n, w1) /\
    onlyNetwork w w1 /\ sent w1 = sent w /\
    (forall n', nonce = Some n' -> n = n' /\ w1 = w).
Proof.
  destruct nonce as [n|].
  - exists n, w. split; [done|]. split; [apply onlyNetwork_refl|].
    split; [done|]. by intros n' [= <-].
  - eexists _, _. split; [reflexivity|]. split; [by repeat split|].
    split; [done | discriminate].
Qed.

(** sendPcpRequest, step by step. *)
Lemma sendPcpRequest_run env r privateIp intPort extPort lifetime nonce w :
  exists n w1,
    onlyNetwork w w1 /\ sent w1 = sent w /\
    (forall n', nonce = Some n' -> n = n' /\ w1 = w) /\
    run (Pcp.sendPcpRequest env r privateIp intPort extPort lifetime nonce) w =
    match privateIp with
    | None => (Throw TypeError, w1)
    | Some ip =>
        match IPv4_parse ip with
        | Throw e => (Throw e, w1)
        | Ok octets =>
            match Pcp.pcpBuffer octets intPort extPort lifetime n with
            | Ok buffer => (Ok (routerReply env r buffer), sendTo buffer r 5351 w1)
            | Throw _ => (Ok None, w1)
            end
        end
    end.
Proof.
  destruct (nonce_choice env nonce w) as (n & w1 & Hn & Hnet & Hsent & Hsame).
  exists n, w1. split; [done|]. split; [done|]. split; [done|].
  unfold Pcp.sendPcpRequest. rewrite run_bind, Hn, run_bind.
  destruct privateIp as [ip|]; cbn [run reject liftResult]; [|done].
  destruct (IPv4_parse ip) as [octets|e]; [|done].
  by destruct (Pcp.pcpBuffer octets intPort extPort lifetime n).
Qed.

Lemma sendTo_onlyNetwork buffer ip port w : onlyNetwork w (sendTo buffer ip port w).
Proof. by repeat split. Qed.

Lemma sendPcpRequest_onlyNetwork env r privateIp intPort extPort lifetime nonce w :
  onlyNetwork w (run (Pcp.sendPcpRequest env r privateIp intPort extPort lifetime nonce) w).2.
Proof.
  destruct (sendPcpRequest_run env r privateIp intPort extPort lifetime nonce w)
    as (n & w1 & Hnet & _ & _ & ->).
  destruct privateIp as [ip|]; [|done].
  destruct (IPv4_parse ip) as [octets|e]; [|done].
  destruct (Pcp.pcpBuffer _ _ _ _ _); [|done].
  eapply onlyNetwork_trans; [exact Hnet | apply sendTo_onlyNetwork].
Qed.

(** Every datagram of sendPcpRequest is the buffer built for its arguments. *)
Lemma sendPcpRequest_sentAll env (P : string * Z * list Z -> Prop)
    r privateIp intPort extPort lifetime nonce w :
  (forall octets n buffer,
     (forall n', nonce = Some n' -> n = n') ->
     (exists ip, privateIp = Some ip /\ IPv4_parse ip = Ok octets) ->
     Pcp.pcpBuffer octets intPort extPort lifetime n = Ok buffer ->
     P (r, 5351, buffer)) ->
  sentAll P w (run (Pcp.sendPcpRequest env r privateIp intPort extPort lifetime nonce) w).2.
Proof.
  intros HP.
  destruct (sendPcpRequest_run env r privateIp intPort extPort lifetime nonce w)
    as (n & w1 & _ & Hsent & Hsame & ->).
  destruct privateIp as [ip|]; [|by apply sentAll_same].
  destruct (IPv4_parse ip) as [octets|e] eqn:Eip; [|by apply sentAll_same].
  destruct (Pcp.pcpBuffer _ _ _ _ _) as [buffer|e] eqn:Eb; [|by apply sentAll_same].
  exists [(r, 5351, buffer)]. split; [cbn; by rewrite Hsent|].
  constructor; [|constructor]. eapply HP; [|eauto|exact Eb].
  intros n' Hn'. by destruct (Hsame n' Hn').
Qed.

End PcpFrames.

(** ** pcp.addMapping, wave by wave *)

Module AddSteps.
Import Utils PcpFrames.

Lemma evolves_refl m : evolves m m.
Proof. repeat split; by left. Qed.

Lemma evolves_trans m0 m1 m2 : evolves m0 m1 -> evolves m1 m2 -> evolves m0 m2.
Proof.
  intros (A1 & B1 & C1 & D1 & E1 & F1) (A2 & B2 & C2 & D2 & E2 & F2).
  repeat split; try congruence.
  destruct F2 as [->|F2]; [exact F1 | by right].
Qed.

Lemma pcpBuffer_isMapRequest r octets intPort extPort lifetime n buffer :
  0 <= intPort < 65536 -> 0 <= extPort < 65536 -> 0 <= lifetime < 4294967296 ->
  Pcp.pcpBuffer octets intPort extPort lifetime n = Ok buffer ->
  isMapRequest intPort extPort lifetime (r, 5351, buffer).
Proof.
  intros Hi He Hl Hb. destruct n as [[n0 n1] n2].
  rewrite PcpCodec.pcpBuffer_bytes in Hb. injection Hb as <-.
  unfold isMapRequest, getUint8, getUint16, getUint32, inRange, byteAt. simpl.
  rewrite !UtilsFacts.be16_roundtrip, !UtilsFacts.be32_roundtrip by assumption.
  by repeat split.
Qed.

(** One element of the fan-out. *)
Lemma requestFrom_effect env intPort extPort lifetime privateIps routerIp w :
  onlyNetwork w (run (Pcp.requestFrom env intPort extPort lifetime privateIps routerIp) w).2 /\
  (0 <= intPort < 65536 -> 0 <= extPort < 65536 ->
   0 <= Pcp.reqLifetime lifetime < 4294967296 ->
   sentAll (isMapRequest intPort extPort (Pcp.reqLifetime lifetime)) w
     (run (Pcp.requestFrom env intPort extPort lifetime privateIps routerIp) w).2).
Proof.
  unfold Pcp.requestFrom. destruct routerIp as [r|];
    [|split; [apply onlyNetwork_refl | intros; apply sentAll_refl]].
  rewrite run_bind. cbn [run liftResult].
  destruct (longestPrefixMatch privateIps r) as [privateIp|e];
    [|split; [apply onlyNetwork_refl | intros; apply sentAll_refl]].
  rewrite run_bind.
  pose proof (sendPcpRequest_onlyNetwork env r privateIp intPort extPort
                (Pcp.reqLifetime lifetime) None w) as Hnet.
  split.
  - by destruct (run (Pcp.sendPcpRequest _ _ _ _ _ _ _) w) as [[resp|e] w1].
  - intros Hi He Hl.
    pose proof (sendPcpRequest_sentAll env
                  (isMapRequest intPort extPort (Pcp.reqLifetime lifetime))
                  r privateIp intPort extPort (Pcp.reqLifetime lifetime) None w) as Hs.
    destruct (run (Pcp.sendPcpRequest _ _ _ _ _ _ _) w) as [[resp|e] w1];
      apply Hs; intros; by eapply pcpBuffer_isMapRequest.
Qed.

Lemma requestFrom_result env intPort extPort lifetime privateIps routerIp w y w' :
  run (Pcp.requestFrom env intPort extPort lifetime privateIps routerIp) w = (Ok y, w') ->
  y = None \/
  exists r data ip buffer,
    y = Some (r, data, ip) /\ routerIp = Some r /\ routerReply env r buffer = Some data.
Proof.
  unfold Pcp.requestFrom. destruct routerIp as [r|]; [|discriminate].
  rewrite run_bind. cbn [run liftResult].
  destruct (longestPrefixMatch privateIps r) as [privateIp|e]; [|discriminate].
  rewrite run_bind.
  destruct (sendPcpRequest_run env r privateIp intPort extPort
              (Pcp.reqLifetime lifetime) None w) as (n & w1 & _ & _ & _ & ->).
  destruct privateIp as [ip|]; [|discriminate].
  destruct (IPv4_parse ip) as [octets|e]; [|discriminate].
  destruct (Pcp.pcpBuffer _ _ _ _ _) as [buffer|e]; cbn.
  - destruct (routerReply env r buffer) as [data|] eqn:Er; intros [= <- <-]; [|by left].
    right. by exists r, data, (Some ip), buffer.
  - intros [= <- <-]. by left.
Qed.

(** A reply adopted: the mapping evolves, and the router joins the cache
    if it is not in it. *)
Lemma adoptResponse_step cacheArg v m cache m' cache' err :
  Pcp.adoptResponse cacheArg v (m, cache) = ((m', cache'), err) ->
  evolves m m' /\
  (cache' = cache \/
   exists r data ip, v = Some (r, data, ip) /\ (r ∉ cache) /\ cache' = cache ++ [r]).
Proof.
  unfold Pcp.adoptResponse. destruct v as [[[r data] ip]|].
  - destruct (mbind _ (getUint8 data 56)) as [[[[extIp p] l] n]|e].
    + destruct cacheArg.
      * destruct (indexOf cache r =? -1) eqn:Ei; intros [= <- <- <-].
        -- split; [repeat split; right; repeat split; eauto|].
           right. exists r, data, ip. split; [done|]. split; [|done].
           by apply IpMore.indexOf_absent, Z.eqb_eq.
        -- split; [repeat split; right; repeat split; eauto | by left].
      * intros [= <- <- <-].
        split; [repeat split; right; repeat split; eauto | by left].
    + intros [= <- <- <-]. split; [apply evolves_refl | by left].
  - intros [= <- <- <-]. split; [apply evolves_refl | by left].
Qed.

Lemma forEach_adopt cacheArg (routerIps : list (option string)) responses :
  Forall (fun v => v = None \/
            exists r data ip, v = Some (r, data, ip) /\ Some r ∈ routerIps) responses ->
  forall m cache m' cache' err,
    forEach (Pcp.adoptResponse cacheArg) responses (m, cache) = ((m', cache'), err) ->
    evolves m m' /\
    (cache `prefix_of` cache') /\
    (NoDup cache -> NoDup cache') /\
    (forall x, x ∈ cache' -> x ∈ cache \/ Some x ∈ routerIps).
Proof.
  induction 1 as [|v responses Hv Hrest IH]; intros m cache m' cache' err H;
    cbn [forEach] in H.
  - injection H as <- <- _. split; [apply evolves_refl|]. split; [done|].
    split; [done | by left].
  - destruct (Pcp.adoptResponse cacheArg v (m, cache)) as [[m1 cache1] [e|]] eqn:Estep.
    + injection H as <- <- _.
      destruct (adoptResponse_step _ _ _ _ _ _ _ Estep) as [Hev Hc].
      split; [done|]. destruct Hc as [->|(r & data & ip & -> & Hr & ->)].
      * split; [done|]. split; [done | by left].
      * split; [by apply prefix_app_r|]. split.
        -- intros Hnd. apply NoDup_app. split; [done|].
           split; [|apply NoDup_singleton].
           intros x Hx ->%list_elem_of_singleton. done.
        -- intros x [Hx| ->%list_elem_of_singleton]%elem_of_app; [by left|].
           right. destruct Hv as [?|(r' & d' & ip' & [= <- <- <-] & Hin)]; done.
    + destruct (adoptResponse_step _ _ _ _ _ _ _ Estep) as [Hev Hc].
      destruct (IH _ _ _ _ _ H) as (Hev' & Hpre & Hnd & Hmem).
      split; [by eapply evolves_trans|].
      destruct Hc as [->|(r & data & ip & -> & Hr & ->)]; [done|].
      split; [etrans; [|exact Hpre]; by apply prefix_app_r|]. split.
      * intros Hnd0. apply Hnd. apply NoDup_app. split; [done|].
        split; [|apply NoDup_singleton].
        intros x Hx ->%list_elem_of_singleton. done.
      * intros x Hx. destruct (Hmem x Hx) as [Hin|Hin]; [|by right].
        apply elem_of_app in Hin as [Hin| ->%list_elem_of_singleton]; [by left|].
        right. destruct Hv as [?|(r' & d' & ip' & [= <- <- <-] & Hin)]; done.
Qed.

(** What one wave does. *)
Lemma _sendPcpRequests_effect env intPort extPort lifetime cacheArg routerIps m w :
  exists m' w',
    run (Pcp._sendPcpRequests env intPort extPort lifetime cacheArg routerIps m) w
      = (Ok m', w') /\
    keepsRegistry w w' /\
    evolves m m' /\
    (routerIpCache w `prefix_of` routerIpCache w') /\
    (NoDup (routerIpCache w) -> NoDup (routerIpCache w')) /\
    (forall x, x ∈ routerIpCache w' -> x ∈ routerIpCache w \/ Some x ∈ routerIps) /\
    (0 <= intPort < 65536 -> 0 <= extPort < 65536 ->
     0 <= Pcp.reqLifetime lifetime < 4294967296 ->
     sentAll (isMapRequest intPort extPort (Pcp.reqLifetime lifetime)) w w').
Proof.
  unfold Pcp._sendPcpRequests. cbn [run]. rewrite run_bind, run_getPrivateIps.
  destruct (0 <? _).
  2:{ eexists _, _. split; [reflexivity|].
      split; [by repeat split|]. split; [apply evolves_refl|].
      split; [done|]. split; [done|]. split; [by left|]. intros; apply sentAll_refl. }
  pose proof (promiseAllMap_preorder onlyNetwork
    (Pcp.requestFrom env intPort extPort lifetime (gatheredIps env))
    onlyNetwork_refl onlyNetwork_trans
    (fun x w => proj1 (requestFrom_effect env intPort extPort lifetime _ x w))
    routerIps w) as Hnet.
  assert (0 <= intPort < 65536 -> 0 <= extPort < 65536 ->
          0 <= Pcp.reqLifetime lifetime < 4294967296 ->
          sentAll (isMapRequest intPort extPort (Pcp.reqLifetime lifetime)) w
            (run (promiseAllMap (Pcp.requestFrom env intPort extPort lifetime
                                   (gatheredIps env)) routerIps) w).2) as Hsent.
  { intros Hi He Hl.
    apply (promiseAllMap_preorder
             (sentAll (isMapRequest intPort extPort (Pcp.reqLifetime lifetime)))).
    - apply sentAll_refl.
    - apply sentAll_trans.
    - intros x w0.
      by apply (proj2 (requestFrom_effect env intPort extPort lifetime _ x w0)). }
  destruct (run (promiseAllMap _ routerIps) w) as [[responses|e] w1] eqn:Erun.
  2:{ eexists _, _. split; [reflexivity|]. simpl in Hnet, Hsent.
      split; [by apply onlyNetwork_keepsRegistry|]. split; [apply evolves_refl|].
      destruct Hnet as (_ & -> & _). split; [done|]. split; [done|].
      split; [by left | done]. }
  simpl in Hnet, Hsent.
  assert (Forall (fun v => v = None \/
            exists r data ip, v = Some (r, data, ip) /\ Some r ∈ routerIps) responses)
    as Hresp.
  { pose proof (promiseAllMap_results
      (fun routerIp y => y = None \/ exists r data ip buffer,
         y = Some (r, data, ip) /\ routerIp = Some r /\ routerReply env r buffer = Some data)
      (Pcp.requestFrom env intPort extPort lifetime (gatheredIps env))
      (requestFrom_result env intPort extPort lifetime (gatheredIps env))
      routerIps w responses w1 Erun) as Hall.
    clear -Hall. induction Hall as [|x y l ys Hxy Hrest IH]; [constructor|].
    constructor.
    - destruct Hxy as [->|(r & data & ip & buffer & -> & -> & _)]; [by left|].
      right. exists r, data, ip. split; [done | left].
    - eapply Forall_impl; [exact IH|]. intros v [->|(r & d & ip & -> & Hin)]; [by left|].
      right. exists r, d, ip. split; [done | by right]. }
  destruct (forEach (Pcp.adoptResponse cacheArg) responses (m, routerIpCache w1))
    as [[m' cache'] err] eqn:Efor.
  destruct (forEach_adopt cacheArg routerIps responses Hresp _ _ _ _ _ Efor)
    as (Hev & Hpre & Hnd & Hmem).
  destruct Hnet as (A & B & C & D & E). rewrite B in Hpre, Hnd, Hmem.
  eexists _, _. split; [reflexivity|].
  split; [by repeat split|]. split; [done|]. split; [done|]. split; [done|].
  split; [done|]. intros Hi He Hl. destruct (Hsent Hi He Hl) as (extra & Hx & HF).
  by exists extra.
Qed.

End AddSteps.

(** ** pcp.addMapping as a whole *)

Module AddMore.
Import Utils PcpFrames AddSteps.

Lemma NoDup_ROUTER_IPS : NoDup ROUTER_IPS.
Proof. apply (bool_decide_unpack _). vm_compute. exact I. Qed.

Lemma gathered_nonempty env :
  gatheredIps env ≠ [] -> (0 <? Z.of_nat (length (gatheredIps env))) = true.
Proof. intros H. apply Z.ltb_lt. destruct (gatheredIps env); [done | simpl; lia]. Qed.

Lemma gathered_empty env :
  gatheredIps env = [] -> (0 <? Z.of_nat (length (gatheredIps env))) = false.
Proof. by intros ->. Qed.

(** The first wave computed for the addresses the host gathered. *)
Lemma matched_for_gathered env cache :
  exists lpms,
    Pcp.matchedRouterIps cache (gatheredIps env)
      = Ok (firstOccurrences ((Some <$> cache) ++ lpms)) /\
    Forall (fun r => exists s, r = Some s /\ s ∈ ROUTER_IPS) lpms.
Proof.
  destruct (Waves.filterRouterIps_ok _ (Waves.gatheredIps_valid env)) as (lpms & Hf & Hall).
  exists lpms. split.
  - unfold Pcp.matchedRouterIps. rewrite Hf. cbn.
    by rewrite Waves.arrAdd_firstOccurrences.
  - by eapply WaveStrategy.filterRouterIps_members; [apply Waves.gatheredIps_valid|].
Qed.

(** X10. Whatever the cache and the private IPs, the two waves together
    name no router twice, the first wave holds every cache entry, and every
    entry of ROUTER_IPS is in one of the waves; a candidate is always a
    cache entry or an entry of ROUTER_IPS, never undefined. *)
Theorem waves_cover_each_router_once cache privateIps matched :
  Pcp.matchedRouterIps cache privateIps = Ok matched ->
  let other := Pcp.otherRouterIps matched in
  NoDup (matched ++ other) /\
  (forall c, c ∈ cache -> Some c ∈ matched) /\
  (forall r, r ∈ ROUTER_IPS -> Some r ∈ matched ++ other) /\
  (forall x, x ∈ matched ++ other ->
     exists s, x = Some s /\ (s ∈ cache \/ s ∈ ROUTER_IPS)).
Proof.
  intros Hm other. unfold Pcp.matchedRouterIps in Hm.
  destruct (filterRouterIps privateIps) as [lpms|e] eqn:Ef; [|discriminate].
  cbn in Hm. injection Hm as <-.
  destruct (IpMore.filterRouterIps_one_router_each' _ _ Ef) as (_ & _ & _ & Hlpms).
  subst other. rewrite Waves.arrAdd_firstOccurrences.
  unfold Pcp.otherRouterIps. rewrite Waves.arrDiff_filter.
  set (matched := firstOccurrences ((Some <$> cache) ++ lpms)).
  assert (forall x, x ∈ matched <-> x ∈ (Some <$> cache) \/ x ∈ lpms) as Hmem.
  { intros x. subst matched. by rewrite Waves.elem_of_firstOccurrences, elem_of_app. }
  split; [|split; [|split]].
  - apply NoDup_app. split; [apply Waves.NoDup_firstOccurrences|]. split.
    + intros x Hx Hx'. apply list_elem_of_filter in Hx' as [Hn _]. exact (Hn Hx).
    + apply NoDup_filter, NoDup_fmap_2; [|apply NoDup_ROUTER_IPS].
      intros a b. congruence.
  - intros c Hc. apply Hmem. left. by apply list_elem_of_fmap_2.
  - intros r Hr. apply elem_of_app.
    destruct (decide (Some r ∈ matched)) as [Hin|Hout]; [by left|].
    right. apply list_elem_of_filter. split; [done|]. by apply list_elem_of_fmap_2.
  - intros x [Hx|Hx]%elem_of_app.
    + apply Hmem in Hx as [Hx|Hx].
      * apply list_elem_of_fmap in Hx as (s & -> & Hs). eauto.
      * rewrite Forall_forall in Hlpms. destruct (Hlpms x Hx) as (s & -> & Hs). eauto.
    + apply list_elem_of_filter in Hx as [_ Hx].
      apply list_elem_of_fmap in Hx as (s & -> & Hs). eauto.
Qed.

Lemma waves_cover_each_router_once_witness :
  let matched := [Some "192.168.4.1"%string; Some "192.168.1.1"%string] in
  let other := Pcp.otherRouterIps matched in
  NoDup (matched ++ other) /\
  (forall c, c ∈ ["192.168.4.1"%string] -> Some c ∈ matched) /\
  (forall r, r ∈ ROUTER_IPS -> Some r ∈ matched ++ other) /\
  (forall x, x ∈ matched ++ other ->
     exists s, x = Some s /\ (s ∈ ["192.168.4.1"%string] \/ s ∈ ROUTER_IPS)).
Proof.
  apply (waves_cover_each_router_once ["192.168.4.1"%string] ["192.168.1.42"%string]).
  vm_compute. reflexivity.
Defined.

(** What the two waves do. *)
Lemma waves_effect env intPort extPort lifetime m w :
  match run (Pcp._sendPcpRequestsInWaves env intPort extPort lifetime CacheRef m) w with
  | (Throw e, w') =>
      w' = w /\ e = Error "getPrivateIps() failed" /\ gatheredIps env = []
  | (Ok m', w') =>
      gatheredIps env ≠ [] /\
      keepsRegistry w w' /\
      evolves m m' /\
      (routerIpCache w `prefix_of` routerIpCache w') /\
      (NoDup (routerIpCache w) -> NoDup (routerIpCache w')) /\
      (forall x, x ∈ routerIpCache w' -> x ∈ routerIpCache w \/ x ∈ ROUTER_IPS) /\
      (0 <= intPort < 65536 -> 0 <= extPort < 65536 ->
       0 <= Pcp.reqLifetime lifetime < 4294967296 ->
       sentAll (isMapRequest intPort extPort (Pcp.reqLifetime lifetime)) w w')
  end.
Proof.
  unfold Pcp._sendPcpRequestsInWaves. rewrite run_bind, run_getPrivateIps.
  destruct (gatheredIps env) as [|ip0 ips] eqn:Eg; [done|].
  rewrite <- Eg in *. rewrite gathered_nonempty by (rewrite Eg; done).
  rewrite run_bind. cbn [run].
  destruct (matched_for_gathered env (routerIpCache w)) as (lpms & Hm & Hlpms).
  rewrite Hm. set (matched := firstOccurrences _) in *.
  assert (forall x, Some x ∈ matched -> x ∈ routerIpCache w \/ x ∈ ROUTER_IPS) as Hmatched.
  { intros x Hx. subst matched.
    apply Waves.elem_of_firstOccurrences, elem_of_app in Hx as [Hx|Hx].
    - apply list_elem_of_fmap in Hx as (s & [= ->] & Hs). by left.
    - rewrite Forall_forall in Hlpms. destruct (Hlpms _ Hx) as (s & [= ->] & Hs).
      by right. }
  rewrite run_bind.
  destruct (_sendPcpRequests_effect env intPort extPort lifetime CacheRef matched m w)
    as (m1 & w1 & -> & Hk1 & He1 & Hp1 & Hn1 & Hc1 & Hs1).
  assert (forall x, x ∈ routerIpCache w1 -> x ∈ routerIpCache w \/ x ∈ ROUTER_IPS) as Hc1'.
  { intros x Hx. destruct (Hc1 x Hx) as [?|?]; [by left | by apply Hmatched]. }
  destruct (bool_decide (externalPort m1 ≠ -1)).
  - cbn. split; [by rewrite Eg|]. by repeat (split; [done|]).
  - destruct (_sendPcpRequests_effect env intPort extPort lifetime CacheRef
                (Pcp.otherRouterIps matched) m1 w1)
      as (m2 & w2 & -> & Hk2 & He2 & Hp2 & Hn2 & Hc2 & Hs2).
    split; [by rewrite Eg|].
    split; [by eapply keepsRegistry_trans|].
    split; [by eapply evolves_trans|].
    split; [by etrans|]. split; [eauto|]. split.
    + intros x Hx. destruct (Hc2 x Hx) as [Hin|Hin]; [by apply Hc1'|].
      right. unfold Pcp.otherRouterIps in Hin. rewrite Waves.arrDiff_filter in Hin.
      apply list_elem_of_filter in Hin as [_ Hin].
      by apply list_elem_of_fmap in Hin as (s & [= ->] & Hs).
    + intros Hi He Hl. eapply sentAll_trans; eauto.
Qed.

(** What _saveAndRefreshMapping does. *)
Lemma save_effect intPort lifetime cacheArg m w :
  exists m2 w2,
    run (Pcp._saveAndRefreshMapping intPort lifetime cacheArg m) w = (Ok m2, w2) /\
    routerIpCache w2 = routerIpCache w /\
    protocolSupportCache w2 = protocolSupportCache w /\
    sent w2 = sent w /\
    (externalPort m = -1 -> m2 = m /\ w2 = w) /\
    (externalPort m ≠ -1 ->
       activeMappings w2 = <[externalPort m := m2]> (activeMappings w) /\
       externalPort m2 = externalPort m /\ internalPort m2 = internalPort m /\
       internalIp m2 = internalIp m /\ externalIp m2 = externalIp m /\
       Mapping.lifetime m2 = Mapping.lifetime m /\ protocol m2 = protocol m /\
       nonce m2 = nonce m /\ errInfo m2 = errInfo m /\
       deleter m2 = Some (PcpDeleter (externalPort m) cacheArg) /\
       exists t,
         timers w2 = timers w ++ [t] /\ timerId t = nextTimeoutId w /\
         nextTimeoutId w2 = S (nextTimeoutId w) /\
         (timeoutId m2 = Some (timerId t) \/
          timeoutId m2 = timeoutId m /\ action t = Evict (externalPort m))).
Proof.
  unfold Pcp._saveAndRefreshMapping. cbn [run].
  destruct (decide (externalPort m = -1)) as [Heq|Hne].
  - rewrite bool_decide_eq_false_2 by (intros Hn; by apply Hn). cbn.
    eexists _, _. split; [reflexivity|]. by repeat split.
  - rewrite bool_decide_eq_true_2 by done. cbn [andb].
    destruct (Pcp.greaterThanZero _); [|destruct (lifetime =? 0)]; cbn;
      eexists _, _; (split; [reflexivity|]); cbn;
      (split; [done|]); (split; [done|]); (split; [done|]);
      (split; [done|]); intros _; repeat (split; [done|]);
      eexists; repeat (split; [done|]); eauto.
Qed.

(** X11. When no router answers, pcp.addMapping still resolves: with a
    Mapping for the internal port whose externalPort is -1, after using
    nothing but the network.  The registry, the router-IP cache, the
    protocol-support cache and the timers are as before. *)
Theorem addMapping_no_reply env intPort extPort lifetime w :
  gatheredIps env ≠ [] ->
  (forall routerIp request, routerReply env routerIp request = None) ->
  exists w',
    run (Pcp.addMapping env intPort extPort lifetime CacheRef) w
      = (Ok (mkMapping None None (Some intPort) (-1) None (Some pcp) None None None None),
         w') /\
    onlyNetwork w w'.
Proof.
  intros Hg Hsilent.
  assert (forall routerIps m w0,
            exists w1,
              run (Pcp._sendPcpRequests env intPort extPort lifetime CacheRef routerIps m) w0
                = (Ok m, w1) /\ onlyNetwork w0 w1) as Hwave.
  { intros routerIps m w0. unfold Pcp._sendPcpRequests. cbn [run].
    rewrite run_bind, run_getPrivateIps. destruct (0 <? _);
      [|eexists; split; [reflexivity | apply onlyNetwork_refl]].
    pose proof (promiseAllMap_preorder onlyNetwork
      (Pcp.requestFrom env intPort extPort lifetime (gatheredIps env))
      onlyNetwork_refl onlyNetwork_trans
      (fun x w => proj1 (requestFrom_effect env intPort extPort lifetime _ x w))
      routerIps w0) as Hnet.
    destruct (run (promiseAllMap _ routerIps) w0) as [[responses|e] w1] eqn:Erun;
      simpl in Hnet; [|eexists; split; [reflexivity | exact Hnet]].
    assert (Forall (fun v => v = None) responses) as Hnone.
    { pose proof (promiseAllMap_results (fun _ y => y = None)
        (Pcp.requestFrom env intPort extPort lifetime (gatheredIps env))) as Hres.
      eapply Forall2_Forall_r; [eapply Hres; [|exact Erun]|].
      - intros x w2 y w3 Hy.
        destruct (requestFrom_result _ _ _ _ _ _ _ _ _ Hy)
          as [->|(r & data & ip & buffer & _ & _ & Hr)]; [done|].
        by rewrite Hsilent in Hr.
      - apply Forall_true. done. }
    assert (forEach (Pcp.adoptResponse CacheRef) responses (m, routerIpCache w1)
            = ((m, routerIpCache w1), None)) as ->.
    { clear -Hnone. induction Hnone as [|v rs -> _ IH]; [done|]. cbn. exact IH. }
    eexists. split; [reflexivity|]. destruct Hnet as (A & B & C & D & E).
    by repeat split. }
  unfold Pcp.addMapping. rewrite run_bind.
  unfold Pcp._sendPcpRequestsInWaves. rewrite run_bind, run_getPrivateIps.
  rewrite gathered_nonempty by done. rewrite run_bind. cbn [run].
  destruct (matched_for_gathered env (routerIpCache w)) as (lpms & -> & _).
  rewrite run_bind.
  destruct (Hwave (firstOccurrences ((Some <$> routerIpCache w) ++ lpms))
              (mkMapping None None (Some intPort) (-1) None (Some pcp) None None None None)
              w) as (w1 & -> & Hn1).
  cbn [externalPort]. rewrite bool_decide_eq_false_2 by (intros Hn; by apply Hn).
  destruct (Hwave (Pcp.otherRouterIps (firstOccurrences ((Some <$> routerIpCache w) ++ lpms)))
              (mkMapping None None (Some intPort) (-1) None (Some pcp) None None None None)
              w1) as (w2 & -> & Hn2).
  exists w2. split; [reflexivity|]. by eapply onlyNetwork_trans.
Qed.

(** The host 192.168.1.42 on a network where nothing answers. *)
Lemma addMapping_no_reply_witness :
  exists w',
    run (Pcp.addMapping Scenario.silentNetwork 4000 4000 7200 CacheRef) newPortControl
      = (Ok (mkMapping None None (Some 4000) (-1) None (Some pcp) None None None None),
         w') /\
    onlyNetwork newPortControl w'.
Proof.
  apply (addMapping_no_reply Scenario.silentNetwork 4000 4000 7200 newPortControl).
  - vm_compute. discriminate.
  - intros routerIp request. reflexivity.
Defined.

(** The timer _saveAndRefreshMapping arms for a mapping that succeeded. *)
Lemma save_timer intPort lifetime cacheArg m w granted :
  externalPort m ≠ -1 ->
  Mapping.lifetime m = Some granted ->
  exists m2 w2,
    run (Pcp._saveAndRefreshMapping intPort lifetime cacheArg m) w = (Ok m2, w2) /\
    (granted < Pcp.reqLifetime lifetime ->
       timers w2 = timers w ++ [mkTimer (nextTimeoutId w) (granted * 1000)
                                  (RefreshPcp intPort (externalPort m)
                                              (Pcp.reqLifetime lifetime - granted))] /\
       timeoutId m2 = Some (nextTimeoutId w)) /\
    (Pcp.reqLifetime lifetime <= granted -> lifetime = 0 ->
       timers w2 = timers w ++ [mkTimer (nextTimeoutId w) (24 * 60 * 60 * 1000)
                                  (RefreshPcp intPort (externalPort m) 0)] /\
       timeoutId m2 = Some (nextTimeoutId w)) /\
    (Pcp.reqLifetime lifetime <= granted -> lifetime ≠ 0 ->
       timers w2 = timers w ++ [mkTimer (nextTimeoutId w) (granted * 1000)
                                  (Evict (externalPort m))] /\
       timeoutId m2 = timeoutId m).
Proof.
  intros Hext Hl. unfold Pcp._saveAndRefreshMapping. cbn [run].
  rewrite Hl. cbn [fmap option_fmap option_map Pcp.greaterThanZero default].
  rewrite bool_decide_eq_true_2 by exact Hext. cbn [andb]. unfold Pcp.lifetimeMs.
  rewrite Hl.
  destruct (0 <? Pcp.reqLifetime lifetime - granted) eqn:Ed;
    [apply Z.ltb_lt in Ed | apply Z.ltb_ge in Ed; destruct (lifetime =? 0) eqn:E0;
                            [apply Z.eqb_eq in E0 | apply Z.eqb_neq in E0]];
    cbn; eexists _, _; (split; [reflexivity|]); cbn;
    (split; [intros; try lia; done|]); (split; intros; try lia; done).
Qed.

(** *** Where the fields of the Mapping come from *)

Lemma sentSince_later w1 w2 w3 d :
  sentSince w1 w2 d -> sentAll (fun _ => True) w2 w3 -> sentSince w1 w3 d.
Proof.
  intros (e1 & H1 & Hd) (e2 & H2 & _). exists (e1 ++ e2). split.
  - by rewrite H2, H1, app_assoc.
  - apply elem_of_app. by left.
Qed.

Lemma sentSince_earlier w1 w2 w3 d :
  sentAll (fun _ => True) w1 w2 -> sentSince w2 w3 d -> sentSince w1 w3 d.
Proof.
  intros (e1 & H1 & _) (e2 & H2 & Hd). exists (e1 ++ e2). split.
  - by rewrite H2, H1, app_assoc.
  - apply elem_of_app. by right.
Qed.

Lemma requestFrom_ext env intPort extPort lifetime privateIps routerIp w :
  sentAll (fun _ => True) w
    (run (Pcp.requestFrom env intPort extPort lifetime privateIps routerIp) w).2.
Proof.
  unfold Pcp.requestFrom. destruct routerIp as [r|]; [|apply sentAll_refl].
  rewrite run_bind. cbn [run liftResult].
  destruct (longestPrefixMatch privateIps r) as [privateIp|err]; [|apply sentAll_refl].
  rewrite run_bind.
  pose proof (sendPcpRequest_sentAll env (fun _ => True) r privateIp intPort extPort
                (Pcp.reqLifetime lifetime) None w (fun _ _ _ _ _ _ => I)) as Hs.
  by destruct (run (Pcp.sendPcpRequest _ _ _ _ _ _ _) w) as [[resp|err] w1].
Qed.

(** A reply handed on by one element of the fan-out is the router's answer
    to the request that element sent. *)
Lemma requestFrom_reply env intPort extPort lifetime privateIps routerIp w y w' :
  run (Pcp.requestFrom env intPort extPort lifetime privateIps routerIp) w = (Ok y, w') ->
  y = None \/
  exists r data ip request,
    y = Some (r, data, ip) /\ routerReply env r request = Some data /\
    sentSince w w' (r, 5351, request).
Proof.
  unfold Pcp.requestFrom. destruct routerIp as [r|]; [|discriminate].
  rewrite run_bind. cbn [run liftResult].
  destruct (longestPrefixMatch privateIps r) as [privateIp|err]; [|discriminate].
  rewrite run_bind.
  destruct (sendPcpRequest_run env r privateIp intPort extPort
              (Pcp.reqLifetime lifetime) None w) as (n & w1 & _ & Hsent & _ & ->).
  destruct privateIp as [ip|]; [|discriminate].
  destruct (IPv4_parse ip) as [octets|err]; [|discriminate].
  destruct (Pcp.pcpBuffer _ _ _ _ _) as [buffer|err]; cbn.
  - destruct (routerReply env r buffer) as [data|] eqn:Er; intros [= <- <-]; [|by left].
    right. exists r, data, (Some ip), buffer. split; [done|]. split; [done|].
    exists [(r, 5351, buffer)]. split; [cbn; by rewrite Hsent|].
    by apply list_elem_of_singleton.
  - intros [= <- <-]. by left.
Qed.

Lemma promiseAllMap_replies env intPort extPort lifetime privateIps routerIps :
  forall w responses w',
    run (promiseAllMap (Pcp.requestFrom env intPort extPort lifetime privateIps)
                       routerIps) w = (Ok responses, w') ->
    Forall (fun y => y = None \/
              exists r data ip request,
                y = Some (r, data, ip) /\ routerReply env r request = Some data /\
                sentSince w w' (r, 5351, request)) responses.
Proof.
  induction routerIps as [|x rest IH]; intros w responses w' H; simpl promiseAllMap in H.
  - cbn in H. injection H as <- _. constructor.
  - rewrite run_bind in H.
    destruct (run (Pcp.requestFrom env intPort extPort lifetime privateIps x) w)
      as [[y|err] w1] eqn:Ex; [|discriminate].
    rewrite run_bind in H.
    destruct (run (promiseAllMap _ rest) w1) as [[ys|err] w2] eqn:Erest; [|discriminate].
    cbn in H. injection H as <- <-.
    pose proof (requestFrom_ext env intPort extPort lifetime privateIps x w) as Hx.
    rewrite Ex in Hx. cbn [snd] in Hx.
    pose proof (promiseAllMap_preorder (sentAll (fun _ => True))
                  (Pcp.requestFrom env intPort extPort lifetime privateIps)
                  (sentAll_refl _) (sentAll_trans _)
                  (requestFrom_ext env intPort extPort lifetime privateIps) rest w1) as Hr.
    rewrite Erest in Hr. cbn [snd] in Hr.
    constructor.
    + destruct (requestFrom_reply _ _ _ _ _ _ _ _ _ Ex)
        as [->|(r & data & ip & request & -> & Hreply & Hs)]; [by left|].
      right. exists r, data, ip, request. split; [done|]. split; [done|].
      by eapply sentSince_later.
    + eapply Forall_impl; [exact (IH _ _ _ Erest)|].
      intros v [->|(r & data & ip & request & -> & Hreply & Hs)]; [by left|].
      right. exists r, data, ip, request. split; [done|]. split; [done|].
      by eapply sentSince_earlier.
Qed.

(** A reply that is adopted fills the fields in from its bytes. *)
Lemma adoptResponse_readFrom cacheArg r data ip m cache m' cache' err :
  Pcp.adoptResponse cacheArg (Some (r, data, ip)) (m, cache) = ((m', cache'), err) ->
  m' = m \/ readFrom data ip m'.
Proof.
  unfold Pcp.adoptResponse.
  destruct (getUint8 data 56) as [o0|e0] eqn:E0; cbn [mbind Result_bind];
    [|intros [= <- <- <-]; by left].
  destruct (getUint8 data 57) as [o1|e1] eqn:E1; cbn [mbind Result_bind];
    [|intros [= <- <- <-]; by left].
  destruct (getUint8 data 58) as [o2|e2] eqn:E2; cbn [mbind Result_bind];
    [|intros [= <- <- <-]; by left].
  destruct (getUint8 data 59) as [o3|e3] eqn:E3; cbn [mbind Result_bind];
    [|intros [= <- <- <-]; by left].
  destruct (getUint16 data 42) as [p|ep] eqn:Ep; cbn [mbind Result_bind];
    [|intros [= <- <- <-]; by left].
  destruct (getUint32 data 4) as [l|el] eqn:El; cbn [mbind Result_bind];
    [|intros [= <- <- <-]; by left].
  destruct (getUint32 data 24) as [n0|en0] eqn:En0; cbn [mbind Result_bind];
    [|intros [= <- <- <-]; by left].
  destruct (getUint32 data 28) as [n1|en1] eqn:En1; cbn [mbind Result_bind];
    [|intros [= <- <- <-]; by left].
  destruct (getUint32 data 32) as [n2|en2] eqn:En2; cbn [mbind Result_bind];
    [|intros [= <- <- <-]; by left].
  intros H. right.
  assert (m' = mkMapping ip (Some (Pcp.joinDots [o0; o1; o2; o3])) (internalPort m) p
                         (Some l) (protocol m) (timeoutId m) (Some (n0, n1, n2))
                         (deleter m) (errInfo m)) as ->.
  { destruct cacheArg; [destruct (indexOf cache r =? -1)|]; by injection H as <- _ _. }
  clear H. unfold readFrom.
  cbn [externalPort Mapping.lifetime nonce externalIp internalIp].
  split; [exact Ep|]. split; [by exists l|].
  split; [exists n0, n1, n2; by rewrite En0, En1, En2|].
  split; [exists o0, o1, o2, o3; by rewrite E0, E1, E2, E3 | done].
Qed.

Lemma forEach_readFrom cacheArg responses : forall m cache m' cache' err,
  forEach (Pcp.adoptResponse cacheArg) responses (m, cache) = ((m', cache'), err) ->
  m' = m \/ exists r data ip, Some (r, data, ip) ∈ responses /\ readFrom data ip m'.
Proof.
  induction responses as [|v rest IH]; intros m cache m' cache' err H; cbn [forEach] in H.
  - injection H as <- _ _. by left.
  - destruct (Pcp.adoptResponse cacheArg v (m, cache)) as [[m1 c1] [e|]] eqn:Estep.
    + injection H as <- <- _. destruct v as [[[r data] ip]|]; [|discriminate].
      destruct (adoptResponse_readFrom _ _ _ _ _ _ _ _ _ Estep) as [->|Hr]; [by left|].
      right. exists r, data, ip. split; [left | done].
    + destruct (IH _ _ _ _ _ H) as [->|(r & data & ip & Hin & Hr)].
      * destruct v as [[[r data] ip]|].
        -- destruct (adoptResponse_readFrom _ _ _ _ _ _ _ _ _ Estep) as [->|Hr];
             [by left|].
           right. exists r, data, ip. split; [left | done].
        -- cbn in Estep. injection Estep as <- _. by left.
      * right. exists r, data, ip. split; [by right | done].
Qed.

(** After a wave the Mapping is as before or carries a reply of the wave. *)
Lemma wave_carries env intPort extPort lifetime routerIps m w m' w' :
  run (Pcp._sendPcpRequests env intPort extPort lifetime CacheRef routerIps m) w
    = (Ok m', w') ->
  sentAll (fun _ => True) w w' /\ (m' = m \/ carriesReply env w w' m').
Proof.
  unfold Pcp._sendPcpRequests. cbn [run]. rewrite run_bind, run_getPrivateIps.
  destruct (0 <? _); [|intros [= <- <-]; split; [apply sentAll_refl | by left]].
  pose proof (promiseAllMap_preorder (sentAll (fun _ => True))
                (Pcp.requestFrom env intPort extPort lifetime (gatheredIps env))
                (sentAll_refl _) (sentAll_trans _)
                (requestFrom_ext env intPort extPort lifetime (gatheredIps env))
                routerIps w) as Hext.
  destruct (run (promiseAllMap _ routerIps) w) as [[responses|err] w1] eqn:Erun;
    cbn [snd] in Hext; [|intros [= <- <-]; split; [done | by left]].
  pose proof (promiseAllMap_replies _ _ _ _ _ _ _ _ _ Erun) as Hrep.
  destruct (forEach (Pcp.adoptResponse CacheRef) responses (m, routerIpCache w1))
    as [[m2 c2] err] eqn:Efor.
  intros [= <- <-]. split; [exact Hext|].
  destruct (forEach_readFrom _ _ _ _ _ _ _ Efor) as [->|(r & data & ip & Hin & Hr)];
    [by left|].
  right. rewrite Forall_forall in Hrep.
  destruct (Hrep _ Hin) as [?|(r' & data' & ip' & request & [= <- <- <-] & Hreply & Hs)];
    [done|].
  by exists r, request, data, ip.
Qed.

Lemma waves_carries env intPort extPort lifetime m w m' w' :
  run (Pcp._sendPcpRequestsInWaves env intPort extPort lifetime CacheRef m) w
    = (Ok m', w') ->
  m' = m \/ carriesReply env w w' m'.
Proof.
  unfold Pcp._sendPcpRequestsInWaves. rewrite run_bind, run_getPrivateIps.
  destruct (gatheredIps env) as [|ip0 ips] eqn:Eg; [discriminate|].
  rewrite <- Eg in *. rewrite gathered_nonempty by (rewrite Eg; done).
  rewrite run_bind. cbn [run].
  destruct (matched_for_gathered env (routerIpCache w)) as (lpms & -> & _).
  rewrite run_bind.
  destruct (run (Pcp._sendPcpRequests env intPort extPort lifetime CacheRef _ m) w)
    as [[m1|err] w1] eqn:E1; [|discriminate].
  destruct (wave_carries _ _ _ _ _ _ _ _ _ E1) as [Hext1 H1].
  destruct (bool_decide (externalPort m1 ≠ -1)); [by intros [= <- <-]|].
  intros E2. destruct (wave_carries _ _ _ _ _ _ _ _ _ E2) as [Hext2 [->|H2]].
  - destruct H1 as [->|(r & request & data & ip & Hs & Hreply & Hr)]; [by left|].
    right. exists r, request, data, ip. split; [by eapply sentSince_later | done].
  - destruct H2 as (r & request & data & ip & Hs & Hreply & Hr).
    right. exists r, request, data, ip. split; [by eapply sentSince_earlier | done].
Qed.

(** X12. What a resolved pcp.addMapping leaves behind.  The Mapping is for
    the internal port asked and for protocol pcp.  Either its externalPort
    is -1 and the registry and the timers are as before; or the Mapping
    returned is the one now registered under its external port, it carries
    the PCP deleter for that port, exactly one timer was armed, and its
    external port, lifetime, nonce and external IP are the ones read from
    the reply that a router gave to one of the requests this call sent.
    The promise rejects only when no private IP was gathered, and then
    nothing has changed. *)
Theorem addMapping_postcondition env intPort extPort lifetime w :
  match run (Pcp.addMapping env intPort extPort lifetime CacheRef) w with
  | (Throw e, w') => w' = w /\ gatheredIps env = []
  | (Ok m, w') =>
      internalPort m = Some intPort /\ protocol m = Some pcp /\ errInfo m = None /\
      protocolSupportCache w' = protocolSupportCache w /\
      (externalPort m = -1 /\ deleter m = None /\ timeoutId m = None /\
       activeMappings w' = activeMappings w /\ timers w' = timers w
       \/
       externalPort m ≠ -1 /\ carriesReply env w w' m /\
       deleter m = Some (PcpDeleter (externalPort m) CacheRef) /\
       activeMappings w' = <[externalPort m := m]> (activeMappings w) /\
       exists t, timers w' = timers w ++ [t] /\ timerId t = nextTimeoutId w)
  end.
Proof.
  unfold Pcp.addMapping. rewrite run_bind.
  set (m0 := mkMapping None None (Some intPort) (-1) None (Some pcp) None None None None).
  pose proof (waves_effect env intPort extPort lifetime m0 w) as Hwaves.
  destruct (run (Pcp._sendPcpRequestsInWaves env intPort extPort lifetime CacheRef m0) w)
    as [[m1|e] w1] eqn:Ewaves; [|by destruct Hwaves as (-> & _ & Hg)].
  destruct Hwaves as (_ & (Ha & Hp & Ht & Hn) & (Hip & Hpr & Hti & Hde & Her & _) & _).
  pose proof (waves_carries _ _ _ _ _ _ _ _ Ewaves) as Hfrom.
  destruct (save_effect intPort lifetime CacheRef m1 w1)
    as (m2 & w2 & -> & _ & Hp2 & Hs2 & Hfail & Hok).
  destruct (decide (externalPort m1 = -1)) as [Heq|Hne].
  - destruct (Hfail Heq) as [-> ->].
    split; [by rewrite Hip|]. split; [by rewrite Hpr|]. split; [by rewrite Her|].
    split; [done|]. left. split; [done|]. split; [by rewrite Hde|].
    split; [by rewrite Hti|]. done.
  - destruct (Hok Hne) as (Hreg & He2 & Hi2 & Hii2 & Hei2 & Hl2 & Hpr2 & Hno2 & Her2 & Hd2
                           & t & Htm & Hid & _ & _).
    split; [by rewrite Hi2, Hip|]. split; [by rewrite Hpr2, Hpr|].
    split; [by rewrite Her2, Her|]. split; [by rewrite Hp2|]. right.
    split; [by rewrite He2|]. split.
    { destruct Hfrom as [->|(r & request & data & ip & Hs & Hreply & Hr)]; [done|].
      exists r, request, data, ip. split.
      - destruct Hs as (extra & Hx & Hin). exists extra. by rewrite Hs2.
      - split; [done|]. unfold readFrom in Hr |- *.
        by rewrite He2, Hl2, Hno2, Hei2, Hii2. }
    split; [by rewrite He2|]. split; [by rewrite He2, Hreg, Ha|].
    exists t. by rewrite Htm, Hid, Ht, Hn.
Qed.

(** X13. Every datagram pcp.addMapping sends is a 60-byte PCP MAP request
    to port 5351 that carries the internal port and the suggested external
    port it was called with, and the lifetime asked: 86400 seconds when the
    caller passed 0. *)
Theorem addMapping_requests env intPort extPort lifetime w :
  0 <= intPort < 65536 -> 0 <= extPort < 65536 -> 0 <= lifetime < 4294967296 ->
  sentAll (isMapRequest intPort extPort (if lifetime =? 0 then 86400 else lifetime))
          w (run (Pcp.addMapping env intPort extPort lifetime CacheRef) w).2.
Proof.
  intros Hi He Hl. unfold Pcp.addMapping. rewrite run_bind.
  set (m0 := mkMapping None None (Some intPort) (-1) None (Some pcp) None None None None).
  pose proof (waves_effect env intPort extPort lifetime m0 w) as Hwaves.
  destruct (run (Pcp._sendPcpRequestsInWaves env intPort extPort lifetime CacheRef m0) w)
    as [[m1|e] w1]; [|destruct Hwaves as (-> & _); apply sentAll_refl].
  destruct Hwaves as (_ & _ & _ & _ & _ & _ & Hsent).
  destruct (save_effect intPort lifetime CacheRef m1 w1)
    as (m2 & w2 & -> & _ & _ & Hs2 & _).
  eapply sentAll_trans; [|by apply sentAll_same].
  apply Hsent; [done | done |].
  unfold Pcp.reqLifetime. destruct (lifetime =? 0); lia.
Qed.

(** Internal port 4000, external port 4001, lifetime 0 on the home network. *)
Lemma addMapping_requests_witness :
  sentAll (isMapRequest 4000 4001 86400) newPortControl
    (run (Pcp.addMapping (Scenario.homeNetwork 0 8 120 4001) 4000 4001 0 CacheRef)
         newPortControl).2.
Proof.
  apply (addMapping_requests (Scenario.homeNetwork 0 8 120 4001) 4000 4001 0
           newPortControl); lia.
Defined.

(** X14. pcp.addMapping only ever appends to the router-IP cache: the
    routers known before stay at the front in their order, every router
    added is one of utils.ROUTER_IPS, and a cache without repetitions stays
    without repetitions. *)
Theorem addMapping_router_cache env intPort extPort lifetime w :
  let w' := (run (Pcp.addMapping env intPort extPort lifetime CacheRef) w).2 in
  (routerIpCache w `prefix_of` routerIpCache w') /\
  (forall r, r ∈ routerIpCache w' -> r ∈ routerIpCache w \/ r ∈ ROUTER_IPS) /\
  (NoDup (routerIpCache w) -> NoDup (routerIpCache w')).
Proof.
  cbv zeta. unfold Pcp.addMapping. rewrite run_bind.
  set (m0 := mkMapping None None (Some intPort) (-1) None (Some pcp) None None None None).
  pose proof (waves_effect env intPort extPort lifetime m0 w) as Hwaves.
  destruct (run (Pcp._sendPcpRequestsInWaves env intPort extPort lifetime CacheRef m0) w)
    as [[m1|e] w1].
  - destruct Hwaves as (_ & _ & _ & Hpre & Hnd & Hmem & _).
    destruct (save_effect intPort lifetime CacheRef m1 w1)
      as (m2 & w2 & -> & Hc & _). cbn [snd]. rewrite Hc. done.
  - destruct Hwaves as (-> & _). cbn [snd]. split; [done|]. split; [by left | done].
Qed.

(** X15. The timer a successful pcp.addMapping arms, by the lifetime the
    router granted.  Less than asked: a refresh after the granted time for
    the remainder, its id kept in timeoutId.  At least the 86400 seconds
    that stand for lifetime 0: a refresh after 24 hours with lifetime 0,
    its id kept.  Otherwise: an eviction of the entry after the granted
    time, whose id is not kept (timeoutId stays undefined). *)
Theorem addMapping_timer env intPort extPort lifetime w m w' :
  run (Pcp.addMapping env intPort extPort lifetime CacheRef) w = (Ok m, w') ->
  externalPort m ≠ -1 ->
  exists granted,
    Mapping.lifetime m = Some granted /\
    (granted < Pcp.reqLifetime lifetime ->
       timers w' = timers w ++ [mkTimer (nextTimeoutId w) (granted * 1000)
                                  (RefreshPcp intPort (externalPort m)
                                              (Pcp.reqLifetime lifetime - granted))] /\
       timeoutId m = Some (nextTimeoutId w)) /\
    (Pcp.reqLifetime lifetime <= granted -> lifetime = 0 ->
       timers w' = timers w ++ [mkTimer (nextTimeoutId w) 86400000
                                  (RefreshPcp intPort (externalPort m) 0)] /\
       timeoutId m = Some (nextTimeoutId w)) /\
    (Pcp.reqLifetime lifetime <= granted -> lifetime ≠ 0 ->
       timers w' = timers w ++ [mkTimer (nextTimeoutId w) (granted * 1000)
                                  (Evict (externalPort m))] /\
       timeoutId m = None).
Proof.
  unfold Pcp.addMapping. rewrite run_bind.
  set (m0 := mkMapping None None (Some intPort) (-1) None (Some pcp) None None None None).
  pose proof (waves_effect env intPort extPort lifetime m0 w) as Hwaves.
  destruct (run (Pcp._sendPcpRequestsInWaves env intPort extPort lifetime CacheRef m0) w)
    as [[m1|e] w1]; [|discriminate].
  destruct Hwaves as (_ & (_ & _ & Ht & Hn) & (_ & _ & Hti & _ & _ & Hm1) & _).
  intros Hrun Hext.
  destruct (save_effect intPort lifetime CacheRef m1 w1)
    as (m2 & w2 & Hrun2 & _ & _ & _ & Hfail & Hok).
  rewrite Hrun2 in Hrun. injection Hrun as -> ->.
  assert (externalPort m1 ≠ -1) as Hne.
  { intros Heq. destruct (Hfail Heq) as [-> _]. done. }
  destruct (Hok Hne) as (_ & He2 & _ & _ & _ & Hl2 & _).
  destruct Hm1 as [->|(_ & _ & [granted Hg])]; [done|].
  exists granted. split; [by rewrite Hl2|].
  destruct (save_timer intPort lifetime CacheRef m1 w1 granted Hne Hg)
    as (m2' & w2' & Hrun2' & H1 & H2 & H3).
  rewrite Hrun2 in Hrun2'. injection Hrun2' as <- <-.
  rewrite Ht, Hn, <- He2 in H1, H2, H3. rewrite Hti in H3.
  split; [|split].
  - intros Hlt. by destruct (H1 Hlt) as [-> ->].
  - intros Hge H0. by destruct (H2 Hge H0) as [-> ->].
  - intros Hge H0. by destruct (H3 Hge H0) as [-> ->].
Qed.

(** The router at 192.168.1.1 grants the 7200 seconds asked: the entry is
    evicted after 7200 s and no timeoutId is kept. *)
Lemma addMapping_timer_witness :
  exists granted,
    Mapping.lifetime Scenario.grantedInFull.1 = Some granted /\
    (granted < Pcp.reqLifetime 7200 ->
       timers Scenario.grantedInFull.2
         = timers newPortControl ++ [mkTimer (nextTimeoutId newPortControl) (granted * 1000)
                                       (RefreshPcp 4000 (externalPort Scenario.grantedInFull.1)
                                                   (Pcp.reqLifetime 7200 - granted))] /\
       timeoutId Scenario.grantedInFull.1 = Some (nextTimeoutId newPortControl)) /\
    (Pcp.reqLifetime 7200 <= granted -> 7200 = 0 ->
       timers Scenario.grantedInFull.2
         = timers newPortControl ++ [mkTimer (nextTimeoutId newPortControl) 86400000
                                       (RefreshPcp 4000 (externalPort Scenario.grantedInFull.1)
                                                   0)] /\
       timeoutId Scenario.grantedInFull.1 = Some (nextTimeoutId newPortControl)) /\
    (Pcp.reqLifetime 7200 <= granted -> 7200 ≠ 0 ->
       timers Scenario.grantedInFull.2
         = timers newPortControl ++ [mkTimer (nextTimeoutId newPortControl) (granted * 1000)
                                       (Evict (externalPort Scenario.grantedInFull.1))] /\
       timeoutId Scenario.grantedInFull.1 = None).
Proof.
  apply (addMapping_timer (Scenario.homeNetwork 0 8 7200 4001) 4000 4001 7200
           newPortControl Scenario.grantedInFull.1 Scenario.grantedInFull.2).
  - vm_compute. reflexivity.
  - vm_compute. discriminate.
Defined.

End AddMore.

(** ** pcp.deleteMapping *)

Module DeleteMore.
Import Utils PcpFrames AddSteps AddMore.

Lemma _sendDeletionRequests_frame env extPort routerIps w :
  onlyNetwork w (run (Pcp._sendDeletionRequests env extPort routerIps) w).2.
Proof.
  unfold Pcp._sendDeletionRequests. rewrite run_bind, run_getPrivateIps.
  destruct (0 <? _); [|apply onlyNetwork_refl].
  rewrite run_bind. cbn [run].
  destruct (activeMappings w !! extPort) as [m|]; [|apply onlyNetwork_refl].
  apply promiseAllMap_preorder; [apply onlyNetwork_refl | apply onlyNetwork_trans|].
  intros [r|] w0; [|apply onlyNetwork_refl].
  rewrite run_bind. cbn [run liftResult].
  destruct (longestPrefixMatch (gatheredIps env) r); [|apply onlyNetwork_refl].
  apply sendPcpRequest_onlyNetwork.
Qed.

(** The deletion waves come down to the first wave, when they get that far. *)
Lemma deletionWaves_run env extPort w :
  run (Pcp._sendDeletionRequestsInWaves env extPort CacheRef) w
    = (Throw (Error "getPrivateIps() failed"), w) /\ gatheredIps env = []
  \/ exists matched,
       Pcp.matchedRouterIps (routerIpCache w) (gatheredIps env) = Ok matched /\
       run (Pcp._sendDeletionRequestsInWaves env extPort CacheRef) w
         = run (Pcp._sendDeletionRequests env extPort matched) w.
Proof.
  unfold Pcp._sendDeletionRequestsInWaves. rewrite run_bind, run_getPrivateIps.
  destruct (gatheredIps env) as [|ip0 ips] eqn:Eg; [by left|]. right.
  rewrite <- Eg in *. rewrite gathered_nonempty by (rewrite Eg; done).
  destruct (matched_for_gathered env (routerIpCache w)) as (lpms & Hm & _).
  eexists. split; [exact Hm|].
  rewrite run_bind. cbn [run]. rewrite Hm, run_bind.
  by destruct (run (Pcp._sendDeletionRequests env extPort _) w) as [[resp|e] w1].
Qed.

Lemma deletionWaves_frame env extPort w :
  onlyNetwork w (run (Pcp._sendDeletionRequestsInWaves env extPort CacheRef) w).2.
Proof.
  destruct (deletionWaves_run env extPort w) as [[-> _]|(matched & _ & ->)].
  - apply onlyNetwork_refl.
  - apply _sendDeletionRequests_frame.
Qed.

Lemma activeMappings_clearTimeout id w :
  activeMappings (clearTimeout id w) = activeMappings w.
Proof. by destruct id. Qed.

(** The forEach of _deleteFromActiveMappings removes the entry at most
    once, with its timer, and touches nothing else. *)
Lemma forEach_delete extPort responses : forall w0 w1 err,
  forEach (Pcp.deleteOnSuccess extPort) responses w0 = (w1, err) ->
  w1 = w0 \/
  exists m, activeMappings w0 !! extPort = Some m /\
            w1 = set_activeMappings (delete extPort) (clearTimeout (timeoutId m) w0).
Proof.
  induction responses as [|v responses IH]; intros w0 w1 err H; cbn [forEach] in H.
  - injection H as <- _. by left.
  - unfold Pcp.deleteOnSuccess in H at 1. destruct v as [data|]; [|eauto].
    destruct (getUint8 data 3) as [code|e]; [|injection H as <- _; by left].
    destruct ((code =? 0) || (code =? 8)); [|eauto].
    destruct (activeMappings w0 !! extPort) as [m|] eqn:Em;
      [|injection H as <- _; by left].
    right. exists m. split; [done|].
    destruct (IH _ _ _ H) as [->|(m' & Hm' & _)]; [done|].
    cbn in Hm'. by rewrite lookup_delete_eq in Hm'.
Qed.

(** X16. pcp.deleteMapping never resolves to true and never rejects.  It
    leaves both caches alone, and of the registry and the timers it changes
    at most this: the entry under the external port is removed, and the
    timer whose id that entry holds in timeoutId is cancelled.  No other
    entry and no other timer is touched. *)
Theorem pcp_deleteMapping_effect env extPort w :
  let r := run (Pcp.deleteMapping env extPort CacheRef) w in
  r.1 = Ok false /\
  routerIpCache r.2 = routerIpCache w /\
  protocolSupportCache r.2 = protocolSupportCache w /\
  nextTimeoutId r.2 = nextTimeoutId w /\
  (activeMappings r.2 = activeMappings w /\ timers r.2 = timers w
   \/
   exists m, activeMappings w !! extPort = Some m /\
             activeMappings r.2 = delete extPort (activeMappings w) /\
             timers r.2 = timers (clearTimeout (timeoutId m) w)).
Proof.
  cbv zeta. unfold Pcp.deleteMapping, catch. cbn [run]. rewrite run_bind.
  pose proof (deletionWaves_frame env extPort w) as Hnet.
  destruct (run (Pcp._sendDeletionRequestsInWaves env extPort CacheRef) w)
    as [[responses|e] w1]; cbn [snd] in Hnet; destruct Hnet as (A & B & C & D & E).
  2:{ cbn. split; [done|]. split; [done|]. split; [done|]. split; [done|]. by left. }
  unfold Pcp._deleteFromActiveMappings. cbn [run].
  destruct (forEach (Pcp.deleteOnSuccess extPort) responses w1) as [w2 err] eqn:Efor.
  assert (w2 = w1 \/
          exists m, activeMappings w1 !! extPort = Some m /\
                    w2 = set_activeMappings (delete extPort)
                           (clearTimeout (timeoutId m) w1)) as Hcases
    by (by eapply forEach_delete).
  destruct err; cbn [run mret Promise_ret fst snd].
  all: destruct Hcases as [->|(m & Hm & ->)].
  all: split; [done|].
  all: try (split; [done|]; split; [done|]; split; [done|]; by left).
  all: split; [by destruct (timeoutId m)|].
  all: split; [by destruct (timeoutId m)|].
  all: split; [by destruct (timeoutId m)|].
  all: right; exists m; rewrite <- A; split; [done|].
  all: split; [cbn; by rewrite activeMappings_clearTimeout|].
  all: destruct (timeoutId m); cbn; by rewrite ?D.
Qed.

Lemma pcpBuffer_carriesNonce r octets intPort extPort lifetime n buffer :
  0 <= n.1.1 < 4294967296 -> 0 <= n.1.2 < 4294967296 -> 0 <= n.2 < 4294967296 ->
  Pcp.pcpBuffer octets intPort extPort lifetime n = Ok buffer ->
  carriesNonce n (r, 5351, buffer).
Proof.
  destruct n as [[n0 n1] n2]. cbn [fst snd]. intros H0 H1 H2 Hb.
  rewrite PcpCodec.pcpBuffer_bytes in Hb. injection Hb as <-.
  unfold carriesNonce, getUint32, inRange, byteAt. simpl.
  rewrite !UtilsFacts.be32_roundtrip by assumption. done.
Qed.

(** X17. Every datagram pcp.deleteMapping sends for a registered mapping is
    a PCP MAP request with lifetime 0 and suggested external port 0 that
    carries the mapping's internal port and the nonce of the reply it was
    created from. *)
Theorem pcp_deleteMapping_requests env extPort w m intPort n :
  activeMappings w !! extPort = Some m ->
  internalPort m = Some intPort -> nonce m = Some n ->
  0 <= intPort < 65536 ->
  0 <= n.1.1 < 4294967296 -> 0 <= n.1.2 < 4294967296 -> 0 <= n.2 < 4294967296 ->
  sentAll (fun d => isMapRequest intPort 0 0 d /\ carriesNonce n d)
          w (run (Pcp.deleteMapping env extPort CacheRef) w).2.
Proof.
  intros Hreg Hint Hnonce Hi H0 H1 H2.
  set (P := fun d => isMapRequest intPort 0 0 d /\ carriesNonce n d).
  assert (forall routerIps,
            sentAll P w (run (Pcp._sendDeletionRequests env extPort routerIps) w).2)
    as Hwave.
  { intros routerIps. unfold Pcp._sendDeletionRequests.
    rewrite run_bind, run_getPrivateIps.
    destruct (0 <? _); [|apply sentAll_refl].
    rewrite run_bind. cbn [run]. rewrite Hreg, Hint, Hnonce.
    apply (promiseAllMap_preorder (sentAll P)); [apply sentAll_refl | apply sentAll_trans|].
    intros [r|] w0; [|apply sentAll_refl].
    rewrite run_bind. cbn [run liftResult].
    destruct (longestPrefixMatch (gatheredIps env) r); [|apply sentAll_refl].
    apply sendPcpRequest_sentAll. intros octets n' buffer Hn' _ Hb.
    pose proof (Hn' n eq_refl) as ->. split.
    - eapply pcpBuffer_isMapRequest; [done | lia | lia | exact Hb].
    - by eapply pcpBuffer_carriesNonce. }
  unfold Pcp.deleteMapping, catch. cbn [run]. rewrite run_bind.
  assert (sentAll P w (run (Pcp._sendDeletionRequestsInWaves env extPort CacheRef) w).2)
    as Hwaves.
  { destruct (deletionWaves_run env extPort w) as [[-> _]|(matched & _ & ->)];
      [apply sentAll_refl | apply Hwave]. }
  destruct (run (Pcp._sendDeletionRequestsInWaves env extPort CacheRef) w)
    as [[responses|e] w1]; cbn [snd] in Hwaves; [|exact Hwaves].
  unfold Pcp._deleteFromActiveMappings. cbn [run].
  destruct (forEach (Pcp.deleteOnSuccess extPort) responses w1) as [w2 err] eqn:Efor.
  assert (sent w2 = sent w1) as Hsent.
  { destruct (forEach_delete _ _ _ _ _ Efor) as [->|(m' & _ & ->)]; [done|].
    by destruct (timeoutId m'). }
  eapply sentAll_trans; [exact Hwaves|]. apply sentAll_same.
  by destruct err.
Qed.

(** The mapping [afterAdd] has registered under port 4001. *)
Lemma pcp_deleteMapping_requests_witness :
  sentAll (fun d => isMapRequest 4000 0 0 d /\ carriesNonce (7, 8, 9) d)
          (Scenario.afterAdd 0)
          (run (Pcp.deleteMapping (Scenario.homeNetwork 0 0 120 4001) 4001 CacheRef)
               (Scenario.afterAdd 0)).2.
Proof.
  apply (pcp_deleteMapping_requests (Scenario.homeNetwork 0 0 120 4001) 4001
           (Scenario.afterAdd 0) Scenario.registered4001 4000 (7, 8, 9)).
  - vm_compute. reflexivity.
  - reflexivity.
  - reflexivity.
  - lia.
  - simpl. lia.
  - simpl. lia.
  - simpl. lia.
Defined.

(** X18. pcp.deleteMapping for an external port that has no entry in the
    registry resolves to false without sending a datagram or changing
    anything, whatever router-IP cache it was given: reading the internal
    port of the missing entry throws, and the catch turns that into
    false. *)
Theorem pcp_deleteMapping_unregistered env extPort cacheArg w :
  activeMappings w !! extPort = None ->
  run (Pcp.deleteMapping env extPort cacheArg) w = (Ok false, w).
Proof.
  intros Hnone.
  assert (forall routerIps,
            exists e, run (Pcp._sendDeletionRequests env extPort routerIps) w
                      = (Throw e, w)) as Hwave.
  { intros routerIps. unfold Pcp._sendDeletionRequests.
    rewrite run_bind, run_getPrivateIps. destruct (0 <? _); [|eauto].
    rewrite run_bind. cbn [run]. rewrite Hnone. eauto. }
  unfold Pcp.deleteMapping, catch. cbn [run]. rewrite run_bind.
  unfold Pcp._sendDeletionRequestsInWaves. rewrite run_bind, run_getPrivateIps.
  destruct (0 <? _); [|reflexivity].
  rewrite run_bind. cbn [run].
  destruct cacheArg.
  - destruct (Pcp.matchedRouterIps _ _) as [matched|e]; [|reflexivity].
    rewrite run_bind. destruct (Hwave matched) as [e ->]. reflexivity.
  - by destruct (filterRouterIps (gatheredIps env)).
Qed.

(** Port 4000 on a PortControl that has registered nothing. *)
Lemma pcp_deleteMapping_unregistered_witness :
  run (Pcp.deleteMapping (Scenario.homeNetwork 0 0 120 4001) 4000 CacheRef) newPortControl
  = (Ok false, newPortControl).
Proof.
  apply (pcp_deleteMapping_unregistered (Scenario.homeNetwork 0 0 120 4001) 4000 CacheRef
           newPortControl).
  reflexivity.
Defined.

(** X19. A refresh timer fires in vain.  The call it makes to addMapping
    was bound without the router-IP cache, so it rejects before a request
    is sent: nothing is sent, registered or re-armed, and the mapping is
    not refreshed. *)
Theorem refresh_timer_fires_in_vain env t w :
  (forall extPort, action t ≠ Evict extPort) ->
  exists e, run (Pcp.fire env t) w = (Throw e, w).
Proof.
  intros Hrefresh. unfold Pcp.fire.
  destruct (action t) as [intPort extPort lifetime|extPort]; [|by destruct (Hrefresh extPort)].
  rewrite run_bind.
  destruct (Refresh.refresh_rejects env intPort extPort lifetime w) as [e ->].
  by exists e.
Qed.

(** The timer of scenario 3: re-add port 4001 for 180 seconds. *)
Lemma refresh_timer_fires_in_vain_witness :
  exists e,
    run (Pcp.fire (Scenario.homeNetwork 0 8 120 4001)
                  (mkTimer 0 120000 (RefreshPcp 4000 4001 180)))
        (Scenario.afterAdd 8)
    = (Throw e, Scenario.afterAdd 8).
Proof.
  apply (refresh_timer_fires_in_vain (Scenario.homeNetwork 0 8 120 4001)
           (mkTimer 0 120000 (RefreshPcp 4000 4001 180)) (Scenario.afterAdd 8)).
  intros extPort. discriminate.
Defined.

End DeleteMore.

(** ** The PortControl methods over PCP *)

Module ControlMore.
Import Utils PcpFrames AddSteps AddMore DeleteMore.

(** A mapping pcp.addMapping resolved with, when it succeeded, is the
    registry entry under its external port. *)
Lemma addMapping_registered env intPort extPort lifetime w m w1 :
  run (Pcp.addMapping env intPort extPort lifetime CacheRef) w = (Ok m, w1) ->
  externalPort m ≠ -1 ->
  activeMappings w1 = <[externalPort m := m]> (activeMappings w) /\
  internalPort m = Some intPort /\
  protocol m = Some pcp /\
  deleter m = Some (PcpDeleter (externalPort m) CacheRef) /\
  exists t, timers w1 = timers w ++ [t].
Proof.
  unfold Pcp.addMapping. rewrite run_bind.
  set (m0 := mkMapping None None (Some intPort) (-1) None (Some pcp) None None None None).
  pose proof (waves_effect env intPort extPort lifetime m0 w) as Hwaves.
  destruct (run (Pcp._sendPcpRequestsInWaves env intPort extPort lifetime CacheRef m0) w)
    as [[m1|e] w0]; [|discriminate].
  destruct Hwaves as (_ & (Ha & _ & Ht & _) & (Hip & Hpr & _) & _).
  destruct (save_effect intPort lifetime CacheRef m1 w0)
    as (m2 & w2 & -> & _ & _ & _ & Hfail & Hok).
  intros [= <- <-] Hext.
  assert (externalPort m1 ≠ -1) as Hne.
  { intros Heq. destruct (Hfail Heq) as [-> _]. done. }
  destruct (Hok Hne) as (Hreg & He2 & Hi2 & _ & _ & _ & Hpr2 & _ & _ & Hd2 & t & Htm & _).
  split; [by rewrite He2, Hreg, Ha|]. split; [by rewrite Hi2, Hip|].
  split; [by rewrite Hpr2, Hpr|]. split; [by rewrite He2|].
  exists t. by rewrite Htm, Ht.
Qed.

(** What every run of pcp.addMapping keeps, and what a failed one keeps. *)
Lemma addMapping_summary env intPort extPort lifetime w :
  0 <= intPort < 65536 -> 0 <= extPort < 65536 ->
  0 <= Pcp.reqLifetime lifetime < 4294967296 ->
  let r := run (Pcp.addMapping env intPort extPort lifetime CacheRef) w in
  protocolSupportCache r.2 = protocolSupportCache w /\
  sentAll (isMapRequest intPort extPort (Pcp.reqLifetime lifetime)) w r.2 /\
  match r.1 with
  | Ok m => externalPort m = -1 ->
            activeMappings r.2 = activeMappings w /\ timers r.2 = timers w
  | Throw e => r.2 = w /\ gatheredIps env = []
  end.
Proof.
  intros Hi He Hl. cbv zeta. unfold Pcp.addMapping. rewrite run_bind.
  set (m0 := mkMapping None None (Some intPort) (-1) None (Some pcp) None None None None).
  pose proof (waves_effect env intPort extPort lifetime m0 w) as Hwaves.
  destruct (run (Pcp._sendPcpRequestsInWaves env intPort extPort lifetime CacheRef m0) w)
    as [[m1|e] w0].
  - destruct Hwaves as (_ & (Ha & Hp & Ht & _) & _ & _ & _ & _ & Hsent).
    destruct (save_effect intPort lifetime CacheRef m1 w0)
      as (m2 & w2 & -> & _ & Hp2 & Hs2 & Hfail & Hok). cbn [fst snd].
    split; [by rewrite Hp2|].
    split; [eapply sentAll_trans; [by apply Hsent | by apply sentAll_same]|].
    intros Heq. destruct (decide (externalPort m1 = -1)) as [Heq1|Hne1].
    + destruct (Hfail Heq1) as [_ ->]. done.
    + destruct (Hok Hne1) as (_ & He2 & _). congruence.
  - destruct Hwaves as (-> & _ & Hg). cbn [fst snd].
    split; [done|]. split; [apply sentAll_refl | done].
Qed.

(** X20. What probing for PCP leaves behind.  A probe that resolves to
    true has registered a mapping for internal port 55556 in activeMappings
    and armed a timer for it; a probe that resolves to false has changed
    neither.  Either way the protocol-support cache is as before, and every
    datagram sent asks to map port 55556 to 55556 for 120 seconds. *)
Theorem probeSupport_effect env w :
  let r := run (Pcp.probeSupport env CacheRef) w in
  protocolSupportCache r.2 = protocolSupportCache w /\
  sentAll (isMapRequest 55556 55556 120) w r.2 /\
  match r.1 with
  | Ok true =>
      exists m t,
        activeMappings r.2 = <[externalPort m := m]> (activeMappings w) /\
        externalPort m ≠ -1 /\ internalPort m = Some 55556 /\ protocol m = Some pcp /\
        timers r.2 = timers w ++ [t]
  | Ok false => activeMappings r.2 = activeMappings w /\ timers r.2 = timers w
  | Throw e => r.2 = w /\ gatheredIps env = []
  end.
Proof.
  cbv zeta. unfold Pcp.probeSupport. rewrite run_bind.
  assert (0 <= Pcp.reqLifetime 120 < 4294967296) as Hl by (vm_compute; split; congruence).
  pose proof (addMapping_summary env PCP_PROBE_PORT PCP_PROBE_PORT 120 w
                ltac:(unfold PCP_PROBE_PORT; lia) ltac:(unfold PCP_PROBE_PORT; lia) Hl)
    as Hsum.
  pose proof (fun m w1 => addMapping_registered env PCP_PROBE_PORT PCP_PROBE_PORT 120 w m w1)
    as Hreg.
  cbv zeta in Hsum.
  destruct (run (Pcp.addMapping env PCP_PROBE_PORT PCP_PROBE_PORT 120 CacheRef) w)
    as [[m|e] w1]; cbn [run mret Promise_ret fst snd] in *;
    destruct Hsum as (Hp & Hsent & Hrest).
  - split; [done|]. split; [exact Hsent|].
    destruct (decide (externalPort m = -1)) as [Heq|Hne].
    + rewrite bool_decide_eq_false_2 by (intros Hn; by apply Hn). by apply Hrest.
    + rewrite bool_decide_eq_true_2 by done.
      destruct (Hreg m w1 eq_refl Hne) as (Ha & Hi & Hpr & _ & t & Ht).
      by exists m, t.
  - split; [done|]. split; [exact Hsent | exact Hrest].
Qed.

(** X21. A mapping made through addMappingPcp is deleted through PCP
    whether deleteMapping or deleteMappingPcp is called with its external
    port, and either call resolves to false; deleteMappingPmp and
    deleteMappingUpnp resolve to false for it without changing anything. *)
Theorem pcp_mapping_deletion_dispatch
    env pmpDelete upnpDelete intPort extPort lifetime w m w1 :
  run (PortControl.addMappingPcp env intPort extPort lifetime) w = (Ok m, w1) ->
  externalPort m ≠ -1 ->
  run (PortControl.deleteMapping env pmpDelete upnpDelete (externalPort m)) w1
    = run (Pcp.deleteMapping env (externalPort m) CacheRef) w1 /\
  run (PortControl.deleteMappingPcp env pmpDelete upnpDelete (externalPort m)) w1
    = run (Pcp.deleteMapping env (externalPort m) CacheRef) w1 /\
  (run (PortControl.deleteMapping env pmpDelete upnpDelete (externalPort m)) w1).1
    = Ok false /\
  run (PortControl.deleteMappingPmp env pmpDelete upnpDelete (externalPort m)) w1
    = (Ok false, w1) /\
  run (PortControl.deleteMappingUpnp env pmpDelete upnpDelete (externalPort m)) w1
    = (Ok false, w1).
Proof.
  unfold PortControl.addMappingPcp. intros Hadd Hext.
  destruct (addMapping_registered _ _ _ _ _ _ _ Hadd Hext) as (Ha & _ & Hp & Hd & _).
  assert (activeMappings w1 !! externalPort m = Some m) as Hlook
    by (rewrite Ha; apply lookup_insert_eq).
  assert (run (PortControl.deleteMapping env pmpDelete upnpDelete (externalPort m)) w1
          = run (Pcp.deleteMapping env (externalPort m) CacheRef) w1) as Hdel.
  { unfold PortControl.deleteMapping. cbn [run]. rewrite Hlook, Hd. reflexivity. }
  split; [exact Hdel|]. split.
  { unfold PortControl.deleteMappingPcp, PortControl.deleteMappingOf. cbn [run].
    rewrite Hlook, Hp, Hd.
    rewrite bool_decide_eq_false_2 by (intros Hn; by apply Hn). reflexivity. }
  split; [rewrite Hdel; apply PcpReplies.pcp_deleteMapping_false|].
  split.
  - unfold PortControl.deleteMappingPmp, PortControl.deleteMappingOf. cbn [run].
    rewrite Hlook, Hp. by rewrite bool_decide_eq_true_2.
  - unfold PortControl.deleteMappingUpnp, PortControl.deleteMappingOf. cbn [run].
    rewrite Hlook, Hp. by rewrite bool_decide_eq_true_2.
Qed.

(** The mapping of port 4001 granted in full on the home network. *)
Lemma pcp_mapping_deletion_dispatch_witness :
  let env := Scenario.homeNetwork 0 8 7200 4001 in
  let m := Scenario.grantedInFull.1 in
  let w1 := Scenario.grantedInFull.2 in
  run (PortControl.deleteMapping env Scenario.noDeleter Scenario.noDeleter (externalPort m)) w1
    = run (Pcp.deleteMapping env (externalPort m) CacheRef) w1 /\
  run (PortControl.deleteMappingPcp env Scenario.noDeleter Scenario.noDeleter
         (externalPort m)) w1
    = run (Pcp.deleteMapping env (externalPort m) CacheRef) w1 /\
  (run (PortControl.deleteMapping env Scenario.noDeleter Scenario.noDeleter
          (externalPort m)) w1).1
    = Ok false /\
  run (PortControl.deleteMappingPmp env Scenario.noDeleter Scenario.noDeleter
         (externalPort m)) w1
    = (Ok false, w1) /\
  run (PortControl.deleteMappingUpnp env Scenario.noDeleter Scenario.noDeleter
         (externalPort m)) w1
    = (Ok false, w1).
Proof.
  apply (pcp_mapping_deletion_dispatch (Scenario.homeNetwork 0 8 7200 4001)
           Scenario.noDeleter Scenario.noDeleter 4000 4001 7200 newPortControl
           Scenario.grantedInFull.1 Scenario.grantedInFull.2).
  - vm_compute. reflexivity.
  - vm_compute. discriminate.
Defined.

(** X22. Once probeProtocolSupport has stored its outcome, addMapping
    tries one protocol only, the first supported in the order NAT-PMP, PCP,
    UPnP (UPnP with the control URL stored), and does not fall back to
    another.  With none supported it returns the failure Mapping with
    errInfo set and externalPort -1, and nothing is sent or changed. *)
Theorem addMapping_after_probe
    env pmpAdd upnpAdd pmpOk pcpOk upnpOk controlUrl intPort extPort lifetime w :
  let w1 := (run (PortControl.recordSupport (pmpOk, pcpOk, upnpOk, controlUrl)) w).2 in
  run (PortControl.addMapping env pmpAdd upnpAdd intPort extPort lifetime) w1 =
    if pmpOk then run (pmpAdd intPort extPort lifetime) w1
    else if pcpOk then run (Pcp.addMapping env intPort extPort lifetime CacheRef) w1
    else if upnpOk then run (upnpAdd intPort extPort lifetime (Some controlUrl)) w1
    else (Ok (mkMapping None None None (-1) None None None None None
                        (Some "No protocols are supported from last probe"%string)),
          w1).
Proof.
  cbv zeta. unfold PortControl.addMapping, PortControl.recordSupport. cbn [run snd].
  cbn [protocolSupportCache support_natPmp support_pcp support_upnp upnpControlUrl
       PortControl.truthy default].
  unfold PortControl.addMappingPmp, PortControl.addMappingPcp, PortControl.addMappingUpnp.
  by destruct pmpOk, pcpOk, upnpOk.
Qed.

End ControlMore.

(** ** Replies of a wave *)

Module ReplyMore.
Import Utils.











End ReplyMore.

(** ** Timers across add and delete *)

Module TimerMore.
Import Utils PcpFrames AddSteps AddMore DeleteMore.

(** A successful pcp.addMapping, split at _saveAndRefreshMapping. *)
Lemma addMapping_split env intPort extPort lifetime w m w' :
  run (Pcp.addMapping env intPort extPort lifetime CacheRef) w = (Ok m, w') ->
  externalPort m ≠ -1 ->
  exists m1 w1 granted,
    run (Pcp._saveAndRefreshMapping intPort lifetime CacheRef m1) w1 = (Ok m, w') /\
    externalPort m1 = externalPort m /\
    Mapping.lifetime m1 = Some granted /\ Mapping.lifetime m = Some granted /\
    timeoutId m1 = None /\
    keepsRegistry w w1.
Proof.
  unfold Pcp.addMapping. rewrite run_bind.
  set (m0 := mkMapping None None (Some intPort) (-1) None (Some pcp) None None None None).
  pose proof (waves_effect env intPort extPort lifetime m0 w) as Hwaves.
  destruct (run (Pcp._sendPcpRequestsInWaves env intPort extPort lifetime CacheRef m0) w)
    as [[m1|e] w1]; [|discriminate].
  destruct Hwaves as (_ & Hkeep & (_ & _ & Hti & _ & _ & Hm1) & _).
  intros Hrun Hext.
  destruct (save_effect intPort lifetime CacheRef m1 w1)
    as (m2 & w2 & Hrun2 & _ & _ & _ & Hfail & Hok).
  rewrite Hrun2 in Hrun. injection Hrun as -> ->.
  assert (externalPort m1 ≠ -1) as Hne.
  { intros Heq. destruct (Hfail Heq) as [-> _]. done. }
  destruct (Hok Hne) as (_ & He2 & _ & _ & _ & Hl2 & _).
  destruct Hm1 as [->|(_ & _ & [granted Hg])]; [done|].
  exists m1, w1, granted. split; [done|]. split; [done|]. split; [done|].
  split; [by rewrite Hl2|]. split; done.
Qed.

(** Deleting a mapping that holds no timeoutId cancels no timer. *)
Lemma deleteMapping_keeps_timers env extPort w :
  (forall m, activeMappings w !! extPort = Some m -> timeoutId m = None) ->
  timers (run (Pcp.deleteMapping env extPort CacheRef) w).2 = timers w.
Proof.
  intros Hno. unfold Pcp.deleteMapping, catch. cbn [run]. rewrite run_bind.
  pose proof (deletionWaves_frame env extPort w) as Hnet.
  destruct (run (Pcp._sendDeletionRequestsInWaves env extPort CacheRef) w)
    as [[responses|e] w1]; cbn [snd] in Hnet; destruct Hnet as (A & B & C & D & E);
    [|done].
  unfold Pcp._deleteFromActiveMappings. cbn [run].
  destruct (forEach (Pcp.deleteOnSuccess extPort) responses w1) as [w2 err] eqn:Efor.
  assert (timers w2 = timers w) as <-.
  { destruct (forEach_delete _ _ _ _ _ Efor) as [->|(m & Hm & ->)]; [done|].
    rewrite A in Hm. by rewrite (Hno m Hm). }
  by destruct err.
Qed.

(** X25. The eviction timer outlives its mapping.  When the router grants
    at least the lifetime asked (and the caller did not ask for 0),
    pcp.addMapping arms a timer that evicts the entry after the granted
    time.  deleteMapping of that mapping does not cancel it: the timers
    are exactly as before the deletion.  When the timer fires it removes
    whatever entry is registered under the external port by then. *)
Theorem eviction_timer_outlives_mapping env intPort extPort lifetime w m w1 granted :
  run (Pcp.addMapping env intPort extPort lifetime CacheRef) w = (Ok m, w1) ->
  externalPort m ≠ -1 ->
  Mapping.lifetime m = Some granted ->
  lifetime ≠ 0 -> lifetime <= granted ->
  let t := mkTimer (nextTimeoutId w) (granted * 1000) (Evict (externalPort m)) in
  timers w1 = timers w ++ [t] /\
  timers (run (Pcp.deleteMapping env (externalPort m) CacheRef) w1).2 = timers w ++ [t] /\
  forall w3, run (Pcp.fire env t) w3
             = (Ok tt, set_activeMappings (delete (externalPort m)) w3).
Proof.
  intros Hadd Hext Hlife Hne0 Hge. cbv zeta.
  destruct (addMapping_split _ _ _ _ _ _ _ Hadd Hext)
    as (m1 & w0 & granted' & Hsave & He1 & Hl1 & Hl & Hti & (Ha & _ & Ht & Hn)).
  rewrite Hlife in Hl. injection Hl as <-.
  assert (externalPort m1 ≠ -1) as Hne1 by (by rewrite He1).
  assert (Pcp.reqLifetime lifetime = lifetime) as Hreq.
  { unfold Pcp.reqLifetime. by rewrite (proj2 (Z.eqb_neq lifetime 0) Hne0). }
  destruct (save_timer intPort lifetime CacheRef m1 w0 granted Hne1 Hl1)
    as (m2 & w2 & Hsave' & _ & _ & Hevict).
  rewrite Hsave in Hsave'. injection Hsave' as <- <-.
  destruct Hevict as [Htimers Htid]; [by rewrite Hreq | done|].
  rewrite Ht, Hn, He1 in Htimers. rewrite Hti in Htid.
  split; [exact Htimers|]. split; [|done].
  rewrite <- Htimers. apply deleteMapping_keeps_timers.
  intros m' Hm'.
  destruct (save_effect intPort lifetime CacheRef m1 w0)
    as (m2 & w2 & Hsave' & _ & _ & _ & _ & Hok).
  rewrite Hsave in Hsave'. injection Hsave' as <- <-.
  destruct (Hok Hne1) as (Hreg & _).
  rewrite Hreg, He1, lookup_insert_eq in Hm'. by injection Hm' as <-.
Qed.

(** Port 4001 asked for 7200 seconds and granted for as long. *)
Lemma eviction_timer_outlives_mapping_witness :
  let env := Scenario.homeNetwork 0 8 7200 4001 in
  let m := Scenario.grantedInFull.1 in
  let w1 := Scenario.grantedInFull.2 in
  let t := mkTimer (nextTimeoutId newPortControl) (7200 * 1000) (Evict (externalPort m)) in
  timers w1 = timers newPortControl ++ [t] /\
  timers (run (Pcp.deleteMapping env (externalPort m) CacheRef) w1).2
    = timers newPortControl ++ [t] /\
  forall w3, run (Pcp.fire env t) w3
             = (Ok tt, set_activeMappings (delete (externalPort m)) w3).
Proof.
  apply (eviction_timer_outlives_mapping (Scenario.homeNetwork 0 8 7200 4001)
           4000 4001 7200 newPortControl Scenario.grantedInFull.1
           Scenario.grantedInFull.2 7200).
  - vm_compute. reflexivity.
  - vm_compute. discriminate.
  - vm_compute. reflexivity.
  - lia.
  - lia.
Defined.

End TimerMore.
